(** * Verification of the pre-commit marker hooks

    Shallow embedding of [src/precommit_hooks/check_for_markers.py] and
    [src/precommit_hooks/check_for_xxx.py].

    Conventions of the embedding.
    - A Python [str] is a Rocq [string]; the character with number [n]
      stands for the code point [n] (0..255).  A Python [bytes] value is a
      [string] as well, one character per byte.
    - Python integers are [Z]; list positions are [nat].  [int] refuses a
      decimal literal of more than 4300 digits, as CPython does by
      default; [str] of an integer is embedded for the integers of at most
      4300 digits, the only ones that the hooks and [difflib] print for
      sequences of fewer than [10 ^ 4300] elements.
    - A call that can raise returns a [result]: [Ok v] or [Raise e].
    - The parts of the Python standard library that the hooks call
      ([str] and [bytes] methods, [int], [repr], [difflib]) are embedded
      from the behaviour of CPython 3.11; [re.search] is a parameter of
      the scanner, with a fragment of it embedded for concrete runs.
    - What git and the command line hand to the hooks is their input: the
      entries of the index diff with their blobs, the value of
      [args.pattern] ([None] when no pattern option is given), the output
      of [git diff --cached]. *)

From Stdlib Require Import Bool Arith ZArith Lia List Ascii String.
From Stdlib Require Import Decimal DecimalString DecimalN DecimalZ.
Import ListNotations.
Open Scope string_scope.
Open Scope list_scope.
Open Scope nat_scope.

Set Implicit Arguments.

(** ** Exceptions and results *)

Inductive exn : Type :=
| ValueError
| TypeError
| ReError.

Inductive result (A : Type) : Type :=
| Ok (a : A)
| Raise (e : exn).

Arguments Ok {A} a.
Arguments Raise {A} e.

Definition bind {A B : Type} (m : result A) (k : A -> result B) : result B :=
  match m with
  | Ok a => k a
  | Raise e => Raise e
  end.

Notation "x <- m ;; k" := (bind m (fun x => k))
  (at level 61, m at next level, right associativity).

(** ** Python string primitives *)

Module Py.

(** [s.startswith(p)] *)
Definition startswith (s p : string) : bool := String.prefix p s.

(** [str.isspace] on one code point below 256: U+0009..U+000D,
    U+001C..U+001F, U+0020, U+0085, U+00A0. *)
Definition isspace (c : ascii) : bool :=
  let n := nat_of_ascii c in
  (((9 <=? n) && (n <=? 13)) || ((28 <=? n) && (n <=? 32))
   || (n =? 133) || (n =? 160))%nat.

Fixpoint lstrip_by (f : ascii -> bool) (s : string) : string :=
  match s with
  | String c s' => if f c then lstrip_by f s' else s
  | EmptyString => EmptyString
  end.

(** A character is dropped from the right end when [f] holds of it and
    everything after it has been dropped. *)
Fixpoint rstrip_by (f : ascii -> bool) (s : string) : string :=
  match s with
  | String c s' =>
      match rstrip_by f s' with
      | EmptyString => if f c then EmptyString else String c EmptyString
      | r => String c r
      end
  | EmptyString => EmptyString
  end.

(** [s.strip()] *)
Definition strip (s : string) : string :=
  rstrip_by isspace (lstrip_by isspace s).

(** [s.split(sep)] for a separator of one character: the fields between
    the occurrences of [sep]; never the empty list. *)
Fixpoint split (sep : ascii) (s : string) : list string :=
  match s with
  | EmptyString => [EmptyString]
  | String c s' =>
      if Ascii.eqb c sep then EmptyString :: split sep s'
      else match split sep s' with
           | f :: fs => String c f :: fs
           | [] => [String c EmptyString]
           end
  end.

(** Line boundaries of [str.splitlines] below 256: LF, VT, FF, CR,
    FS, GS, RS, NEL. *)
Definition is_linebreak (c : ascii) : bool :=
  let n := nat_of_ascii c in
  (((10 <=? n) && (n <=? 13)) || ((28 <=? n) && (n <=? 30))
   || (n =? 133))%nat.

Definition CR : ascii := "013"%char.
Definition LF : ascii := "010"%char.

(** [splitlines_from cur s]: the lines of [cur ++ s], where [cur] is the
    part of the current line already read.  CR LF is one terminator; a last
    line without terminator is a line; nothing follows a final terminator. *)
Fixpoint splitlines_from (brk : ascii -> bool) (cur : string) (s : string)
  : list string :=
  match s with
  | EmptyString =>
      match cur with
      | EmptyString => []
      | _ => [cur]
      end
  | String c s' =>
      if brk c then
        cur :: match s' with
               | String c' s'' =>
                   if Ascii.eqb c CR && Ascii.eqb c' LF
                   then splitlines_from brk EmptyString s''
                   else splitlines_from brk EmptyString s'
               | EmptyString => []
               end
      else splitlines_from brk (cur ++ String c EmptyString) s'
  end.

(** [s.splitlines()] for a [str] *)
Definition splitlines (s : string) : list string :=
  splitlines_from is_linebreak EmptyString s.

(** [s.splitlines()] for a [bytes] value: only LF, CR and CR LF end a
    line. *)
Definition bytes_splitlines (s : string) : list string :=
  splitlines_from (fun c => Ascii.eqb c LF || Ascii.eqb c CR) EmptyString s.

(** [bytes.lower]: the ASCII capitals become small letters. *)
Definition lower_byte (c : ascii) : ascii :=
  let n := nat_of_ascii c in
  if ((65 <=? n) && (n <=? 90))%nat then ascii_of_nat (n + 32) else c.

Fixpoint lower (s : string) : string :=
  match s with
  | EmptyString => EmptyString
  | String c s' => String (lower_byte c) (lower s')
  end.

(** [sub in s]: [sub] occurs in [s] as a contiguous block. *)
Fixpoint contains (sub s : string) : bool :=
  String.prefix sub s
  || match s with
     | EmptyString => false
     | String _ s' => contains sub s'
     end.

(** [sep.join(l)] *)
Fixpoint join (sep : string) (l : list string) : string :=
  match l with
  | [] => EmptyString
  | [x] => x
  | x :: l' => x ++ sep ++ join sep l'
  end.

(** *** [int(s)] in base ten

    White space around the literal is dropped (for [int] that is
    U+0009..U+000D, U+0020, U+0085 and U+00A0), then comes an optional sign
    and decimal digits, where one underscore may stand between two
    digits.  A literal with more than [max_str_digits] digits is refused
    with [ValueError]: leading zeros count, the sign and the underscores
    do not. *)
Definition int_space (c : ascii) : bool :=
  let n := nat_of_ascii c in
  (((9 <=? n) && (n <=? 13)) || (n =? 32) || (n =? 133) || (n =? 160))%nat.

Definition digit (c : ascii) : option (uint -> uint) :=
  match c with
  | "0"%char => Some D0 | "1"%char => Some D1 | "2"%char => Some D2
  | "3"%char => Some D3 | "4"%char => Some D4 | "5"%char => Some D5
  | "6"%char => Some D6 | "7"%char => Some D7 | "8"%char => Some D8
  | "9"%char => Some D9
  | _ => None
  end.

Fixpoint digits (s : string) : option uint :=
  match s with
  | EmptyString => None
  | String c s' =>
      match digit c with
      | None => None
      | Some d =>
          match s' with
          | EmptyString => Some (d Nil)
          | String "_"%char s'' => option_map d (digits s'')
          | _ => option_map d (digits s')
          end
      end
  end.

(** [sys.int_info.default_max_str_digits], the limit on the digits of a
    decimal literal that [int] converts. *)
Definition max_str_digits : nat := 4300.

Definition int (s : string) : result Z :=
  let t := rstrip_by int_space (lstrip_by int_space s) in
  let '(neg, body) :=
    match t with
    | String "-"%char r => (true, r)
    | String "+"%char r => (false, r)
    | _ => (false, t)
    end in
  match digits body with
  | Some u =>
      if (max_str_digits <? nb_digits u)%nat then Raise ValueError
      else Ok (if neg then Z.opp (Z.of_uint u) else Z.of_uint u)
  | None => Raise ValueError
  end.

(** [str(n)] for an integer, also what ['{}'.format(n)] and an f-string
    field give, for the integers of at most [max_str_digits] digits. *)
Definition str_of_int (n : Z) : string :=
  NilEmpty.string_of_int (Z.to_int n).

(** *** [repr(s)] for a [str] *)

Definition quote : ascii := "039"%char.
Definition dquote : ascii := "034"%char.
Definition backslash : ascii := "092"%char.

Fixpoint has_char (c : ascii) (s : string) : bool :=
  match s with
  | EmptyString => false
  | String c' s' => Ascii.eqb c c' || has_char c s'
  end.

(** [str.isprintable] on one code point below 256. *)
Definition isprintable (c : ascii) : bool :=
  let n := nat_of_ascii c in
  (((32 <=? n) && (n <=? 126)) || ((161 <=? n) && negb (n =? 173)))%nat.

Definition hexdigit (n : nat) : ascii :=
  if (n <? 10)%nat then ascii_of_nat (48 + n) else ascii_of_nat (87 + n).

Definition repr_char (q c : ascii) : string :=
  if Ascii.eqb c q || Ascii.eqb c backslash
  then String backslash (String c EmptyString)
  else if Ascii.eqb c "009"%char then String backslash "t"
  else if Ascii.eqb c LF then String backslash "n"
  else if Ascii.eqb c CR then String backslash "r"
  else if isprintable c then String c EmptyString
  else
    let n := nat_of_ascii c in
    String backslash
      (String "x" (String (hexdigit (n / 16))
                     (String (hexdigit (n mod 16)) EmptyString))).

Fixpoint repr_body (q : ascii) (s : string) : string :=
  match s with
  | EmptyString => EmptyString
  | String c s' => repr_char q c ++ repr_body q s'
  end.

(** Single quotes, unless the text holds a single quote and no double
    quote. *)
Definition repr (s : string) : string :=
  let q := if has_char quote s && negb (has_char dquote s)
           then dquote else quote in
  String q (repr_body q s ++ String q EmptyString).

End Py.


(** ** [difflib]: [SequenceMatcher] and [unified_diff]

    The hook calls [unified_diff(old_lines, new_lines, n=0)] with the
    empty string as line end, which builds [SequenceMatcher(None, a, b)]:
    no junk function, the automatic junk heuristic switched on. *)

Module Difflib.

Definition seq_item (l : list string) (i : nat) : string := nth i l EmptyString.

(** A dict with insertion order, as an association list. *)
Fixpoint dict_get {V : Type} (d : list (string * V)) (k : string)
  : option V :=
  match d with
  | [] => None
  | (k', v) :: d' => if String.eqb k' k then Some v else dict_get d' k
  end.

(** [b2j.setdefault(elt, []).append(i)] *)
Fixpoint b2j_append (d : list (string * list nat)) (elt : string) (i : nat)
  : list (string * list nat) :=
  match d with
  | [] => [(elt, [i])]
  | (k, idxs) :: d' =>
      if String.eqb k elt then (k, idxs ++ [i]) :: d'
      else (k, idxs) :: b2j_append d' elt i
  end.

(** [__chain_b]: for every element of [b] the positions where it occurs,
    in increasing order; when [b] has at least 200 elements, the elements
    that occur more than [len(b) // 100 + 1] times are deleted from the
    table (they are "popular").  The junk set stays empty, because there is
    no junk function. *)
Definition chain_b (b : list string) : list (string * list nat) :=
  let b2j :=
    fold_left (fun d ie => b2j_append d (snd ie) (fst ie))
              (combine (seq 0 (List.length b)) b) [] in
  let n := List.length b in
  if 200 <=? n then
    let ntest := n / 100 + 1 in
    filter (fun kv => negb (ntest <? List.length (snd kv))) b2j
  else b2j.

Definition isbjunk (elt : string) : bool := false.

(** [j2len.get(j - 1, 0)]: position [-1] is never a key. *)
Definition j2len_get (j2len : list (nat * nat)) (j : nat) : nat :=
  match j with
  | 0 => 0
  | S j' =>
      match find (fun kv => fst kv =? j') j2len with
      | Some kv => snd kv
      | None => 0
      end
  end.

Record Match : Type := mkMatch { m_a : nat; m_b : nat; m_size : nat }.

Section Matcher.

Variables a b : list string.

Let b2j := chain_b b.

(** The [for j in b2j.get(a[i], nothing)] loop of [find_longest_match]. *)
Fixpoint scan_row (blo bhi i : nat) (js : list nat)
  (j2len newj2len : list (nat * nat)) (best : Match)
  : list (nat * nat) * Match :=
  match js with
  | [] => (newj2len, best)
  | j :: js' =>
      if j <? blo then scan_row blo bhi i js' j2len newj2len best
      else if bhi <=? j then (newj2len, best)
      else
        let k := j2len_get j2len j + 1 in
        let newj2len := (j, k) :: newj2len in
        let best :=
          if m_size best <? k then mkMatch (i + 1 - k) (j + 1 - k) k
          else best in
        scan_row blo bhi i js' j2len newj2len best
  end.

(** The [for i in range(alo, ahi)] loop. *)
Fixpoint scan_rows (blo bhi : nat) (rows : list nat)
  (j2len : list (nat * nat)) (best : Match) : Match :=
  match rows with
  | [] => best
  | i :: rows' =>
      let js := match dict_get b2j (seq_item a i) with
                | Some js => js
                | None => []
                end in
      let '(newj2len, best) := scan_row blo bhi i js j2len [] best in
      scan_rows blo bhi rows' newj2len best
  end.

(** [while besti > alo and bestj > blo and (isbjunk(b[bestj-1]) is junk)
    and a[besti-1] == b[bestj-1]]: one step to the upper left. *)
Fixpoint extend_back (junk : bool) (alo blo besti bestj bestsize : nat)
  : Match :=
  match besti, bestj with
  | S i', S j' =>
      if (alo <? besti) && (blo <? bestj)
         && Bool.eqb (isbjunk (seq_item b j')) junk
         && String.eqb (seq_item a i') (seq_item b j')
      then extend_back junk alo blo i' j' (S bestsize)
      else mkMatch besti bestj bestsize
  | _, _ => mkMatch besti bestj bestsize
  end.

(** [while besti+bestsize < ahi and bestj+bestsize < bhi and ...]:
    [fuel] is [ahi - (besti + bestsize)], at 0 the loop test fails. *)
Fixpoint extend_fwd (junk : bool) (fuel ahi bhi besti bestj bestsize : nat)
  : Match :=
  match fuel with
  | 0 => mkMatch besti bestj bestsize
  | S fuel' =>
      if (besti + bestsize <? ahi) && (bestj + bestsize <? bhi)
         && Bool.eqb (isbjunk (seq_item b (bestj + bestsize))) junk
         && String.eqb (seq_item a (besti + bestsize))
                       (seq_item b (bestj + bestsize))
      then extend_fwd junk fuel' ahi bhi besti bestj (S bestsize)
      else mkMatch besti bestj bestsize
  end.

Definition extend (junk : bool) (alo ahi blo bhi : nat) (m : Match)
  : Match :=
  let m := extend_back junk alo blo (m_a m) (m_b m) (m_size m) in
  extend_fwd junk (ahi - (m_a m + m_size m)) ahi bhi
             (m_a m) (m_b m) (m_size m).

Definition find_longest_match (alo ahi blo bhi : nat) : Match :=
  let best :=
    scan_rows blo bhi (seq alo (ahi - alo)) [] (mkMatch alo blo 0) in
  let best := extend false alo ahi blo bhi best in
  extend true alo ahi blo bhi best.

(** The work list of [get_matching_blocks]: the head of [queue] is the
    last element of the Python list, the one [queue.pop()] takes.  [None]
    means that [fuel] iterations did not empty the list. *)
Fixpoint match_queue (fuel : nat) (queue : list (nat * nat * nat * nat))
  (blocks : list Match) : option (list Match) :=
  match fuel with
  | 0 => None
  | S fuel' =>
      match queue with
      | [] => Some blocks
      | (alo, ahi, blo, bhi) :: queue =>
          let x := find_longest_match alo ahi blo bhi in
          let i := m_a x in
          let j := m_b x in
          let k := m_size x in
          if k =? 0 then match_queue fuel' queue blocks
          else
            let blocks := blocks ++ [x] in
            let queue :=
              if (alo <? i) && (blo <? j)
              then (alo, i, blo, j) :: queue else queue in
            let queue :=
              if (i + k <? ahi) && (j + k <? bhi)
              then (i + k, ahi, j + k, bhi) :: queue else queue in
            match_queue fuel' queue blocks
      end
  end.

(** Tuple order of [matching_blocks.sort()]. *)
Definition match_leb (x y : Match) : bool :=
  (m_a x <? m_a y)
  || ((m_a x =? m_a y)
      && ((m_b x <? m_b y)
          || ((m_b x =? m_b y) && (m_size x <=? m_size y)))).

Fixpoint sort_insert (x : Match) (l : list Match) : list Match :=
  match l with
  | [] => [x]
  | y :: l' => if match_leb x y then x :: l else y :: sort_insert x l'
  end.

Definition sort_blocks (l : list Match) : list Match :=
  fold_right sort_insert [] l.

(** Adjacent blocks are merged; [(i1, j1, k1)] is the block being grown. *)
Fixpoint collapse (i1 j1 k1 : nat) (blocks : list Match) : list Match :=
  match blocks with
  | [] => if k1 =? 0 then [] else [mkMatch i1 j1 k1]
  | x :: blocks' =>
      if (i1 + k1 =? m_a x) && (j1 + k1 =? m_b x)
      then collapse i1 j1 (k1 + m_size x) blocks'
      else (if k1 =? 0 then [] else [mkMatch i1 j1 k1])
           ++ collapse (m_a x) (m_b x) (m_size x) blocks'
  end.

Definition queue_fuel : nat := 2 * List.length a + 2.

Definition matching_blocks_loop : option (list Match) :=
  match_queue queue_fuel [(0, List.length a, 0, List.length b)] [].

(** [get_matching_blocks()].  The loop ends within [queue_fuel] iterations
    (lemma [matching_blocks_loop_total]), so the second branch is never
    taken. *)
Definition get_matching_blocks : list Match :=
  match matching_blocks_loop with
  | Some blocks =>
      collapse 0 0 0 (sort_blocks blocks)
      ++ [mkMatch (List.length a) (List.length b) 0]
  | None => []
  end.

Inductive tag : Type := Replace | Delete | Insert | Equal.

Record opcode : Type :=
  mkOp { op_tag : tag; op_i1 : nat; op_i2 : nat; op_j1 : nat; op_j2 : nat }.

(** The loop of [get_opcodes] over the matching blocks, with its running
    positions [i] and [j]. *)
Fixpoint opcodes_from (i j : nat) (blocks : list Match) : list opcode :=
  match blocks with
  | [] => []
  | x :: blocks' =>
      let ai := m_a x in
      let bj := m_b x in
      let size := m_size x in
      let gap :=
        if (i <? ai) && (j <? bj) then [mkOp Replace i ai j bj]
        else if i <? ai then [mkOp Delete i ai j bj]
        else if j <? bj then [mkOp Insert i ai j bj]
        else [] in
      let eq :=
        if size =? 0 then []
        else [mkOp Equal ai (ai + size) bj (bj + size)] in
      gap ++ eq ++ opcodes_from (ai + size) (bj + size) blocks'
  end.

Definition get_opcodes : list opcode :=
  opcodes_from 0 0 get_matching_blocks.

Definition is_equal (o : opcode) : bool :=
  match op_tag o with Equal => true | _ => false end.

(** [codes[0] = tag, max(i1, i2-n), i2, max(j1, j2-n), j2] when the first
    opcode is an equal one. *)
Definition fix_first (n : nat) (codes : list opcode) : list opcode :=
  match codes with
  | o :: rest =>
      if is_equal o
      then mkOp (op_tag o) (Nat.max (op_i1 o) (op_i2 o - n)) (op_i2 o)
                (Nat.max (op_j1 o) (op_j2 o - n)) (op_j2 o) :: rest
      else codes
  | [] => []
  end.

(** [codes[-1] = tag, i1, min(i2, i1+n), j1, min(j2, j1+n)] when the last
    opcode is an equal one. *)
Fixpoint fix_last (n : nat) (codes : list opcode) : list opcode :=
  match codes with
  | [] => []
  | [o] =>
      if is_equal o
      then [mkOp (op_tag o) (op_i1 o) (Nat.min (op_i2 o) (op_i1 o + n))
                 (op_j1 o) (Nat.min (op_j2 o) (op_j1 o + n))]
      else [o]
  | o :: rest => o :: fix_last n rest
  end.

(** The grouping loop: [group] is the group being filled; a long equal
    stretch closes it. *)
Fixpoint group_codes (n : nat) (codes group : list opcode)
  : list (list opcode) :=
  match codes with
  | [] =>
      match group with
      | [] => []
      | [o] => if is_equal o then [] else [group]
      | _ => [group]
      end
  | o :: codes' =>
      if is_equal o && (n + n <? op_i2 o - op_i1 o) then
        (group ++ [mkOp (op_tag o) (op_i1 o)
                        (Nat.min (op_i2 o) (op_i1 o + n))
                        (op_j1 o) (Nat.min (op_j2 o) (op_j1 o + n))])
        :: group_codes n codes'
             [mkOp (op_tag o) (Nat.max (op_i1 o) (op_i2 o - n)) (op_i2 o)
                   (Nat.max (op_j1 o) (op_j2 o - n)) (op_j2 o)]
      else group_codes n codes' (group ++ [o])
  end.

Definition get_grouped_opcodes (n : nat) : list (list opcode) :=
  let codes := get_opcodes in
  let codes := match codes with
               | [] => [mkOp Equal 0 1 0 1]
               | _ => codes
               end in
  group_codes n (fix_last n (fix_first n codes)) [].

(** [a[i1:i2]] *)
Definition slice (l : list string) (i1 i2 : nat) : list string :=
  firstn (i2 - i1) (skipn i1 l).

(** [_format_range_unified(start, stop)] *)
Definition format_range_unified (start stop : nat) : string :=
  let beginning := start + 1 in
  let length := stop - start in
  if length =? 1 then Py.str_of_int (Z.of_nat beginning)
  else
    let beginning := if length =? 0 then beginning - 1 else beginning in
    (Py.str_of_int (Z.of_nat beginning) ++ ","
     ++ Py.str_of_int (Z.of_nat length))%string.

Definition hunk_header (group : list opcode) : string :=
  let first := hd (mkOp Equal 0 0 0 0) group in
  let last := List.last group (mkOp Equal 0 0 0 0) in
  ("@@ -" ++ format_range_unified (op_i1 first) (op_i2 last)
   ++ " +" ++ format_range_unified (op_j1 first) (op_j2 last)
   ++ " @@")%string.

Definition opcode_lines (o : opcode) : list string :=
  match op_tag o with
  | Equal => map (String " ") (slice a (op_i1 o) (op_i2 o))
  | Replace =>
      map (String "-") (slice a (op_i1 o) (op_i2 o))
      ++ map (String "+") (slice b (op_j1 o) (op_j2 o))
  | Delete => map (String "-") (slice a (op_i1 o) (op_i2 o))
  | Insert => map (String "+") (slice b (op_j1 o) (op_j2 o))
  end.

Definition group_lines (group : list opcode) : list string :=
  hunk_header group :: flat_map opcode_lines group.

(** [unified_diff(a, b, n=n)] with the empty string as line end: the file
    names and dates are empty, so the two lines of the file header are
    ["--- "] and ["+++ "]; they come before the first hunk and are left out
    when there is none. *)
Definition unified_diff (n : nat) : list string :=
  match get_grouped_opcodes n with
  | [] => []
  | groups => "--- " :: "+++ " :: flat_map group_lines groups
  end.

End Matcher.

End Difflib.

(** ** [re.search] on a fragment of the pattern syntax

    The scanner is parametric in the regular-expression engine.  For
    concrete runs this module gives [re.search(pattern, s) is not None] on
    the patterns made of literal characters, escaped characters that are
    no ASCII letter or digit, [.], [^] and [$] (no flags).  On any other
    pattern [search] answers [None]: not covered by the fragment. *)

Module Re.

Inductive item : Type :=
| Lit (c : ascii)
| AnyChar
| Bol
| Eol.

Definition is_alnum (c : ascii) : bool :=
  let n := nat_of_ascii c in
  ((48 <=? n) && (n <=? 57)) || ((65 <=? n) && (n <=? 90))
  || ((97 <=? n) && (n <=? 122)).

(** Characters with a meaning that the fragment leaves out. *)
Definition is_operator (c : ascii) : bool :=
  Py.has_char c "*+?{}[]()|".

Fixpoint parse (p : string) : option (list item) :=
  match p with
  | EmptyString => Some []
  | String c p' =>
      if Ascii.eqb c Py.backslash then
        match p' with
        | String c' p'' =>
            if is_alnum c' then None
            else option_map (cons (Lit c')) (parse p'')
        | EmptyString => None
        end
      else if is_operator c then None
      else
        let it := if Ascii.eqb c "." then AnyChar
                  else if Ascii.eqb c "^" then Bol
                  else if Ascii.eqb c "$" then Eol
                  else Lit c in
        option_map (cons it) (parse p')
  end.

(** [match_here at_start items s]: the items match a prefix of [s], where
    [at_start] tells whether [s] is the whole subject.  [^] holds at the
    start of the subject, [$] at its end and before a last line feed, [.]
    takes any character but a line feed. *)
Fixpoint match_here (at_start : bool) (items : list item) (s : string)
  : bool :=
  match items with
  | [] => true
  | Lit c :: items' =>
      match s with
      | String c' s' => Ascii.eqb c c' && match_here false items' s'
      | EmptyString => false
      end
  | AnyChar :: items' =>
      match s with
      | String c' s' => negb (Ascii.eqb c' Py.LF) && match_here false items' s'
      | EmptyString => false
      end
  | Bol :: items' => at_start && match_here at_start items' s
  | Eol :: items' =>
      (String.eqb s EmptyString || String.eqb s (String Py.LF EmptyString))
      && match_here at_start items' s
  end.

Fixpoint search_from (at_start : bool) (items : list item) (s : string)
  : bool :=
  match_here at_start items s
  || match s with
     | EmptyString => false
     | String _ s' => search_from false items s'
     end.

Definition search (pattern s : string) : option bool :=
  option_map (fun items => search_from true items s) (parse pattern).

(** The fragment as an engine of its own: a pattern outside it is
    refused. *)
Definition engine (pattern s : string) : result bool :=
  match search pattern s with
  | Some found => Ok found
  | None => Raise ReError
  end.

(** An engine agrees with the fragment where the fragment answers. *)
Definition models (re_search : string -> string -> result bool) : Prop :=
  forall pattern s found,
    search pattern s = Some found -> re_search pattern s = Ok found.

End Re.

(** ** [check_for_markers.py] *)

Module Markers.

(** [parse_line_number(line)] *)
Definition parse_line_number (line : string) : result Z :=
  if negb (Py.startswith line "@@") then Raise ValueError
  else
    let parts := Py.split " " line in
    if negb (List.length parts =? 4) then Raise ValueError
    else Py.int (hd EmptyString (Py.split "," (nth 2 parts EmptyString))).

(** The f-string of [collect_errors]. *)
Definition error_message (pattern filename : string) (line_number : Z)
  : string :=
  ("Error pattern " ++ Py.repr pattern ++ " detected at " ++ filename
   ++ ":" ++ Py.str_of_int line_number)%string.

Section Scanner.

(** [re_search pattern line] is [re.search(pattern, line)] seen as a truth
    value; it raises on a pattern that does not compile. *)
Variable re_search : string -> string -> result bool.

Variable filename : string.

(** [for pattern in error_patterns: if re.search(pattern, line): ...]
    over a list. *)
Fixpoint match_patterns (patterns : list string) (line : string)
  (line_number : Z) (errors : list string) : result (list string) :=
  match patterns with
  | [] => Ok errors
  | pattern :: patterns' =>
      found <- re_search pattern line ;;
      match_patterns patterns' line line_number
        (if found
         then errors ++ [error_message pattern filename line_number]
         else errors)
  end.

(** [error_patterns] is [None] when the caller hands over Python's [None]:
    the [for] statement then raises [TypeError]. *)
Definition for_patterns (error_patterns : option (list string))
  (line : string) (line_number : Z) (errors : list string)
  : result (list string) :=
  match error_patterns with
  | None => Raise TypeError
  | Some patterns => match_patterns patterns line line_number errors
  end.

(** One turn of the loop over the diff, on the state
    [(errors, line_number)]. *)
Definition scan_line (error_patterns : option (list string))
  (st : list string * Z) (line : string) : result (list string * Z) :=
  let '(errors, line_number) := st in
  line_number <-
    (if Py.startswith line "@@" then parse_line_number line
     else Ok line_number) ;;
  if negb (Py.startswith line "+") || String.eqb (Py.strip line) "+++"
  then Ok (errors, line_number)
  else
    errors <- for_patterns error_patterns line line_number errors ;;
    Ok (errors,
        if Py.startswith line "+" then (line_number + 1)%Z
        else line_number).

Fixpoint scan (error_patterns : option (list string))
  (diff_result : list string) (st : list string * Z)
  : result (list string * Z) :=
  match diff_result with
  | [] => Ok st
  | line :: rest =>
      st <- scan_line error_patterns st line ;;
      scan error_patterns rest st
  end.

(** [collect_errors(filename, new_data, old_data, error_patterns)] *)
Definition collect_errors (new_data old_data : string)
  (error_patterns : option (list string)) : result (list string) :=
  let diff_result :=
    Difflib.unified_diff (Py.splitlines old_data)
                         (Py.splitlines new_data) 0 in
  st <- scan error_patterns diff_result ([], 1%Z) ;;
  Ok (fst st).

End Scanner.

(** *** The driver

    A blob of the repository: its object id and its content decoded as
    UTF-8, [None] when the bytes are no valid UTF-8. *)
Record Blob : Type := mkBlob { binsha : string; utf8 : option string }.

(** An entry of [repo.index.diff(against, ...)]. *)
Record Diff : Type :=
  mkDiff { a_blob : option Blob; b_blob : option Blob;
           b_path : option string }.

(** [read_blob(blob)] *)
Definition read_blob (blob : option Blob) : string :=
  match blob with
  | None => EmptyString
  | Some bl =>
      match utf8 bl with
      | Some text => text
      | None => EmptyString
      end
  end.

(** [x == y] on blobs that may be [None]: objects are equal when their
    ids are. *)
Definition blob_eq (x y : option Blob) : bool :=
  match x, y with
  | None, None => true
  | Some bx, Some by_ => String.eqb (binsha bx) (binsha by_)
  | _, _ => false
  end.

Definition is_none {A : Type} (x : option A) : bool :=
  match x with None => true | Some _ => false end.

Section Driver.

Variable re_search : string -> string -> result bool.

(** The body of the loop of [main] for one entry: the errors to add. *)
Definition check_diff (pattern : option (list string)) (diff : Diff)
  : result (list string) :=
  if blob_eq (a_blob diff) (b_blob diff) || is_none (b_blob diff)
  then Ok []
  else
    let new_data := read_blob (a_blob diff) in
    let old_data := read_blob (b_blob diff) in
    collect_errors re_search
      (match b_path diff with Some path => path | None => EmptyString end)
      new_data old_data pattern.

Fixpoint check_diffs (pattern : option (list string))
  (diff_result : list Diff) (errors : list string)
  : result (list string) :=
  match diff_result with
  | [] => Ok errors
  | diff :: rest =>
      found <- check_diff pattern diff ;;
      check_diffs pattern rest (errors ++ found)
  end.

(** [main()], given [args.pattern] and the entries of
    [repo.index.diff(against, paths=args.files or None)]: the exit status
    and the lines printed. *)
Definition main (pattern : option (list string)) (diff_result : list Diff)
  : result (Z * list string) :=
  errors <- check_diffs pattern diff_result [] ;;
  match errors with
  | [] => Ok (0%Z, [])
  | _ => Ok (1%Z, errors)
  end.

End Driver.

End Markers.

(** ** [check_for_xxx.py] *)

Module Xxx.

(** [lines] and [matching] of [main], from the output of
    [git diff --cached against]. *)
Definition matching (diff_output : string) : list string :=
  filter (fun line => Py.contains "# xxx" (Py.lower line))
         (Py.bytes_splitlines diff_output).

(** [main()]: the exit status and, when lines match, the bytes handed to
    [print] after the warning on the error stream:
    [b"\n".join(matching)]. *)
Definition main (diff_output : string) : Z * option string :=
  match matching diff_output with
  | [] => (0%Z, None)
  | l => (1%Z, Some (Py.join (String Py.LF EmptyString) l))
  end.

End Xxx.

(** * Vocabulary of the properties

    Predicates and measures that the statements below are written in;
    none of them is part of the hooks. *)

Unset Implicit Arguments.

Module Aux.
Import Difflib Markers.

(** *** Strings and headers *)

(** [P] holds of every character of [s]. *)
Fixpoint all_chars (P : ascii -> bool) (s : string) : bool :=
  match s with
  | EmptyString => true
  | String c s' => P c && all_chars P s'
  end.

(** [c] is one of the digits [0] to [9]. *)
Definition is_digit (c : ascii) : bool :=
  match Py.digit c with Some _ => true | None => false end.

(** [sep] does not occur in [s]. *)
Definition lacks (sep : ascii) (s : string) : bool :=
  all_chars (fun c => negb (Ascii.eqb c sep)) s.

(** The header that [unified_diff] prints for the ranges [a,b] and
    [c,d]. *)
Definition header_of (a b c d : string) : string :=
  ("@@ -" ++ a ++ "," ++ b ++ " +" ++ c ++ "," ++ d ++ " @@")%string.

(** The decimal numeral of a natural number. *)
Definition dec (n : nat) : string := Py.str_of_int (Z.of_nat n).

(** What [int] answers on the numeral of [z]: the number, unless the
    numeral has more than [Py.max_str_digits] digits. *)
Definition read_back (z : Z) : result Z :=
  if (Py.max_str_digits <? String.length (Py.str_of_int z))%nat
  then Raise ValueError
  else Ok z.

(** The decimal numeral of [n] has at most [Py.max_str_digits] digits,
    so [int] reads it: [n] is below [10 ^ 4300]. *)
Definition within_int_limit (n : nat) : Prop :=
  String.length (Py.str_of_int (Z.of_nat n)) <= Py.max_str_digits.

(** The first line that a range names: [start + 1], or [start] for an
    empty range. *)
Definition range_start (start stop : nat) : nat :=
  if stop - start =? 0 then start else start + 1.

(** The first new line that the header of [group] names. *)
Definition group_start (group : list opcode) : nat :=
  range_start (op_j1 (hd (mkOp Equal 0 0 0 0) group))
              (op_j2 (List.last group (mkOp Equal 0 0 0 0))).

(** *** The longest match and the work list *)

(** No value of [j2len] is above [n]. *)
Definition j2len_le (d : list (nat * nat)) (n : nat) : Prop :=
  forall j, j2len_get d j <= n.

(** [best] lies in the rows [alo .. i - 1]. *)
Definition best_within (alo i : nat) (best : Match) : Prop :=
  alo <= m_a best /\ m_a best + m_size best <= i.

(** The window is not inverted in [a]. *)
Definition window_ok (w : nat * nat * nat * nat) : Prop :=
  let '(alo, ahi, _, _) := w in alo <= ahi.

(** The measure that each turn of the work list loop lowers. *)
Fixpoint queue_weight (queue : list (nat * nat * nat * nat)) : nat :=
  match queue with
  | [] => 0
  | (alo, ahi, _, _) :: queue' => 2 * (ahi - alo) + 1 + queue_weight queue'
  end.

(** *** The matching blocks *)

(** The values of [j2len] respect the lower end of the window in [b]. *)
Definition j2len_b_le (d : list (nat * nat)) (blo : nat) : Prop :=
  forall j, j2len_get d j <= j - blo.

(** [best] lies in the columns [blo .. bhi - 1]. *)
Definition best_b_within (blo bhi : nat) (best : Match) : Prop :=
  blo <= m_b best /\ m_b best + m_size best <= bhi.

(** [x] ends before [y] starts, in [a] and in [b]. *)
Definition bprec (x y : Match) : Prop :=
  m_a x + m_size x <= m_a y /\ m_b x + m_size x <= m_b y.

(** One of the two blocks comes before the other. *)
Definition comparable (x y : Match) : Prop := bprec x y \/ bprec y x.

(** [x] is a block of positive length inside the window [w]. *)
Definition block_in (w : nat * nat * nat * nat) (x : Match) : Prop :=
  let '(alo, ahi, blo, bhi) := w in
  0 < m_size x
  /\ alo <= m_a x /\ m_a x + m_size x <= ahi
  /\ blo <= m_b x /\ m_b x + m_size x <= bhi.

(** Blocks of one window, two by two apart. *)
Definition blocks_in (w : nat * nat * nat * nat) (B : list Match) : Prop :=
  Forall (block_in w) B /\ ForallOrdPairs comparable B.

(** The window is inverted neither in [a] nor in [b]. *)
Definition window_ok2 (w : nat * nat * nat * nat) : Prop :=
  let '(alo, ahi, blo, bhi) := w in alo <= ahi /\ blo <= bhi.

(** The blocks found for the windows of a work list, window by window. *)
Inductive gen : list (nat * nat * nat * nat) -> list Match -> Prop :=
| gen_nil : gen [] []
| gen_cons w queue Bw Bq :
    blocks_in w Bw -> gen queue Bq -> gen (w :: queue) (Bw ++ Bq).

(** The sorted list: every block ends before all later ones start. *)
Inductive ordered : list Match -> Prop :=
| ordered_nil : ordered []
| ordered_cons x l :
    Forall (bprec x) l -> ordered l -> ordered (x :: l).

(** From [j] on, the blocks follow one another in [b] and end by
    [lb]. *)
Fixpoint jchain_to (lb j : nat) (blocks : list Match) : Prop :=
  match blocks with
  | [] => j <= lb
  | x :: rest => j <= m_b x /\ jchain_to lb (m_b x + m_size x) rest
  end.

(** *** Opcodes and groups *)

(** The opcodes lead from line [j] of [b] to line [j'], each one starting
    where the one before ended; only replacements and insertions take
    lines of [b], and these lie inside [b]. *)
Inductive ops_ok (lb : nat) : nat -> list opcode -> nat -> Prop :=
| ops_nil j : ops_ok lb j [] j
| ops_cons o ops j' :
    op_j1 o <= op_j2 o ->
    (op_tag o = Delete -> op_j2 o = op_j1 o) ->
    (op_tag o = Equal ->
     op_i1 o <= op_i2 o /\ op_j2 o - op_j1 o = op_i2 o - op_i1 o) ->
    (op_tag o <> Equal -> op_j2 o <= lb) ->
    ops_ok lb (op_j2 o) ops j' ->
    ops_ok lb (op_j1 o) (o :: ops) j'.

(** The same for the opcodes of one group, where the equal stretches are
    empty. *)
Inductive span (lb : nat) : nat -> list opcode -> nat -> Prop :=
| span_nil j : span lb j [] j
| span_cons o g j' :
    op_j1 o <= op_j2 o ->
    (op_tag o = Delete \/ op_tag o = Equal -> op_j2 o = op_j1 o) ->
    (op_j2 o <= lb \/ op_j2 o = op_j1 o) ->
    span lb (op_j2 o) g j' ->
    span lb (op_j1 o) (o :: g) j'.

(** The opcode names positions of [b] only. *)
Definition in_b (lb : nat) (o : opcode) : Prop :=
  op_j1 o <= lb /\ op_j2 o <= lb.

(** *** The table [b2j] and the run lengths *)

(** The positions of [x] in [l], counted from [off], in increasing
    order. *)
Fixpoint positions_from (off : nat) (x : string) (l : list string)
  : list nat :=
  match l with
  | [] => []
  | y :: l' =>
      (if String.eqb y x then [off] else [])
      ++ positions_from (S off) x l'
  end.

(** The positions of [x] in [l], counted from 0. *)
Definition positions (x : string) (l : list string) : list nat :=
  positions_from 0 x l.

(** The positions come in increasing order. *)
Inductive increasing : list nat -> Prop :=
| inc_nil : increasing []
| inc_cons j js :
    (forall j', In j' js -> j < j') -> increasing js -> increasing (j :: js).

(** The table after the elements of [pre] were entered. *)
Definition table_of (d : list (string * list nat)) (pre : list string)
  : Prop :=
  NoDup (map fst d)
  /\ (forall k v, In (k, v) d -> v = positions k pre)
  /\ (forall k, ~ In k (map fst d) -> positions k pre = []).

(** The table of run lengths of [find_longest_match] for a sequence [l]
    matched with itself. *)
Definition is_key (l : list string) (x : string) : bool :=
  match dict_get (chain_b l) x with Some _ => true | None => false end.

(** Row [i] of the table has an entry in column [j]. *)
Definition cell (l : list string) (i j : nat) : bool :=
  (i <? List.length l) && (j <? List.length l)
  && String.eqb (seq_item l i) (seq_item l j)
  && is_key l (seq_item l i).

(** The value [newj2len[j]] written in row [i]: the length of the run of
    entries that ends in [(i, j)]. *)
Fixpoint run (l : list string) (i j : nat) : nat :=
  if cell l i j
  then S (match i, j with S i', S j' => run l i' j' | _, _ => 0 end)
  else 0.

(** The value [j2len.get(j - 1, 0)] read in row [i]. *)
Definition prev (l : list string) (i j : nat) : nat :=
  match i, j with S i', S j' => run l i' j' | _, _ => 0 end.

(** [b2j.get(a[i], nothing)] in row [i]. *)
Definition row_js (l : list string) (i : nat) : list nat :=
  match dict_get (chain_b l) (seq_item l i) with
  | Some js => js
  | None => []
  end.

(** *** Diff lines and errors *)

(** What a printed line can be: one of the two lines of the file header,
    a hunk header that names a line of [b], or a line of [a] or [b] behind
    its mark. *)
Inductive diff_line (a b : list string) : string -> Prop :=
| dl_from : diff_line a b "--- "
| dl_to : diff_line a b "+++ "
| dl_hunk group :
    group_start group <= List.length b ->
    diff_line a b (hunk_header group)
| dl_equal x : In x a -> diff_line a b (String " " x)
| dl_removed x : In x a -> diff_line a b (String "-" x)
| dl_added x : In x b -> diff_line a b (String "+" x).

(** The patterns that the engine finds in [line]. *)
Definition found_in (re_search : string -> string -> result bool)
  (line : string) (pattern : string) : bool :=
  match re_search pattern line with
  | Ok true => true
  | _ => false
  end.

(** The errors that one tested line adds, in the order of the
    patterns. *)
Definition line_errors (re_search : string -> string -> result bool)
  (filename : string) (patterns : list string) (line : string)
  (line_number : Z) : list string :=
  map (fun pattern => error_message pattern filename line_number)
      (filter (found_in re_search line) patterns).

(** The guard of the loop lets [line] through to the patterns. *)
Definition tested (line : string) : bool :=
  Py.startswith line "+" && negb (String.eqb (Py.strip line) "+++").

(** Where an error comes from: a tested line of the diff and a pattern
    that the engine finds in it. *)
Definition error_from (re_search : string -> string -> result bool)
  (filename : string) (patterns lines : list string) (e : string) : Prop :=
  exists pattern line line_number,
    In pattern patterns /\ In line lines /\ tested line = true
    /\ re_search pattern line = Ok true
    /\ e = error_message pattern filename line_number.

(** The error [e] names a pattern found in line [t + 1] of the new lines
    [b], behind its plus sign. *)
Definition located (re_search : string -> string -> result bool)
  (filename : string) (patterns b : list string) (e : string) : Prop :=
  exists pattern t x,
    In pattern patterns /\ nth_error b t = Some x
    /\ re_search pattern (String "+" x) = Ok true
    /\ e = error_message pattern filename (Z.of_nat (S t)).

(** *** Engines and example texts *)

(** The pattern belongs to the fragment of [Re]. *)
Definition in_fragment (pattern : string) : Prop :=
  Re.parse pattern <> None.

(** The numeral written with [n] nines, that of [10 ^ n - 1]. *)
Fixpoint nines (n : nat) : string :=
  match n with
  | 0 => EmptyString
  | S n' => String "9" (nines n')
  end.

(** One line feed. *)
Definition nl : string := String Py.LF EmptyString.

(** The text whose lines are [ls], each ended by a line feed. *)
Fixpoint text (ls : list string) : string :=
  match ls with
  | [] => EmptyString
  | l :: ls' => (l ++ nl ++ text ls')%string
  end.

(** The message the interface section promises: the pattern text as it
    was given. *)
Definition plain_message (pattern filename : string) (line_number : Z)
  : string :=
  ("Error pattern " ++ pattern ++ " detected at " ++ filename ++ ":"
   ++ Py.str_of_int line_number)%string.

(** *** The errors of numbered lines *)

(** The errors for the lines [xs] of the new file, where the first of
    them is line [t + 1]: line by line, and for each line pattern by
    pattern. *)
Fixpoint numbered (re_search : string -> string -> result bool)
  (filename : string) (patterns : list string) (t : nat)
  (xs : list string) : list string :=
  match xs with
  | [] => []
  | x :: xs' =>
      line_errors re_search filename patterns (String "+" x)
                  (Z.of_nat (S t))
      ++ numbered re_search filename patterns (S t) xs'
  end.

(** The engine answers on every pattern of the list. *)
Definition accepts (re_search : string -> string -> result bool)
  (patterns : list string) : Prop :=
  forall pattern s,
    In pattern patterns -> exists found, re_search pattern s = Ok found.

(** The staged text of the entry has a number of lines that [int]
    converts. *)
Definition entry_within_limit (diff : Diff) : Prop :=
  within_int_limit (List.length (Py.splitlines (read_blob (a_blob diff)))).

(** An entry of the index diff that [main] passes over or that has no
    staged text: both blobs are the same object, or the staged blob is
    missing, empty or not valid UTF-8. *)
Definition without_new_text (diff : Diff) : Prop :=
  blob_eq (a_blob diff) (b_blob diff) = true
  \/ read_blob (a_blob diff) = EmptyString.

(** *** What the opcodes add *)

(** The opcodes that change something: all but the equal ones. *)
Definition changes (codes : list opcode) : list opcode :=
  filter (fun o => negb (is_equal o)) codes.

(** The errors for the lines of [b] that the opcode [o] brings in: the
    lines [b[j1:j2]] of a replacement or an insertion, numbered from
    [j1 + 1]. *)
Definition added_errors (re_search : string -> string -> result bool)
  (filename : string) (patterns : list string) (b : list string)
  (o : opcode) : list string :=
  match op_tag o with
  | Replace | Insert =>
      numbered re_search filename patterns (op_j1 o)
               (slice b (op_j1 o) (op_j2 o))
  | Delete | Equal => []
  end.

(** The block pairs equal elements of [a] and [b]. *)
Definition agrees (a b : list string) (x : Match) : Prop :=
  forall d, d < m_size x ->
            seq_item a (m_a x + d) = seq_item b (m_b x + d).

(** The runs that [j2len] records for the row before row [i]: a run of
    length [k] read in column [j] pairs the [k] elements before [a[i]]
    with the [k] elements before [b[j]]. *)
Definition j2len_agrees (a b : list string) (d : list (nat * nat))
  (i : nat) : Prop :=
  forall j,
    j2len_get d j <= i /\ j2len_get d j <= j
    /\ forall e, e < j2len_get d j ->
                 seq_item a (i - S e) = seq_item b (j - S e).

(** The equal opcode [o] pairs elements of [a] with equal elements of
    [b]. *)
Definition equal_ok (a b : list string) (o : opcode) : Prop :=
  op_tag o = Equal ->
  forall t, op_j1 o <= t < op_j2 o -> In (seq_item b t) a.

(** The positions of [b] that the opcode [o] brings in. *)
Definition added_positions (o : opcode) : list nat :=
  match op_tag o with
  | Replace | Insert => seq (op_j1 o) (op_j2 o - op_j1 o)
  | Delete | Equal => []
  end.

(** The errors of line [t + 1] of the new lines [b], pattern by
    pattern. *)
Definition errors_at (re_search : string -> string -> result bool)
  (filename : string) (patterns : list string) (b : list string)
  (t : nat) : list string :=
  line_errors re_search filename patterns (String "+" (seq_item b t))
              (Z.of_nat (S t)).

End Aux.

(** * Properties *)

Import Aux.

(** ** Strings of decimal digits *)

Lemma all_chars_impl (P Q : ascii -> bool) (s : string) :
  (forall c, P c = true -> Q c = true) ->
  all_chars P s = true -> all_chars Q s = true.
Proof.
  intros HPQ. induction s as [|c s IH]; simpl; auto.
  intros H. apply andb_true_iff in H as [Hc Hs].
  rewrite (HPQ _ Hc), (IH Hs). reflexivity.
Qed.

Lemma all_chars_app (P : ascii -> bool) (s t : string) :
  all_chars P (s ++ t) = all_chars P s && all_chars P t.
Proof.
  induction s as [|c s IH]; simpl; auto.
  rewrite IH, andb_assoc. reflexivity.
Qed.

Lemma string_of_uint_digits (u : uint) :
  all_chars is_digit (NilEmpty.string_of_uint u) = true.
Proof. induction u; simpl; auto. Qed.

Lemma digit_not (c d : ascii) :
  is_digit d = false -> is_digit c = true -> negb (Ascii.eqb c d) = true.
Proof.
  intros Hd Hc. destruct (Ascii.eqb_spec c d) as [->|]; auto.
  rewrite Hc in Hd. discriminate.
Qed.

Lemma digits_cons (c c' : ascii) (d : uint -> uint) (s : string) :
  Py.digit c = Some d -> is_digit c' = true ->
  Py.digits (String c (String c' s))
  = option_map d (Py.digits (String c' s)).
Proof.
  intros Hc Hc'. cbn [Py.digits]. rewrite Hc.
  destruct c' as [[] [] [] [] [] [] [] []];
    try discriminate Hc'; reflexivity.
Qed.

Lemma string_of_uint_cons (u : uint) :
  u <> Nil ->
  exists c s, NilEmpty.string_of_uint u = String c s /\ is_digit c = true.
Proof.
  destruct u; intros H; try congruence; simpl; eauto.
Qed.

Lemma digits_string_of_uint (u : uint) :
  u <> Nil -> Py.digits (NilEmpty.string_of_uint u) = Some u.
Proof.
  induction u as [|u IH|u IH|u IH|u IH|u IH|u IH|u IH|u IH|u IH|u IH];
    intros Hnil; try congruence;
    cbn [NilEmpty.string_of_uint];
    (destruct (uint_eq_dec u Nil) as [->|Hu];
     [ reflexivity
     | destruct (string_of_uint_cons u Hu) as (c & s & E & Hc);
       rewrite E in *;
       erewrite digits_cons by (reflexivity || exact Hc);
       rewrite IH by exact Hu; reflexivity ]).
Qed.

Lemma digits_str_of_int (z : Z) :
  (0 <= z)%Z ->
  Py.digits (Py.str_of_int z) = Some (N.to_uint (Z.to_N z)).
Proof.
  intros Hz. destruct z as [|p|p]; try lia.
  - reflexivity.
  - apply digits_string_of_uint, DecimalPos.Unsigned.to_uint_nonnil.
Qed.

Lemma str_of_int_digits (z : Z) :
  (0 <= z)%Z -> all_chars is_digit (Py.str_of_int z) = true.
Proof.
  intros Hz. destruct z as [|p|p]; try lia.
  - reflexivity.
  - apply string_of_uint_digits.
Qed.

Lemma of_uint_to_uint (z : Z) :
  (0 <= z)%Z -> Z.of_uint (N.to_uint (Z.to_N z)) = z.
Proof.
  intros Hz. unfold Z.of_uint.
  change (Pos.of_uint (N.to_uint (Z.to_N z)))
    with (N.of_uint (N.to_uint (Z.to_N z))).
  rewrite DecimalN.Unsigned.of_to. apply Z2N.id, Hz.
Qed.

Lemma lstrip_by_none (f : ascii -> bool) (s : string) :
  all_chars (fun c => negb (f c)) s = true -> Py.lstrip_by f s = s.
Proof.
  destruct s as [|c s]; simpl; auto.
  intros H. apply andb_true_iff in H as [Hc _].
  apply negb_true_iff in Hc. rewrite Hc. reflexivity.
Qed.

Lemma rstrip_by_none (f : ascii -> bool) (s : string) :
  all_chars (fun c => negb (f c)) s = true -> Py.rstrip_by f s = s.
Proof.
  induction s as [|c s IH]; simpl; auto.
  intros H. apply andb_true_iff in H as [Hc Hs].
  apply negb_true_iff in Hc. rewrite (IH Hs), Hc.
  destruct s; reflexivity.
Qed.

Lemma string_of_uint_length (u : uint) :
  String.length (NilEmpty.string_of_uint u) = nb_digits u.
Proof. induction u; cbn; congruence. Qed.

Lemma str_of_int_length (z : Z) :
  (0 <= z)%Z ->
  String.length (Py.str_of_int z) = nb_digits (N.to_uint (Z.to_N z)).
Proof.
  intros Hz. destruct z as [|p|p]; try lia.
  - reflexivity.
  - apply string_of_uint_length.
Qed.

(** [int] reads back what [str] prints, also after a plus sign, when the
    digits are not too many. *)
Lemma int_plus_str_of_int (z : Z) :
  (0 <= z)%Z -> Py.int (String "+" (Py.str_of_int z)) = read_back z.
Proof.
  intros Hz. unfold Py.int.
  assert (Hns : all_chars (fun c => negb (Py.int_space c))
                  (String "+" (Py.str_of_int z)) = true).
  { simpl. apply all_chars_impl with (P := is_digit).
    - intros c Hc. apply negb_true_iff.
      destruct c as [[] [] [] [] [] [] [] []];
        try discriminate Hc; reflexivity.
    - apply str_of_int_digits, Hz. }
  rewrite lstrip_by_none by exact Hns.
  rewrite rstrip_by_none by exact Hns.
  cbn iota. rewrite digits_str_of_int by exact Hz.
  rewrite of_uint_to_uint by exact Hz.
  unfold read_back. rewrite str_of_int_length by exact Hz. reflexivity.
Qed.

Lemma read_back_ok (z n : Z) : read_back z = Ok n -> n = z.
Proof.
  unfold read_back.
  destruct (Py.max_str_digits <? String.length (Py.str_of_int z));
    [discriminate|].
  intros [= <-]. reflexivity.
Qed.

Lemma read_back_short (z : Z) :
  String.length (Py.str_of_int z) <= Py.max_str_digits ->
  read_back z = Ok z.
Proof.
  intros H. unfold read_back.
  replace (Py.max_str_digits <? String.length (Py.str_of_int z))
    with false; [reflexivity|].
  symmetry. apply Nat.ltb_ge. exact H.
Qed.

Lemma read_back_long (z : Z) :
  Py.max_str_digits < String.length (Py.str_of_int z) ->
  read_back z = Raise ValueError.
Proof.
  intros H. unfold read_back.
  replace (Py.max_str_digits <? String.length (Py.str_of_int z))
    with true; [reflexivity|].
  symmetry. apply Nat.ltb_lt. exact H.
Qed.

Lemma digit_nb_digits (c : ascii) (d : uint -> uint) :
  Py.digit c = Some d -> forall u, nb_digits (d u) = S (nb_digits u).
Proof.
  destruct c as [[] [] [] [] [] [] [] []]; cbn; intros H;
    try discriminate H; injection H as <-; reflexivity.
Qed.

(** A string of digits is read digit by digit. *)
Lemma digits_of_digit_string (c : string) :
  c <> EmptyString -> all_chars is_digit c = true ->
  exists u, Py.digits c = Some u /\ nb_digits u = String.length c.
Proof.
  induction c as [|x c IH]; intros Hne H; [contradiction|].
  cbn [all_chars] in H. apply andb_true_iff in H as [Hx Hc].
  assert (Hd : exists d, Py.digit x = Some d).
  { unfold is_digit in Hx. destruct (Py.digit x) as [d|]; [eauto|].
    discriminate Hx. }
  destruct Hd as [d Hd]. destruct c as [|y c].
  - exists (d Nil). cbn [Py.digits]. rewrite Hd.
    split; [reflexivity|]. rewrite (digit_nb_digits x d Hd). reflexivity.
  - assert (Hy : is_digit y = true).
    { cbn [all_chars] in Hc. apply andb_true_iff in Hc. apply Hc. }
    rewrite (digits_cons x y d c Hd Hy).
    destruct (IH ltac:(discriminate) Hc) as (u & -> & Hu).
    exists (d u). split; [reflexivity|].
    rewrite (digit_nb_digits x d Hd), Hu. reflexivity.
Qed.

Lemma int_plus_no_space (c : string) :
  all_chars is_digit c = true ->
  all_chars (fun x => negb (Py.int_space x)) (String "+" c) = true.
Proof.
  intros H. cbn [all_chars]. apply andb_true_iff. split; [reflexivity|].
  apply all_chars_impl with (P := is_digit); [|exact H].
  intros x Hx. apply negb_true_iff.
  destruct x as [[] [] [] [] [] [] [] []];
    try discriminate Hx; reflexivity.
Qed.

(** [int] refuses a literal of more than [Py.max_str_digits] digits, of
    whatever value. *)
Lemma int_plus_long (c : string) :
  all_chars is_digit c = true ->
  Py.max_str_digits < String.length c ->
  Py.int (String "+" c) = Raise ValueError.
Proof.
  intros Hc Hlen. unfold Py.int.
  rewrite lstrip_by_none by (apply int_plus_no_space, Hc).
  rewrite rstrip_by_none by (apply int_plus_no_space, Hc).
  cbn iota.
  assert (Hne : c <> EmptyString).
  { intros ->. cbn in Hlen. lia. }
  destruct (digits_of_digit_string c Hne Hc) as (u & -> & Hu).
  rewrite Hu. apply Nat.ltb_lt in Hlen. rewrite Hlen. reflexivity.
Qed.

(** *** The size of a numeral

    A number below [10 ^ k] is the value of [k] digits, so its numeral
    has at most [k] digits. *)

Lemma of_lu_digits (k : nat) :
  forall n : N,
    (n < 10 ^ N.of_nat k)%N ->
    exists l, nb_digits l <= k /\ DecimalPos.Unsigned.of_lu l = n.
Proof.
  induction k as [|k IH]; intros n Hn.
  - exists Nil. split; [apply Nat.le_refl|]. cbn in *. lia.
  - replace (N.of_nat (S k)) with (N.succ (N.of_nat k)) in Hn by lia.
    rewrite N.pow_succ_r' in Hn.
    pose proof (N.div_mod n 10) as Hdm.
    pose proof (N.mod_lt n 10) as Hr.
    assert (Hq : (n / 10 < 10 ^ N.of_nat k)%N)
      by (apply N.Div0.div_lt_upper_bound; exact Hn).
    destruct (IH _ Hq) as (l & Hl & El).
    assert (Hcase : exists d : uint -> uint,
               (forall u, nb_digits (d u) = S (nb_digits u))
               /\ (forall u, DecimalPos.Unsigned.of_lu (d u)
                             = (n mod 10 + 10 * DecimalPos.Unsigned.of_lu u)%N)).
    { assert (H10 : (n mod 10 < 10)%N) by (apply Hr; discriminate).
      destruct (n mod 10)%N as [|[[[[]|[]|]|[[]|[]|]|]|[[[]|[]|]|[[]|[]|]|]|]]
        eqn:E; try (exfalso; lia);
        first [ exists D0; split; reflexivity
              | exists D1; split; reflexivity
              | exists D2; split; reflexivity
              | exists D3; split; reflexivity
              | exists D4; split; reflexivity
              | exists D5; split; reflexivity
              | exists D6; split; reflexivity
              | exists D7; split; reflexivity
              | exists D8; split; reflexivity
              | exists D9; split; reflexivity ]. }
    destruct Hcase as (d & Hd1 & Hd2).
    exists (d l). split.
    + rewrite Hd1. lia.
    + rewrite Hd2, El. lia.
Qed.

Lemma to_uint_digits (k : nat) (n : N) :
  1 <= k -> (n < 10 ^ N.of_nat k)%N -> nb_digits (N.to_uint n) <= k.
Proof.
  intros Hk Hn. destruct (of_lu_digits k n Hn) as (l & Hl & El).
  rewrite <- DecimalPos.Unsigned.of_lu_rev in El.
  assert (E : N.to_uint n = unorm (rev l)).
  { rewrite <- El. apply DecimalPos.Unsigned.to_of. }
  rewrite E. destruct (uint_eq_dec (rev l) Nil) as [Hnil|Hnil].
  - rewrite Hnil. cbn. exact Hk.
  - apply Nat.le_trans with (m := nb_digits (rev l)).
    + apply DecimalFacts.nb_digits_unorm, Hnil.
    + rewrite DecimalFacts.nb_digits_rev. exact Hl.
Qed.

Lemma of_lu_lt (l : uint) :
  (DecimalPos.Unsigned.of_lu l < 10 ^ N.of_nat (nb_digits l))%N.
Proof.
  induction l;
    cbn [nb_digits DecimalPos.Unsigned.of_lu];
    try replace (N.of_nat (S (nb_digits l)))
      with (N.succ (N.of_nat (nb_digits l))) by lia;
    try rewrite N.pow_succ_r'; lia.
Qed.

Lemma to_uint_lt (n : N) :
  (n < 10 ^ N.of_nat (nb_digits (N.to_uint n)))%N.
Proof.
  rewrite <- (DecimalN.Unsigned.of_to n) at 1.
  change (N.of_uint (N.to_uint n)) with (Pos.of_uint (N.to_uint n)).
  rewrite DecimalPos.Unsigned.of_uint_alt.
  rewrite <- (DecimalFacts.nb_digits_rev (N.to_uint n)).
  apply of_lu_lt.
Qed.

Lemma to_uint_nonnil (n : N) : N.to_uint n <> Nil.
Proof.
  destruct n as [|p]; [discriminate|].
  apply DecimalPos.Unsigned.to_uint_nonnil.
Qed.

(** A smaller number has no more digits. *)
Lemma to_uint_digits_le (n m : N) :
  (n <= m)%N -> nb_digits (N.to_uint n) <= nb_digits (N.to_uint m).
Proof.
  intros H. apply to_uint_digits.
  - destruct (nb_digits (N.to_uint m)) eqn:E; [|lia].
    apply DecimalFacts.nb_digits_0 in E.
    destruct (to_uint_nonnil m E).
  - pose proof (to_uint_lt m). lia.
Qed.

(** The numerals of the numbers up to one within the limit are read
    back. *)
Lemma read_back_within (n : nat) (z : Z) :
  within_int_limit n -> (0 <= z <= Z.of_nat n)%Z -> read_back z = Ok z.
Proof.
  unfold within_int_limit. intros Hn Hz. apply read_back_short.
  apply Nat.le_trans with (2 := Hn).
  rewrite !str_of_int_length by lia.
  apply to_uint_digits_le. lia.
Qed.

(** ** [str.split] on a separator *)

Lemma split_lacks (sep : ascii) (s : string) :
  lacks sep s = true -> Py.split sep s = [s].
Proof.
  unfold lacks. induction s as [|c s IH]; simpl; auto.
  intros H. apply andb_true_iff in H as [Hc Hs].
  apply negb_true_iff in Hc. rewrite Hc, (IH Hs). reflexivity.
Qed.

Lemma split_app (sep : ascii) (s t : string) :
  lacks sep s = true ->
  Py.split sep (s ++ String sep t) = s :: Py.split sep t.
Proof.
  unfold lacks. induction s as [|c s IH]; simpl.
  - intros _. rewrite Ascii.eqb_refl. reflexivity.
  - intros H. apply andb_true_iff in H as [Hc Hs].
    apply negb_true_iff in Hc. rewrite Hc, (IH Hs). reflexivity.
Qed.

Lemma split_nonempty (sep : ascii) (s : string) : Py.split sep s <> [].
Proof.
  destruct s as [|c s]; simpl; try discriminate.
  destruct (Ascii.eqb c sep); try discriminate.
  destruct (Py.split sep s); discriminate.
Qed.

Lemma digits_lack (sep : ascii) (s : string) :
  is_digit sep = false -> all_chars is_digit s = true -> lacks sep s = true.
Proof.
  intros Hsep. apply all_chars_impl. intros c Hc.
  apply digit_not; assumption.
Qed.

Lemma lacks_app (sep : ascii) (s t : string) :
  lacks sep (s ++ t) = lacks sep s && lacks sep t.
Proof. apply all_chars_app. Qed.

(** ** The hunk header parser *)

Lemma append_assoc (s t u : string) :
  ((s ++ t) ++ u = s ++ (t ++ u))%string.
Proof. induction s as [|c s IH]; simpl; congruence. Qed.

Lemma append_empty_r (s : string) : (s ++ EmptyString)%string = s.
Proof. induction s as [|c s IH]; simpl; congruence. Qed.

Lemma header_of_fields (a b c d : string) :
  header_of a b c d
  = ("@@" ++ String " " (("-" ++ a ++ "," ++ b)
       ++ String " " (("+" ++ c ++ "," ++ d) ++ String " " "@@")))%string.
Proof.
  unfold header_of. cbn [append].
  rewrite !append_assoc. reflexivity.
Qed.

Lemma lacks_field (sep sign : ascii) (x y : string) :
  Ascii.eqb sign sep = false -> Ascii.eqb "," sep = false ->
  lacks sep x = true -> lacks sep y = true ->
  lacks sep (String sign (x ++ "," ++ y)) = true.
Proof.
  intros Hs Hc Hx Hy. unfold lacks in *. cbn [all_chars].
  rewrite Hs, all_chars_app, Hx. cbn [append all_chars].
  rewrite Hc, Hy. reflexivity.
Qed.

Lemma parse_header_fields (a b c d : string) :
  lacks " " a = true -> lacks " " b = true ->
  lacks " " c = true -> lacks " " d = true ->
  Py.split " " (header_of a b c d)
  = ["@@"; "-" ++ a ++ "," ++ b; "+" ++ c ++ "," ++ d; "@@"]%string.
Proof.
  intros Ha Hb Hc Hd. rewrite header_of_fields.
  rewrite split_app by reflexivity.
  rewrite split_app by (apply lacks_field; auto).
  rewrite split_app by (apply lacks_field; auto).
  reflexivity.
Qed.

Lemma header_startswith (a b c d : string) :
  Py.startswith (header_of a b c d) "@@" = true.
Proof. reflexivity. Qed.

(** A header with both counts: the parser hands the start of the new
    range, behind its plus sign, to [int]. *)
Lemma parse_line_number_fields (a b c d : string) :
  lacks " " a = true -> lacks " " b = true ->
  all_chars is_digit c = true -> all_chars is_digit d = true ->
  Markers.parse_line_number (header_of a b c d) = Py.int (String "+" c).
Proof.
  intros Ha Hb Hc Hd. unfold Markers.parse_line_number.
  rewrite header_startswith. cbn [negb].
  rewrite parse_header_fields; auto;
    try (apply digits_lack; [reflexivity | assumption]).
  cbn [List.length Nat.eqb negb nth].
  change ("+" ++ c ++ "," ++ d)%string
    with (String "+" c ++ String "," d)%string.
  rewrite split_app.
  - reflexivity.
  - change (lacks "," c = true).
    apply digits_lack; [reflexivity | assumption].
Qed.

Lemma parse_line_number_header (a b d : string) (n : Z) :
  lacks " " a = true -> lacks " " b = true ->
  all_chars is_digit d = true ->
  (0 <= n)%Z ->
  Markers.parse_line_number (header_of a b (Py.str_of_int n) d)
  = read_back n.
Proof.
  intros Ha Hb Hd Hn.
  rewrite parse_line_number_fields; auto.
  - apply int_plus_str_of_int, Hn.
  - apply str_of_int_digits, Hn.
Qed.

(** ** The headers that [unified_diff] prints are read back *)

Module HeaderFacts.
Import Difflib Aux.

Lemma parse_header_fields_text (old_range c rest : string) :
  lacks " " old_range = true ->
  all_chars is_digit c = true ->
  lacks " " rest = true ->
  (rest = EmptyString \/ exists d, rest = String "," d) ->
  Markers.parse_line_number
    ("@@ -" ++ old_range ++ " +" ++ c ++ rest ++ " @@")
  = Py.int (String "+" c).
Proof.
  intros Ho Hd Hr Hrest. unfold Markers.parse_line_number.
  replace ("@@ -" ++ old_range ++ " +" ++ c ++ rest ++ " @@")%string
    with ("@@" ++ String " " (String "-" old_range
            ++ String " " (String "+" (c ++ rest)
            ++ String " " "@@")))%string
    by (cbn [append]; rewrite !append_assoc; reflexivity).
  change (Py.startswith ("@@" ++ ?s) "@@") with true. cbn [negb].
  rewrite split_app by reflexivity.
  rewrite split_app by exact Ho.
  rewrite split_app.
  2:{ change (lacks " " (String "+" (c ++ rest)))
        with (lacks " " (c ++ rest)).
      rewrite lacks_app, Hr, andb_true_r.
      apply digits_lack; [reflexivity | exact Hd]. }
  cbn [List.length Nat.eqb negb nth Py.split].
  assert (Hc : lacks "," (String "+" c) = true)
    by (apply (digits_lack "," c); [reflexivity | exact Hd]).
  destruct Hrest as [->|[d ->]].
  - rewrite append_empty_r, split_lacks by exact Hc. reflexivity.
  - change (String "+" (c ++ String "," d))
      with (String "+" c ++ String "," d)%string.
    rewrite split_app by exact Hc. reflexivity.
Qed.

Lemma parse_header_text (old_range rest : string) (n : Z) :
  lacks " " old_range = true ->
  lacks " " rest = true ->
  (rest = EmptyString \/ exists d, rest = String "," d) ->
  (0 <= n)%Z ->
  Markers.parse_line_number
    ("@@ -" ++ old_range ++ " +" ++ Py.str_of_int n ++ rest ++ " @@")
  = read_back n.
Proof.
  intros Ho Hr Hrest Hn.
  rewrite parse_header_fields_text; auto.
  - apply int_plus_str_of_int, Hn.
  - apply str_of_int_digits, Hn.
Qed.

Lemma format_range_shape (start stop : nat) :
  exists rest,
    format_range_unified start stop
    = (Py.str_of_int (Z.of_nat (range_start start stop)) ++ rest)%string
    /\ lacks " " rest = true
    /\ (rest = EmptyString \/ exists d, rest = String "," d).
Proof.
  unfold format_range_unified, range_start.
  destruct (stop - start) as [|[|len]] eqn:E; cbn [Nat.eqb].
  - exists ("," ++ Py.str_of_int (Z.of_nat 0))%string.
    rewrite Nat.add_sub.
    split; [reflexivity | split; [reflexivity|]].
    right. eexists. reflexivity.
  - exists EmptyString. rewrite append_empty_r.
    split; [reflexivity | split; [reflexivity | left; reflexivity]].
  - exists ("," ++ Py.str_of_int (Z.of_nat (S (S len))))%string.
    split; [reflexivity | split].
    + apply (digits_lack " " (Py.str_of_int (Z.of_nat (S (S len)))));
        [reflexivity|]. apply str_of_int_digits. lia.
    + right. eexists. reflexivity.
Qed.

Lemma format_range_lacks (start stop : nat) :
  lacks " " (format_range_unified start stop) = true.
Proof.
  destruct (format_range_shape start stop) as (rest & -> & Hr & _).
  rewrite lacks_app, Hr, andb_true_r.
  apply digits_lack; [reflexivity|]. apply str_of_int_digits. lia.
Qed.

(** On a hunk header of [unified_diff], [parse_line_number] hands the
    first new line to [int]. *)
Lemma parse_hunk_header (group : list opcode) :
  Markers.parse_line_number (hunk_header group)
  = read_back (Z.of_nat (group_start group)).
Proof.
  unfold hunk_header, group_start.
  set (first := hd (mkOp Equal 0 0 0 0) group).
  set (last := List.last group (mkOp Equal 0 0 0 0)).
  destruct (format_range_shape (op_j1 first) (op_j2 last))
    as (rest & -> & Hr & Hrest).
  rewrite append_assoc.
  apply parse_header_text; auto.
  - apply format_range_lacks.
  - lia.
Qed.

End HeaderFacts.

(** ** [SequenceMatcher]: the longest match stays inside its window *)

Module DifflibFacts.
Import Difflib Aux.

Lemma j2len_get_cons (j k : nat) (d : list (nat * nat)) (j0 : nat) :
  j2len_get ((j, k) :: d) (S j0)
  = if j =? j0 then k else j2len_get d (S j0).
Proof. unfold j2len_get. simpl. destruct (j =? j0); reflexivity. Qed.

Lemma j2len_get_nil (j : nat) : j2len_get [] j = 0.
Proof. destruct j; reflexivity. Qed.

Lemma j2len_le_cons (j k n : nat) (d : list (nat * nat)) :
  k <= n -> j2len_le d n -> j2len_le ((j, k) :: d) n.
Proof.
  intros Hk Hd [|j0]; [apply Nat.le_0_l|].
  rewrite j2len_get_cons. destruct (j =? j0); auto.
Qed.

Lemma scan_row_within (blo bhi alo i : nat) (js : list nat)
  (j2len newj2len : list (nat * nat)) (best : Match) :
  alo <= i ->
  j2len_le j2len (i - alo) ->
  j2len_le newj2len (S i - alo) ->
  best_within alo (S i) best ->
  j2len_le (fst (scan_row blo bhi i js j2len newj2len best)) (S i - alo)
  /\ best_within alo (S i)
       (snd (scan_row blo bhi i js j2len newj2len best)).
Proof.
  intros Hi Hold. revert newj2len best.
  induction js as [|j js IH]; intros newj2len best Hnew [Hb1 Hb2];
    cbn [scan_row].
  - split; [exact Hnew | split; simpl; lia].
  - destruct (j <? blo); [apply IH; [exact Hnew | split; assumption]|].
    destruct (bhi <=? j); [simpl; split; [exact Hnew | split; lia]|].
    pose proof (Hold j) as Hk.
    apply IH.
    + apply j2len_le_cons; [lia | exact Hnew].
    + destruct (m_size best <? j2len_get j2len j + 1);
        unfold best_within; cbn [m_a m_size]; lia.
Qed.

Lemma scan_rows_within (a b : list string) (blo bhi alo : nat) :
  forall (n i : nat) (j2len : list (nat * nat)) (best : Match),
    alo <= i ->
    j2len_le j2len (i - alo) ->
    best_within alo i best ->
    best_within alo (i + n)
      (scan_rows a b blo bhi (seq i n) j2len best).
Proof.
  induction n as [|n IH]; intros i j2len best Hi Hj Hb; simpl.
  - rewrite Nat.add_0_r. exact Hb.
  - assert (Hnil : j2len_le [] (S i - alo))
      by (intros j; rewrite j2len_get_nil; lia).
    assert (Hb0 : best_within alo (S i) best)
      by (destruct Hb; split; lia).
    destruct (scan_row_within blo bhi alo i
                (match dict_get (chain_b b) (seq_item a i) with
                 | Some js => js | None => [] end)
                j2len [] best Hi Hj Hnil Hb0)
      as [Hj' Hb'].
    destruct (scan_row blo bhi i _ j2len [] best) as [new best'].
    simpl in Hj', Hb'.
    replace (i + S n) with (S i + n) by lia.
    apply IH; [lia | exact Hj' | exact Hb'].
Qed.

Lemma extend_back_within (a b : list string) (junk : bool) (alo blo : nat) :
  forall besti bestj bestsize,
    alo <= besti ->
    let m := extend_back a b junk alo blo besti bestj bestsize in
    alo <= m_a m /\ m_a m + m_size m = besti + bestsize
    /\ bestsize <= m_size m.
Proof.
  induction besti as [|i IH]; intros bestj bestsize Hlo;
    cbn [extend_back].
  - cbn [m_a m_size]. lia.
  - destruct bestj as [|j]; [cbn [m_a m_size]; lia|].
    destruct ((alo <? S i) && (blo <? S j)
              && Bool.eqb (isbjunk (seq_item b j)) junk
              && String.eqb (seq_item a i) (seq_item b j)) eqn:E;
      [|cbn [m_a m_size]; lia].
    apply andb_true_iff in E as [E _]. apply andb_true_iff in E as [E _].
    apply andb_true_iff in E as [E _]. apply Nat.ltb_lt in E.
    specialize (IH j (S bestsize)). cbv zeta in IH. lia.
Qed.

Lemma extend_fwd_within (a b : list string) (junk : bool) (ahi bhi : nat) :
  forall fuel besti bestj bestsize,
    besti + bestsize <= ahi ->
    let m := extend_fwd a b junk fuel ahi bhi besti bestj bestsize in
    m_a m = besti /\ m_a m + m_size m <= ahi /\ bestsize <= m_size m.
Proof.
  induction fuel as [|fuel IH]; intros besti bestj bestsize Hhi;
    cbn [extend_fwd].
  - cbn [m_a m_size]. lia.
  - destruct ((besti + bestsize <? ahi) && (bestj + bestsize <? bhi)
              && Bool.eqb (isbjunk (seq_item b (bestj + bestsize))) junk
              && String.eqb (seq_item a (besti + bestsize))
                            (seq_item b (bestj + bestsize))) eqn:E;
      [|cbn [m_a m_size]; lia].
    apply andb_true_iff in E as [E _]. apply andb_true_iff in E as [E _].
    apply andb_true_iff in E as [E _]. apply Nat.ltb_lt in E.
    specialize (IH besti bestj (S bestsize)). cbv zeta in IH. lia.
Qed.

Lemma extend_within (a b : list string) (junk : bool)
  (alo ahi blo bhi : nat) (m : Match) :
  best_within alo ahi m ->
  best_within alo ahi (extend a b junk alo ahi blo bhi m).
Proof.
  intros [H1 H2]. unfold extend.
  pose proof (extend_back_within a b junk alo blo (m_a m) (m_b m)
                (m_size m) H1) as HB.
  simpl in HB. destruct HB as (B1 & B2 & B3).
  set (m1 := extend_back a b junk alo blo (m_a m) (m_b m) (m_size m)) in *.
  assert (Hhi : m_a m1 + m_size m1 <= ahi) by lia.
  pose proof (extend_fwd_within a b junk ahi bhi
                (ahi - (m_a m1 + m_size m1)) (m_a m1) (m_b m1) (m_size m1)
                Hhi) as HF.
  simpl in HF. unfold best_within. lia.
Qed.

(** The match that [find_longest_match] returns for a window
    [alo <= ahi] lies between [alo] and [ahi]. *)
Lemma find_longest_match_within (a b : list string)
  (alo ahi blo bhi : nat) :
  alo <= ahi ->
  best_within alo ahi (find_longest_match a b alo ahi blo bhi).
Proof.
  intros H. unfold find_longest_match.
  do 2 apply extend_within.
  assert (E : ahi = alo + (ahi - alo)) by lia.
  rewrite E at 1. apply scan_rows_within.
  - lia.
  - intros j. rewrite j2len_get_nil. lia.
  - unfold best_within. simpl. lia.
Qed.

(** *** The work list of [get_matching_blocks] empties *)

Lemma match_queue_total (a b : list string) :
  forall fuel queue blocks,
    Forall window_ok queue ->
    queue_weight queue < fuel ->
    exists r, match_queue a b fuel queue blocks = Some r.
Proof.
  induction fuel as [|fuel IH]; intros queue blocks Hok Hw; [lia|].
  destruct queue as [|[[[alo ahi] blo] bhi] queue]; simpl.
  - eauto.
  - inversion Hok as [|w q Hw1 Hq]; subst. simpl in Hw1, Hw.
    pose proof (find_longest_match_within a b alo ahi blo bhi Hw1)
      as [B1 B2].
    set (x := find_longest_match a b alo ahi blo bhi) in *.
    destruct (m_size x =? 0) eqn:Ek.
    + apply IH; [exact Hq | lia].
    + apply Nat.eqb_neq in Ek.
      apply IH.
      * destruct ((m_a x + m_size x <? ahi) && (m_b x + m_size x <? bhi));
          destruct ((alo <? m_a x) && (blo <? m_b x));
          repeat constructor; simpl; auto; lia.
      * destruct ((m_a x + m_size x <? ahi) && (m_b x + m_size x <? bhi));
          destruct ((alo <? m_a x) && (blo <? m_b x));
          simpl; lia.
Qed.

(** The loop of [get_matching_blocks] ends within its fuel, for all
    sequences. *)
Lemma matching_blocks_loop_total (a b : list string) :
  exists blocks, matching_blocks_loop a b = Some blocks.
Proof.
  unfold matching_blocks_loop, queue_fuel.
  apply match_queue_total.
  - repeat constructor. simpl. lia.
  - simpl. lia.
Qed.

End DifflibFacts.

(** ** The matching blocks are ordered *)

Module BlockFacts.
Import Difflib DifflibFacts Aux.

Lemma j2len_b_le_nil (blo : nat) : j2len_b_le [] blo.
Proof. intros j. rewrite j2len_get_nil. lia. Qed.

Lemma j2len_b_le_cons (j k blo : nat) (d : list (nat * nat)) :
  k <= S j - blo -> j2len_b_le d blo -> j2len_b_le ((j, k) :: d) blo.
Proof.
  intros Hk Hd [|j0]; [apply Nat.le_0_l|].
  rewrite j2len_get_cons. destruct (j =? j0) eqn:E; [|apply Hd].
  apply Nat.eqb_eq in E. subst. exact Hk.
Qed.

Lemma scan_row_b_within (blo bhi i : nat) (js : list nat)
  (j2len newj2len : list (nat * nat)) (best : Match) :
  j2len_b_le j2len blo ->
  j2len_b_le newj2len blo ->
  best_b_within blo bhi best ->
  j2len_b_le (fst (scan_row blo bhi i js j2len newj2len best)) blo
  /\ best_b_within blo bhi
       (snd (scan_row blo bhi i js j2len newj2len best)).
Proof.
  intros Hold. revert newj2len best.
  induction js as [|j js IH]; intros newj2len best Hnew Hb;
    cbn [scan_row].
  - split; assumption.
  - destruct (j <? blo) eqn:E1; [apply IH; assumption|].
    destruct (bhi <=? j) eqn:E2; [split; assumption|].
    apply Nat.ltb_ge in E1. apply Nat.leb_gt in E2.
    pose proof (Hold j) as Hk.
    apply IH.
    + apply j2len_b_le_cons; [lia | exact Hnew].
    + destruct (m_size best <? j2len_get j2len j + 1); [|exact Hb].
      unfold best_b_within. cbn [m_b m_size]. lia.
Qed.

Lemma scan_rows_b_within (a b : list string) (blo bhi : nat) :
  forall (rows : list nat) (j2len : list (nat * nat)) (best : Match),
    j2len_b_le j2len blo ->
    best_b_within blo bhi best ->
    best_b_within blo bhi (scan_rows a b blo bhi rows j2len best).
Proof.
  induction rows as [|i rows IH]; intros j2len best Hj Hb;
    cbn [scan_rows].
  - exact Hb.
  - destruct (scan_row_b_within blo bhi i
                (match dict_get (chain_b b) (seq_item a i) with
                 | Some js => js | None => [] end)
                j2len [] best Hj (j2len_b_le_nil blo) Hb) as [Hj' Hb'].
    destruct (scan_row blo bhi i _ j2len [] best) as [new best'].
    apply IH; assumption.
Qed.

Lemma extend_back_b_within (a b : list string) (junk : bool)
  (alo blo : nat) :
  forall besti bestj bestsize,
    blo <= bestj ->
    blo <= m_b (extend_back a b junk alo blo besti bestj bestsize)
    /\ m_b (extend_back a b junk alo blo besti bestj bestsize)
       + m_size (extend_back a b junk alo blo besti bestj bestsize)
       = bestj + bestsize.
Proof.
  induction besti as [|i IH]; intros bestj bestsize Hlo;
    cbn [extend_back].
  - cbn [m_b m_size]. lia.
  - destruct bestj as [|j]; [cbn [m_b m_size]; lia|].
    destruct ((alo <? S i) && (blo <? S j)
              && Bool.eqb (isbjunk (seq_item b j)) junk
              && String.eqb (seq_item a i) (seq_item b j)) eqn:E;
      [|cbn [m_b m_size]; lia].
    apply andb_true_iff in E as [E _]. apply andb_true_iff in E as [E _].
    apply andb_true_iff in E as [_ E]. apply Nat.ltb_lt in E.
    specialize (IH j (S bestsize)). lia.
Qed.

Lemma extend_fwd_b_within (a b : list string) (junk : bool)
  (ahi bhi : nat) :
  forall fuel besti bestj bestsize,
    bestj + bestsize <= bhi ->
    m_b (extend_fwd a b junk fuel ahi bhi besti bestj bestsize) = bestj
    /\ bestj
       + m_size (extend_fwd a b junk fuel ahi bhi besti bestj bestsize)
       <= bhi.
Proof.
  induction fuel as [|fuel IH]; intros besti bestj bestsize Hhi;
    cbn [extend_fwd].
  - cbn [m_b m_size]. lia.
  - destruct ((besti + bestsize <? ahi) && (bestj + bestsize <? bhi)
              && Bool.eqb (isbjunk (seq_item b (bestj + bestsize))) junk
              && String.eqb (seq_item a (besti + bestsize))
                            (seq_item b (bestj + bestsize))) eqn:E;
      [|cbn [m_b m_size]; lia].
    apply andb_true_iff in E as [E _]. apply andb_true_iff in E as [E _].
    apply andb_true_iff in E as [_ E]. apply Nat.ltb_lt in E.
    specialize (IH besti bestj (S bestsize)). lia.
Qed.

Lemma extend_b_within (a b : list string) (junk : bool)
  (alo ahi blo bhi : nat) (m : Match) :
  best_b_within blo bhi m ->
  best_b_within blo bhi (extend a b junk alo ahi blo bhi m).
Proof.
  intros [H1 H2]. unfold extend.
  destruct (extend_back_b_within a b junk alo blo (m_a m) (m_b m)
              (m_size m) H1) as [B1 B2].
  set (m1 := extend_back a b junk alo blo (m_a m) (m_b m) (m_size m)) in *.
  assert (Hhi : m_b m1 + m_size m1 <= bhi) by lia.
  destruct (extend_fwd_b_within a b junk ahi bhi
              (ahi - (m_a m1 + m_size m1)) (m_a m1) (m_b m1) (m_size m1)
              Hhi) as [F1 F2].
  unfold best_b_within. rewrite F1. lia.
Qed.

Lemma find_longest_match_b_within (a b : list string)
  (alo ahi blo bhi : nat) :
  blo <= bhi ->
  best_b_within blo bhi (find_longest_match a b alo ahi blo bhi).
Proof.
  intros H. unfold find_longest_match.
  do 2 apply extend_b_within.
  apply scan_rows_b_within.
  - apply j2len_b_le_nil.
  - unfold best_b_within. cbn [m_b m_size]. lia.
Qed.

(** *** The blocks that the work list yields *)

Lemma blocks_in_nil (w : nat * nat * nat * nat) : blocks_in w [].
Proof. split; constructor. Qed.

Lemma FOP_app {A : Type} (R : A -> A -> Prop) (l1 l2 : list A) :
  ForallOrdPairs R l1 -> ForallOrdPairs R l2 ->
  (forall x y, In x l1 -> In y l2 -> R x y) ->
  ForallOrdPairs R (l1 ++ l2).
Proof.
  intros H1 H2 H. induction H1 as [|x l1 Hx H1 IH]; simpl.
  - exact H2.
  - constructor.
    + apply Forall_app. split; [exact Hx|].
      apply Forall_forall. intros y Hy. apply H; [left; reflexivity | exact Hy].
    + apply IH. intros x' y Hx' Hy. apply H; [right; exact Hx' | exact Hy].
Qed.

Lemma gen_pushed (c1 c2 : bool) (w1 w2 : nat * nat * nat * nat)
  (queue : list (nat * nat * nat * nat)) (B : list Match) :
  gen (if c2 then w2 :: (if c1 then w1 :: queue else queue)
       else (if c1 then w1 :: queue else queue)) B ->
  exists B2 B1 Bq,
    B = B2 ++ B1 ++ Bq
    /\ blocks_in w2 B2 /\ blocks_in w1 B1 /\ gen queue Bq.
Proof.
  destruct c1, c2; intros H.
  - inversion H as [|? ? B2 B' H2 H']; subst.
    inversion H' as [|? ? B1 Bq H1 Hq]; subst.
    exists B2, B1, Bq. auto.
  - inversion H as [|? ? B1 Bq H1 Hq]; subst.
    exists [], B1, Bq.
    split; [reflexivity | split; [apply blocks_in_nil | auto]].
  - inversion H as [|? ? B2 Bq H2 Hq]; subst.
    exists B2, [], Bq.
    split; [reflexivity | split; [exact H2 | split; [|exact Hq]]].
    apply blocks_in_nil.
  - exists [], [], B.
    split; [reflexivity | split; [apply blocks_in_nil|]].
    split; [apply blocks_in_nil | exact H].
Qed.

(** The block of a window, the blocks to its right and the blocks to its
    left are blocks of the window, two by two apart. *)
Lemma blocks_in_split (alo ahi blo bhi : nat) (x : Match)
  (L2 L1 : list Match) :
  block_in (alo, ahi, blo, bhi) x ->
  blocks_in (m_a x + m_size x, ahi, m_b x + m_size x, bhi) L2 ->
  blocks_in (alo, m_a x, blo, m_b x) L1 ->
  blocks_in (alo, ahi, blo, bhi) (x :: L2 ++ L1).
Proof.
  intros Hx [F2 P2] [F1 P1].
  assert (I2 : forall y, In y L2 ->
                 bprec x y /\ block_in (alo, ahi, blo, bhi) y).
  { intros y Hy. rewrite Forall_forall in F2. specialize (F2 y Hy).
    unfold bprec, block_in in *. lia. }
  assert (I1 : forall y, In y L1 ->
                 bprec y x /\ block_in (alo, ahi, blo, bhi) y).
  { intros y Hy. rewrite Forall_forall in F1. specialize (F1 y Hy).
    unfold bprec, block_in in *. lia. }
  split.
  - constructor; [exact Hx|].
    apply Forall_app. split; apply Forall_forall; intros y Hy;
      [apply I2, Hy | apply I1, Hy].
  - constructor.
    + apply Forall_app. split; apply Forall_forall; intros y Hy;
        [left; apply I2, Hy | right; apply I1, Hy].
    + apply FOP_app; [exact P2 | exact P1|].
      intros y2 y1 Hy2 Hy1. right.
      destruct (I2 y2 Hy2) as [Q2 _]. destruct (I1 y1 Hy1) as [Q1 _].
      unfold bprec in *. lia.
Qed.

Lemma match_queue_gen (a b : list string) :
  forall fuel queue blocks r,
    Forall window_ok2 queue ->
    match_queue a b fuel queue blocks = Some r ->
    exists B, r = blocks ++ B /\ gen queue B.
Proof.
  induction fuel as [|fuel IH]; intros queue blocks r Hok H;
    [discriminate|].
  destruct queue as [|[[[alo ahi] blo] bhi] queue]; cbn [match_queue] in H.
  - injection H as <-. exists []. rewrite app_nil_r. split; constructor.
  - inversion Hok as [|w q Hw Hq]; subst.
    cbn in Hw. destruct Hw as [Hw1 Hw2].
    pose proof (find_longest_match_within a b alo ahi blo bhi Hw1)
      as [A1 A2].
    pose proof (find_longest_match_b_within a b alo ahi blo bhi Hw2)
      as [B1 B2].
    set (x := find_longest_match a b alo ahi blo bhi) in *.
    destruct (m_size x =? 0) eqn:Ek.
    + destruct (IH _ _ _ Hq H) as (B & -> & HB).
      exists B. split; [reflexivity|].
      change B with ([] ++ B). constructor; [apply blocks_in_nil | exact HB].
    + apply Nat.eqb_neq in Ek. cbv zeta in H.
      apply IH in H.
      * destruct H as (B' & -> & HB').
        apply gen_pushed in HB'.
        destruct HB' as (L2 & L1 & Bq & -> & H2 & H1 & Hgen).
        exists ((x :: L2 ++ L1) ++ Bq). split.
        -- simpl. rewrite <- !app_assoc. reflexivity.
        -- constructor; [|exact Hgen].
           apply blocks_in_split; [|exact H2 | exact H1].
           unfold block_in. lia.
      * destruct ((alo <? m_a x) && (blo <? m_b x)) eqn:C1;
          destruct ((m_a x + m_size x <? ahi)
                    && (m_b x + m_size x <? bhi)) eqn:C2;
          repeat constructor; try exact Hq;
          try (apply andb_true_iff in C1 as [C11 C12];
               apply Nat.ltb_lt in C11, C12);
          simpl; lia.
Qed.

(** *** Sorting the blocks *)

Lemma sort_insert_In (x y : Match) (l : list Match) :
  In y (sort_insert x l) <-> y = x \/ In y l.
Proof.
  induction l as [|z l IH]; simpl.
  - intuition.
  - destruct (match_leb x z); simpl; [intuition|].
    rewrite IH. intuition.
Qed.

Lemma sort_blocks_In (y : Match) (l : list Match) :
  In y (sort_blocks l) <-> In y l.
Proof.
  induction l as [|x l IH]; simpl; [tauto|].
  rewrite sort_insert_In, IH. intuition.
Qed.

Lemma match_leb_bprec (x y : Match) :
  0 < m_size x -> bprec x y -> match_leb x y = true.
Proof.
  intros Hx [H _]. unfold match_leb.
  replace (m_a x <? m_a y) with true; [reflexivity|].
  symmetry. apply Nat.ltb_lt. lia.
Qed.

Lemma sort_insert_ordered (x : Match) (l : list Match) :
  0 < m_size x -> Forall (fun y => 0 < m_size y) l ->
  Forall (comparable x) l -> ordered l -> ordered (sort_insert x l).
Proof.
  intros Hx Hpos Hcmp Hord.
  induction Hord as [|z l Hz Hord IH]; simpl.
  - repeat constructor.
  - inversion Hpos as [|? ? Hzpos Hpos']; subst.
    inversion Hcmp as [|? ? Hxz Hcmp']; subst.
    destruct (match_leb x z) eqn:E.
    + assert (Hp : bprec x z).
      { destruct Hxz as [H|H]; [exact H|].
        exfalso. unfold match_leb in E. destruct H as [H _].
        apply orb_true_iff in E as [E|E].
        - apply Nat.ltb_lt in E. lia.
        - apply andb_true_iff in E as [E _]. apply Nat.eqb_eq in E. lia. }
      constructor; [|constructor; assumption].
      constructor; [exact Hp|].
      rewrite Forall_forall in *. intros y Hy. specialize (Hz y Hy).
      unfold bprec in *. lia.
    + assert (Hp : bprec z x).
      { destruct Hxz as [H|H]; [|exact H].
        rewrite (match_leb_bprec x z Hx H) in E. discriminate. }
      constructor; [|apply IH; assumption].
      apply Forall_forall. intros y Hy.
      apply (proj1 (sort_insert_In _ _ _)) in Hy.
      destruct Hy as [->|Hy]; [exact Hp|].
      rewrite Forall_forall in Hz. apply Hz, Hy.
Qed.

Lemma sort_blocks_ordered (l : list Match) :
  Forall (fun y => 0 < m_size y) l ->
  ForallOrdPairs comparable l -> ordered (sort_blocks l).
Proof.
  intros Hpos Hp. induction Hp as [|x l Hx Hp IH]; simpl.
  - constructor.
  - inversion Hpos as [|? ? Hxpos Hpos']; subst.
    apply sort_insert_ordered.
    + exact Hxpos.
    + apply Forall_forall. intros y Hy.
      apply (proj1 (sort_blocks_In _ _)) in Hy.
      rewrite Forall_forall in Hpos'. apply Hpos', Hy.
    + apply Forall_forall. intros y Hy.
      apply (proj1 (sort_blocks_In _ _)) in Hy.
      rewrite Forall_forall in Hx. apply Hx, Hy.
    + apply IH, Hpos'.
Qed.

(** *** Merging adjacent blocks *)

Lemma collapse_jchain (lb : nat) :
  forall (rest : list Match) (i1 j1 k1 j0 : nat),
    j0 <= j1 -> j1 + k1 <= lb ->
    ordered rest ->
    Forall (fun x => j1 + k1 <= m_b x /\ m_b x + m_size x <= lb) rest ->
    jchain_to lb j0 (collapse i1 j1 k1 rest).
Proof.
  induction rest as [|x rest IH]; intros i1 j1 k1 j0 H0 H1 Hord Hall;
    cbn [collapse].
  - destruct (k1 =? 0); simpl; lia.
  - inversion Hord as [|? ? Hx Hord']; subst.
    inversion Hall as [|? ? [Hx1 Hx2] Hall']; subst.
    assert (Hnext : Forall (fun y => m_b x + m_size x <= m_b y
                                     /\ m_b y + m_size y <= lb) rest).
    { rewrite Forall_forall in *. intros y Hy.
      specialize (Hx y Hy). specialize (Hall' y Hy).
      unfold bprec in Hx. lia. }
    destruct ((i1 + k1 =? m_a x) && (j1 + k1 =? m_b x)) eqn:E.
    + apply andb_true_iff in E as [_ E]. apply Nat.eqb_eq in E.
      apply IH; try assumption; try lia.
      replace (j1 + (k1 + m_size x)) with (m_b x + m_size x) by lia.
      exact Hnext.
    + destruct (k1 =? 0); simpl.
      * apply IH; try assumption; lia.
      * split; [exact H0|]. apply IH; try assumption; lia.
Qed.

(** The blocks of [get_matching_blocks], without the final marker, follow
    one another in [b]. *)
Lemma get_matching_blocks_jchain (a b : list string) :
  exists blocks,
    get_matching_blocks a b
    = blocks ++ [mkMatch (List.length a) (List.length b) 0]
    /\ jchain_to (List.length b) 0 blocks.
Proof.
  unfold get_matching_blocks.
  destruct (matching_blocks_loop_total a b) as [r Hr]. rewrite Hr.
  eexists. split; [reflexivity|].
  unfold matching_blocks_loop in Hr.
  apply match_queue_gen in Hr; [|repeat constructor; simpl; lia].
  destruct Hr as (B & -> & Hgen). simpl.
  inversion Hgen as [|? ? Bw Bq [HF HP] Hq]; subst.
  inversion Hq; subst. rewrite app_nil_r.
  assert (Hpos : Forall (fun y => 0 < m_size y) Bw).
  { rewrite Forall_forall in *. intros y Hy. apply (HF y Hy). }
  apply collapse_jchain; try lia.
  - apply sort_blocks_ordered; assumption.
  - apply Forall_forall. intros y Hy. apply (proj1 (sort_blocks_In _ _)) in Hy.
    rewrite Forall_forall in HF. specialize (HF y Hy).
    unfold block_in in HF. lia.
Qed.

End BlockFacts.

(** ** The opcodes and their groups *)

Module OpFacts.
Import Difflib BlockFacts Aux.

Lemma jchain_to_le (lb : nat) (blocks : list Match) (j : nat) :
  jchain_to lb j blocks -> j <= lb.
Proof.
  revert j. induction blocks as [|x blocks IH]; intros j; simpl; [auto|].
  intros [H1 H2]. apply IH in H2. lia.
Qed.

Lemma gap_ok (lb i ai j bj : nat) (rest : list opcode) (j' : nat) :
  j <= bj -> bj <= lb ->
  ops_ok lb bj rest j' ->
  ops_ok lb j
    ((if (i <? ai) && (j <? bj) then [mkOp Replace i ai j bj]
      else if i <? ai then [mkOp Delete i ai j bj]
      else if j <? bj then [mkOp Insert i ai j bj]
      else []) ++ rest) j'.
Proof.
  intros Hj Hb Hrest.
  destruct (i <? ai) eqn:E1; destruct (j <? bj) eqn:E2; cbn [andb app];
    try apply Nat.ltb_ge in E2.
  - apply (ops_cons lb (mkOp Replace i ai j bj)); cbn; auto; discriminate.
  - apply (ops_cons lb (mkOp Delete i ai j bj)); cbn; auto;
      try discriminate; intros; lia.
  - apply (ops_cons lb (mkOp Insert i ai j bj)); cbn; auto; discriminate.
  - replace j with bj by lia. exact Hrest.
Qed.

Lemma opcodes_from_ok (la lb : nat) :
  forall (blocks : list Match) (i j : nat),
    jchain_to lb j blocks ->
    ops_ok lb j (opcodes_from i j (blocks ++ [mkMatch la lb 0])) lb.
Proof.
  induction blocks as [|x blocks IH]; intros i j H;
    cbn [app opcodes_from m_a m_b m_size].
  - simpl in H. cbn [Nat.eqb app].
    apply gap_ok; auto. constructor.
  - destruct H as [H1 H2]. pose proof (jchain_to_le lb blocks _ H2) as H3.
    apply gap_ok; [exact H1 | lia|].
    destruct (m_size x =? 0) eqn:E; cbn [app].
    + apply Nat.eqb_eq in E. rewrite E, !Nat.add_0_r in *.
      apply IH, H2.
    + apply (ops_cons lb (mkOp Equal (m_a x) (m_a x + m_size x) (m_b x)
                               (m_b x + m_size x))); cbn.
      * lia.
      * discriminate.
      * intros _. split; lia.
      * intros H. contradiction.
      * apply IH, H2.
Qed.

Lemma get_opcodes_ok (a b : list string) :
  ops_ok (List.length b) 0 (get_opcodes a b) (List.length b).
Proof.
  unfold get_opcodes.
  destruct (get_matching_blocks_jchain a b) as (blocks & -> & H).
  apply opcodes_from_ok, H.
Qed.

Lemma is_equal_true (o : opcode) : is_equal o = true -> op_tag o = Equal.
Proof. unfold is_equal. destruct (op_tag o); auto; discriminate. Qed.

Lemma fix_first_ok (lb j j' : nat) (codes : list opcode) :
  ops_ok lb j codes j' -> exists j0, ops_ok lb j0 (fix_first 0 codes) j'.
Proof.
  intros H. destruct H as [j|o ops j' H1 H2 H3 H4 H5]; cbn [fix_first].
  - exists j. constructor.
  - destruct (is_equal o) eqn:E.
    + apply is_equal_true in E. destruct (H3 E) as [Hi Hj].
      exists (op_j2 o). rewrite !Nat.sub_0_r, !Nat.max_r by lia.
      apply (ops_cons lb (mkOp (op_tag o) (op_i2 o) (op_i2 o) (op_j2 o)
                               (op_j2 o))); cbn; auto;
        try (intros _; split; lia); try (intros H; contradiction).
    + exists (op_j1 o). constructor; auto.
Qed.

Lemma fix_last_ok (lb : nat) (codes : list opcode) (j j' : nat) :
  ops_ok lb j codes j' -> exists j1, ops_ok lb j (fix_last 0 codes) j1.
Proof.
  intros H. induction H as [j|o ops j' H1 H2 H3 H4 H5 IH].
  - exists j. constructor.
  - destruct ops as [|o' ops'].
    + cbn [fix_last]. destruct (is_equal o) eqn:E.
      * apply is_equal_true in E. destruct (H3 E) as [Hi Hj].
        rewrite !Nat.add_0_r, !Nat.min_r by lia.
        exists (op_j1 o).
        apply (ops_cons lb (mkOp (op_tag o) (op_i1 o) (op_i1 o) (op_j1 o)
                                 (op_j1 o))); cbn; auto;
          try (intros _; split; lia); try (intros H; contradiction);
          try constructor.
      * exists (op_j2 o). constructor; auto. constructor.
    + destruct IH as [j1 IH]. exists j1.
      change (fix_last 0 (o :: o' :: ops'))
        with (o :: fix_last 0 (o' :: ops')).
      constructor; auto.
Qed.

Lemma span_le (lb j j' : nat) (g : list opcode) :
  span lb j g j' -> j <= j'.
Proof. induction 1; lia. Qed.

Lemma span_snoc (lb j jc : nat) (g : list opcode) (o : opcode) :
  span lb j g jc ->
  op_j1 o = jc -> op_j1 o <= op_j2 o ->
  (op_tag o = Delete \/ op_tag o = Equal -> op_j2 o = op_j1 o) ->
  (op_j2 o <= lb \/ op_j2 o = op_j1 o) ->
  span lb j (g ++ [o]) (op_j2 o).
Proof.
  intros H. induction H as [j|o' g j' H1 H2 H3 H4 IH];
    intros E Hle Hd Hb; simpl.
  - subst j. constructor; auto. constructor.
  - constructor; auto.
Qed.

(** Every group of [get_grouped_opcodes(0)] is a span. *)
Lemma group_codes_span (lb : nat) :
  forall (codes group : list opcode) (js jc j' : nat),
    span lb js group jc -> ops_ok lb jc codes j' ->
    Forall (fun g => exists j0 j1, span lb j0 g j1)
           (group_codes 0 codes group).
Proof.
  induction codes as [|o codes IH]; intros group js jc j' Hg Hc;
    cbn [group_codes].
  - destruct group as [|o [|o' g]].
    + constructor.
    + destruct (is_equal o); repeat constructor. eauto.
    + repeat constructor. eauto.
  - inversion Hc as [|? ? ? H1 H2 H3 H4 H5]; subst.
    cbn [Nat.add].
    destruct (is_equal o && (0 <? op_i2 o - op_i1 o)) eqn:E.
    + apply andb_true_iff in E as [Eq Ei]. apply is_equal_true in Eq.
      destruct (H3 Eq) as [Hi Hj].
      rewrite !Nat.add_0_r, !Nat.sub_0_r.
      rewrite !Nat.min_r, !Nat.max_r by lia.
      constructor.
      * exists js, (op_j1 o).
        apply (span_snoc lb js (op_j1 o) group
                 (mkOp (op_tag o) (op_i1 o) (op_i1 o) (op_j1 o)
                       (op_j1 o)));
          cbn; auto.
      * apply (IH _ (op_j2 o) (op_j2 o) j'); [|exact H5].
        apply (span_cons lb (mkOp (op_tag o) (op_i2 o) (op_i2 o) (op_j2 o)
                                  (op_j2 o))); cbn; auto.
        constructor.
    + assert (He : op_tag o = Equal -> op_j2 o = op_j1 o).
      { intros He. destruct (H3 He) as [Hi Hj].
        unfold is_equal in E. rewrite He in E. cbn [andb] in E.
        apply Nat.ltb_ge in E. lia. }
      apply (IH _ js (op_j2 o) j'); [|exact H5].
      apply (span_snoc lb js (op_j1 o) group o); auto.
      * intros [Hd|Hq]; auto.
      * destruct (op_tag o) eqn:Et.
        -- left. apply H4. discriminate.
        -- right. apply H2. reflexivity.
        -- left. apply H4. discriminate.
        -- right. apply He. reflexivity.
Qed.

Lemma get_grouped_opcodes_span (a b : list string) :
  Forall (fun g => exists j0 j1, span (List.length b) j0 g j1)
         (get_grouped_opcodes a b 0).
Proof.
  unfold get_grouped_opcodes.
  assert (H : exists j j',
             ops_ok (List.length b) j
               (match get_opcodes a b with
                | [] => [mkOp Equal 0 1 0 1]
                | _ :: _ => get_opcodes a b
                end) j').
  { pose proof (get_opcodes_ok a b) as H.
    destruct (get_opcodes a b); [|eauto].
    exists 0, 1.
    apply (ops_cons (List.length b) (mkOp Equal 0 1 0 1)); cbn;
      auto; try discriminate; try (intros H0; contradiction);
      try constructor. }
  destruct H as (j & j' & H).
  apply fix_first_ok in H. destruct H as [j0 H].
  apply fix_last_ok in H. destruct H as [j1 H].
  apply (group_codes_span _ _ [] j0 j0 j1); [constructor | exact H].
Qed.

(** The header of a span names its first new line. *)
Lemma span_hd (lb j j' : nat) (g : list opcode) (d : opcode) :
  span lb j g j' -> g <> [] -> op_j1 (hd d g) = j.
Proof. intros [ |o g' j'' H1 H2 H3 H4] H; [contradiction | reflexivity]. Qed.

Lemma span_last (lb j j' : nat) (g : list opcode) (d : opcode) :
  span lb j g j' -> g <> [] -> op_j2 (List.last g d) = j'.
Proof.
  induction 1 as [j|o g j' H1 H2 H3 H4 IH]; intros H; [contradiction|].
  destruct g as [|o' g'].
  - inversion H4; subst. reflexivity.
  - change (List.last (o :: o' :: g') d) with (List.last (o' :: g') d).
    apply IH. discriminate.
Qed.

Lemma span_start (lb j j' : nat) (g : list opcode) :
  span lb j g j' -> j < j' -> group_start g = S j.
Proof.
  intros H Hlt. unfold group_start, range_start.
  assert (Hne : g <> []) by (intros ->; inversion H; lia).
  rewrite (span_hd lb j j' g _ H Hne), (span_last lb j j' g _ H Hne).
  replace (j' - j =? 0) with false by (symmetry; apply Nat.eqb_neq; lia).
  lia.
Qed.

End OpFacts.

(** ** The table [b2j] *)

Module ChainFacts.
Import Difflib Aux.

Lemma positions_from_app (off : nat) (x : string) (l1 l2 : list string) :
  positions_from off x (l1 ++ l2)
  = positions_from off x l1
    ++ positions_from (off + List.length l1) x l2.
Proof.
  revert off. induction l1 as [|y l1 IH]; intros off; simpl.
  - rewrite Nat.add_0_r. reflexivity.
  - rewrite IH, <- app_assoc. do 3 f_equal. lia.
Qed.

Lemma positions_from_In (off : nat) (x : string) (l : list string)
  (j : nat) :
  In j (positions_from off x l)
  <-> off <= j /\ j - off < List.length l /\ nth (j - off) l EmptyString = x.
Proof.
  revert off. induction l as [|y l IH]; intros off; simpl.
  - split; [tauto | lia].
  - rewrite in_app_iff, IH. split.
    + intros [H | (H1 & H2 & H3)].
      * destruct (String.eqb_spec y x); [|destruct H].
        destruct H as [<-|[]]. rewrite Nat.sub_diag. repeat split; auto; lia.
      * replace (j - off) with (S (j - S off)) by lia.
        repeat split; auto; lia.
    + intros (H1 & H2 & H3).
      destruct (j - off) as [|d] eqn:E.
      * left. subst y. rewrite String.eqb_refl. left. lia.
      * right. replace (j - S off) with d by lia. repeat split; auto; lia.
Qed.

Lemma positions_In (x : string) (l : list string) (j : nat) :
  In j (positions x l) <-> j < List.length l /\ seq_item l j = x.
Proof.
  unfold positions, seq_item. rewrite positions_from_In, Nat.sub_0_r.
  split; intros H; repeat split; try apply H; lia.
Qed.

Lemma positions_from_increasing (off : nat) (x : string) (l : list string) :
  increasing (positions_from off x l).
Proof.
  revert off. induction l as [|y l IH]; intros off; simpl.
  - constructor.
  - destruct (String.eqb y x); simpl; [|apply IH].
    constructor; [|apply IH].
    intros j' Hj'. apply positions_from_In in Hj'. lia.
Qed.

(** *** What [setdefault(...).append(i)] does to the table *)

Lemma dict_get_In {V : Type} (d : list (string * V)) (k : string) (v : V) :
  dict_get d k = Some v -> In (k, v) d.
Proof.
  induction d as [|[k' v'] d IH]; simpl; [discriminate|].
  destruct (String.eqb_spec k' k) as [->|].
  - intros [= ->]. left. reflexivity.
  - intros H. right. apply IH, H.
Qed.

Lemma b2j_append_keys (d : list (string * list nat)) (elt : string)
  (i : nat) (k : string) :
  In k (map fst (b2j_append d elt i)) <-> k = elt \/ In k (map fst d).
Proof.
  induction d as [|[k' v'] d IH]; simpl.
  - intuition congruence.
  - destruct (String.eqb_spec k' elt) as [->|Hne]; simpl.
    + intuition congruence.
    + rewrite IH. tauto.
Qed.

Lemma b2j_append_NoDup (d : list (string * list nat)) (elt : string)
  (i : nat) :
  NoDup (map fst d) -> NoDup (map fst (b2j_append d elt i)).
Proof.
  induction d as [|[k' v'] d IH]; simpl; intros H.
  - repeat constructor. intros [].
  - inversion H as [|? ? Hnotin Hd]; subst.
    destruct (String.eqb_spec k' elt) as [->|Hne]; simpl.
    + constructor; assumption.
    + constructor; [|apply IH, Hd].
      rewrite b2j_append_keys. intros [->|Hin]; [apply Hne; reflexivity|].
      apply Hnotin, Hin.
Qed.

Lemma b2j_append_In (d : list (string * list nat)) (elt : string)
  (i : nat) (k : string) (v : list nat) :
  NoDup (map fst d) ->
  In (k, v) (b2j_append d elt i) ->
  (k <> elt /\ In (k, v) d)
  \/ (k = elt /\ ((exists v0, In (elt, v0) d /\ v = v0 ++ [i])
                 \/ (~ In elt (map fst d) /\ v = [i]))).
Proof.
  induction d as [|[k' v'] d IH]; simpl; intros Hnd H.
  - destruct H as [[= <- <-]|[]]. right. split; auto.
  - inversion Hnd as [|? ? Hnotin Hd]; subst.
    destruct (String.eqb_spec k' elt) as [->|Hne]; simpl in H.
    + destruct H as [[= <- <-]|H].
      * right. split; auto. left. exists v'. auto.
      * left. split; [|right; exact H].
        intros ->. apply Hnotin.
        change elt with (fst (elt, v)). apply in_map, H.
    + destruct H as [[= <- <-]|H].
      * left. split; auto.
      * destruct (IH Hd H) as [[H1 H2]|[H1 [(v0 & H2 & H3)|[H2 H3]]]].
        -- left. auto.
        -- right. split; auto. left. exists v0. auto.
        -- right. split; auto. right. split; auto.
           intros [E|Hin]; [apply Hne, E | apply H2, Hin].
Qed.

Lemma positions_snoc (k elt : string) (pre : list string) :
  positions k (pre ++ [elt])
  = positions k pre
    ++ (if String.eqb elt k then [List.length pre] else []).
Proof.
  unfold positions. rewrite positions_from_app. simpl.
  rewrite app_nil_r. reflexivity.
Qed.

Lemma table_of_append (d : list (string * list nat)) (pre : list string)
  (elt : string) :
  table_of d pre ->
  table_of (b2j_append d elt (List.length pre)) (pre ++ [elt]).
Proof.
  intros (Hnd & Hin & Hout). repeat split.
  - apply b2j_append_NoDup, Hnd.
  - intros k v H. rewrite positions_snoc.
    destruct (b2j_append_In d elt _ k v Hnd H)
      as [[H1 H2]|[-> [(v0 & H2 & ->)|[H2 ->]]]].
    + destruct (String.eqb_spec elt k); [congruence|].
      rewrite app_nil_r. apply Hin, H2.
    + rewrite String.eqb_refl. f_equal. apply Hin, H2.
    + rewrite String.eqb_refl, (Hout _ H2). reflexivity.
  - intros k H. rewrite b2j_append_keys in H. rewrite positions_snoc.
    destruct (String.eqb_spec elt k) as [->|]; [tauto|].
    rewrite app_nil_r. apply Hout. tauto.
Qed.

Lemma table_of_fold (l pre : list string) (d : list (string * list nat)) :
  table_of d pre ->
  table_of
    (fold_left (fun d ie => b2j_append d (snd ie) (fst ie))
               (combine (seq (List.length pre) (List.length l)) l) d)
    (pre ++ l).
Proof.
  revert pre d. induction l as [|x l IH]; intros pre d H; simpl.
  - rewrite app_nil_r. exact H.
  - replace (pre ++ x :: l) with ((pre ++ [x]) ++ l)
      by (rewrite <- app_assoc; reflexivity).
    replace (S (List.length pre)) with (List.length (pre ++ [x]))
      by (rewrite length_app; simpl; lia).
    apply IH, table_of_append, H.
Qed.

(** An entry of [b2j] lists all positions of its key. *)
Lemma chain_b_get (b : list string) (x : string) (js : list nat) :
  dict_get (chain_b b) x = Some js -> js = positions x b.
Proof.
  intros H. apply dict_get_In in H.
  assert (T : table_of
                (fold_left (fun d ie => b2j_append d (snd ie) (fst ie))
                           (combine (seq 0 (List.length b)) b) []) b).
  { apply (table_of_fold b [] []).
    split; [constructor | split; [intros k v [] | reflexivity]]. }
  destruct T as (_ & Hin & _). apply Hin.
  unfold chain_b in H.
  destruct (200 <=? List.length b); [|exact H].
  apply filter_In in H. apply H.
Qed.

End ChainFacts.

(** ** [SequenceMatcher] on two equal sequences

    When [a] and [b] are the same sequence [l], the longest match of the
    full window is the whole of [l]: the table of run lengths is the
    largest on the diagonal, also when popular elements are left out of
    [b2j]. *)

Module SameFacts.
Import Difflib ChainFacts Aux.

Section Same.

Variable l : list string.

Local Abbreviation n := (List.length l).
Local Abbreviation is_key := (Aux.is_key l).
Local Abbreviation cell := (Aux.cell l).
Local Abbreviation run := (Aux.run l).
Local Abbreviation prev := (Aux.prev l).
Local Abbreviation row_js := (Aux.row_js l).

Lemma run_eq (i j : nat) :
  run i j = if cell i j then S (prev i j) else 0.
Proof. destruct i; reflexivity. Qed.

Lemma row_js_In (i j : nat) :
  i < n -> (In j (row_js i) <-> cell i j = true).
Proof.
  intros Hi. unfold Aux.row_js, Aux.cell, Aux.is_key.
  apply Nat.ltb_lt in Hi. rewrite Hi. simpl.
  destruct (dict_get (chain_b l) (seq_item l i)) as [js|] eqn:E.
  - apply chain_b_get in E. subst js. rewrite positions_In.
    rewrite andb_true_r, andb_true_iff, Nat.ltb_lt, String.eqb_eq.
    intuition congruence.
  - rewrite andb_false_r. simpl. intuition discriminate.
Qed.

Lemma row_js_increasing (i : nat) : increasing (row_js i).
Proof.
  unfold Aux.row_js.
  destruct (dict_get (chain_b l) (seq_item l i)) as [js|] eqn:E.
  - apply chain_b_get in E. subst js. apply positions_from_increasing.
  - constructor.
Qed.

Lemma cell_diag (i j : nat) :
  cell i j = true -> cell (Nat.min i j) (Nat.min i j) = true.
Proof.
  unfold Aux.cell. intros H.
  apply andb_true_iff in H as [H Hk]. apply andb_true_iff in H as [H He].
  apply andb_true_iff in H as [Hi Hj].
  apply Nat.ltb_lt in Hi, Hj. apply String.eqb_eq in He.
  destruct (Nat.min_spec i j) as [[_ ->]|[_ ->]].
  - apply Nat.ltb_lt in Hi. rewrite Hi, String.eqb_refl, Hk. reflexivity.
  - apply Nat.ltb_lt in Hj. rewrite Hj, String.eqb_refl, <- He, Hk.
    reflexivity.
Qed.

(** No run is longer than the run that ends on the diagonal in the same
    row or column, whichever comes first. *)
Lemma run_diag (i j : nat) :
  run i j <= run (Nat.min i j) (Nat.min i j).
Proof.
  revert j. induction i as [|i IH]; intros j.
  - rewrite (run_eq 0 j). destruct (cell 0 j) eqn:E; [|lia].
    apply cell_diag in E. simpl Nat.min in *.
    rewrite (run_eq 0 0), E. simpl. lia.
  - rewrite (run_eq (S i) j). destruct (cell (S i) j) eqn:E; [|lia].
    apply cell_diag in E. rewrite (run_eq (Nat.min (S i) j)), E.
    destruct j as [|j].
    + simpl. lia.
    + simpl Nat.min. simpl prev. specialize (IH j). lia.
Qed.

Lemma run_cell (i j : nat) : 1 <= run i j -> cell i j = true.
Proof. rewrite run_eq. destruct (cell i j); [reflexivity | lia]. Qed.

Lemma increasing_head (j : nat) (js : list nat) (i : nat) :
  increasing (j :: js) -> i < j -> ~ In i (j :: js).
Proof.
  intros H Hi [->|Hin]; [lia|].
  inversion H as [|? ? Hlt _]; subst. specialize (Hlt _ Hin). lia.
Qed.

Lemma j2len_get_spec (d : list (nat * nat)) (f : nat -> nat) :
  (forall j k, In (j, k) d -> k = f j) ->
  (forall j, ~ In j (map fst d) -> f j = 0) ->
  forall j, j2len_get d j = match j with 0 => 0 | S j' => f j' end.
Proof.
  intros Hv Hk [|j]; [reflexivity|]. unfold j2len_get.
  destruct (find (fun kv => fst kv =? j) d) as [[j0 k0]|] eqn:E.
  - apply find_some in E as [Hin Hj]. simpl in Hj.
    apply Nat.eqb_eq in Hj. subst j0. simpl. apply Hv, Hin.
  - symmetry. apply Hk. intros Hin. apply in_map_iff in Hin.
    destruct Hin as ([j0 k0] & Hj & Hin). simpl in Hj. subst j0.
    pose proof (find_none _ _ E _ Hin) as F. simpl in F.
    rewrite Nat.eqb_refl in F. discriminate.
Qed.

Lemma scan_row_same (i : nat) (j2len : list (nat * nat)) :
  i < n ->
  (forall j, j2len_get j2len j = prev i j) ->
  forall (todo : list nat) (new : list (nat * nat)) (best : Match),
    increasing todo ->
    (forall j, In j todo -> cell i j = true) ->
    (forall j, cell i j = true -> ~ In j todo -> In j (map fst new)) ->
    (forall j k, In (j, k) new -> k = run i j) ->
    (forall j, cell i j = true -> ~ In j todo -> run i j <= m_size best) ->
    (forall i' j, i' < i -> run i' j <= m_size best) ->
    m_a best = m_b best ->
    (forall j, j2len_get (fst (scan_row 0 n i todo j2len new best)) j
               = prev (S i) j)
    /\ m_a (snd (scan_row 0 n i todo j2len new best))
       = m_b (snd (scan_row 0 n i todo j2len new best))
    /\ (forall i' j, i' < S i ->
          run i' j <= m_size (snd (scan_row 0 n i todo j2len new best))).
Proof.
  intros Hi Hold.
  induction todo as [|j todo IH];
    intros new best Hinc Htodo Hkeys Hvals Hdone Hprev Hdiag;
    cbn [scan_row].
  - cbn [fst snd]. split; [|split; [exact Hdiag|]].
    + apply (j2len_get_spec new (run i)); [exact Hvals|].
      intros j Hj. rewrite run_eq.
      destruct (cell i j) eqn:E; [|reflexivity].
      exfalso. apply Hj, Hkeys; auto.
    + intros i' j Hi'.
      destruct (Nat.eq_dec i' i) as [->|]; [|apply Hprev; lia].
      destruct (cell i j) eqn:E; [apply Hdone; auto|].
      rewrite run_eq, E. lia.
  - assert (Hc : cell i j = true) by (apply Htodo; left; reflexivity).
    assert (Hjn : j < n).
    { unfold Aux.cell in Hc. apply andb_true_iff in Hc as [Hc _].
      apply andb_true_iff in Hc as [Hc _].
      apply andb_true_iff in Hc as [_ Hc]. apply Nat.ltb_lt, Hc. }
    change (j <? 0) with false. cbn iota.
    replace (n <=? j) with false by (symmetry; apply Nat.leb_gt, Hjn).
    assert (Hk : j2len_get j2len j + 1 = run i j).
    { rewrite Hold, (run_eq i j), Hc. lia. }
    rewrite Hk.
    inversion Hinc as [|? ? Hlt Hinc']; subst.
    apply IH; clear IH.
    + exact Hinc'.
    + intros j0 Hj0. apply Htodo. right. exact Hj0.
    + intros j0 Hj0 Hnot. simpl.
      destruct (Nat.eq_dec j j0) as [->|]; [left; reflexivity|].
      right. apply Hkeys; [exact Hj0|]. intros [E|Hin]; auto.
    + intros j0 k0 [[= <- <-]|Hin]; [reflexivity | apply Hvals, Hin].
    + intros j0 Hj0 Hnot.
      destruct (Nat.eq_dec j j0) as [<-|Hne].
      * destruct (m_size best <? run i j) eqn:E; cbn [m_size].
        -- lia.
        -- apply Nat.ltb_ge in E. exact E.
      * assert (H0 : run i j0 <= m_size best).
        { apply Hdone; [exact Hj0|]. intros [E|Hin]; auto. }
        destruct (m_size best <? run i j) eqn:E; cbn [m_size]; [|exact H0].
        apply Nat.ltb_lt in E. lia.
    + intros i' j0 Hi'. specialize (Hprev i' j0 Hi').
      destruct (m_size best <? run i j) eqn:E; cbn [m_size]; [|exact Hprev].
      apply Nat.ltb_lt in E. lia.
    + destruct (m_size best <? run i j) eqn:E; [|exact Hdiag].
      apply Nat.ltb_lt in E. cbn [m_a m_b].
      assert (j = i); [|subst; reflexivity].
      pose proof (run_diag i j) as Hd.
      destruct (Nat.lt_trichotomy j i) as [Hlt'|[->|Hgt]];
        [exfalso | reflexivity | exfalso].
      * rewrite Nat.min_r in Hd by lia.
        specialize (Hprev j j Hlt'). lia.
      * rewrite Nat.min_l in Hd by lia.
        assert (Hii : cell i i = true) by (apply run_cell; lia).
        assert (H0 : run i i <= m_size best).
        { apply Hdone; [exact Hii|].
          apply increasing_head; [exact Hinc | exact Hgt]. }
        lia.
Qed.

Lemma scan_rows_same :
  forall (len i : nat) (j2len : list (nat * nat)) (best : Match),
    i + len <= n ->
    (forall j, j2len_get j2len j = prev i j) ->
    (forall i' j, i' < i -> run i' j <= m_size best) ->
    m_a best = m_b best ->
    m_a (scan_rows l l 0 n (seq i len) j2len best)
    = m_b (scan_rows l l 0 n (seq i len) j2len best).
Proof.
  induction len as [|len IH]; intros i j2len best Hlen Hold Hprev Hdiag;
    cbn [seq scan_rows].
  - exact Hdiag.
  - fold (Aux.row_js l i).
    assert (Hi : i < n) by lia.
    destruct (scan_row_same i j2len Hi Hold (row_js i) [] best)
      as (H1 & H2 & H3).
    + apply row_js_increasing.
    + intros j Hj. apply row_js_In; assumption.
    + intros j Hj Hnot. exfalso. apply Hnot, row_js_In; assumption.
    + intros j k [].
    + intros j Hj Hnot. exfalso. apply Hnot, row_js_In; assumption.
    + exact Hprev.
    + exact Hdiag.
    + destruct (scan_row 0 n i (row_js i) j2len [] best) as [new best'].
      cbn [fst snd] in H1, H2, H3.
      apply IH; [lia | exact H1 | exact H3 | exact H2].
Qed.

Lemma extend_back_same (junk : bool) (d size : nat) :
  m_a (extend_back l l junk 0 0 d d size)
  = m_b (extend_back l l junk 0 0 d d size)
  /\ (junk = false -> extend_back l l junk 0 0 d d size
                      = mkMatch 0 0 (size + d)).
Proof.
  revert size. induction d as [|d IH]; intros size; cbn [extend_back].
  - split; [reflexivity|]. intros _. rewrite Nat.add_0_r. reflexivity.
  - rewrite String.eqb_refl. unfold isbjunk.
    destruct junk; cbn.
    + split; [reflexivity | discriminate].
    + destruct (IH (S size)) as [H1 H2]. split; [exact H1|].
      intros _. rewrite H2 by reflexivity. f_equal. lia.
Qed.

Lemma extend_fwd_same (fuel size : nat) :
  size + fuel = n ->
  extend_fwd l l false fuel n n 0 0 size = mkMatch 0 0 n.
Proof.
  revert size. induction fuel as [|fuel IH]; intros size H;
    cbn [extend_fwd].
  - f_equal. lia.
  - cbn [Nat.add]. rewrite String.eqb_refl. unfold isbjunk. cbn [Bool.eqb].
    replace (size <? n) with true by (symmetry; apply Nat.ltb_lt; lia).
    cbn. apply IH. lia.
Qed.

Lemma extend_junk_same :
  extend l l true 0 n 0 n (mkMatch 0 0 n) = mkMatch 0 0 n.
Proof.
  unfold extend. cbn [extend_back m_a m_b m_size].
  rewrite Nat.sub_diag. reflexivity.
Qed.

(** The longest match of a sequence with itself is the whole sequence. *)
Lemma find_longest_match_same :
  find_longest_match l l 0 n 0 n = mkMatch 0 0 n.
Proof.
  unfold find_longest_match. rewrite Nat.sub_0_r.
  pose proof (scan_rows_same n 0 [] (mkMatch 0 0 0)) as Hd.
  pose proof (DifflibFacts.scan_rows_within l l 0 n 0 n 0 []
                (mkMatch 0 0 0)) as Hw.
  set (best := scan_rows l l 0 n (seq 0 n) [] (mkMatch 0 0 0)) in *.
  assert (Hdiag : m_a best = m_b best).
  { apply Hd; [lia | | intros; lia | reflexivity].
    intros j. rewrite DifflibFacts.j2len_get_nil. reflexivity. }
  destruct Hw as [_ Hw].
  { lia. }
  { intros j. rewrite DifflibFacts.j2len_get_nil. lia. }
  { split; simpl; lia. }
  simpl in Hw.
  assert (E : extend l l false 0 n 0 n best = mkMatch 0 0 n).
  { unfold extend. rewrite <- Hdiag.
    destruct (extend_back_same false (m_a best) (m_size best)) as [_ H].
    rewrite H by reflexivity. cbn [m_a m_b m_size].
    apply extend_fwd_same. lia. }
  rewrite E. apply extend_junk_same.
Qed.

End Same.

(** *** No diff between equal sequences *)

Lemma matching_blocks_loop_same (l : list string) :
  matching_blocks_loop l l
  = Some (if List.length l =? 0 then []
          else [mkMatch 0 0 (List.length l)]).
Proof.
  unfold matching_blocks_loop, queue_fuel.
  replace (2 * List.length l + 2) with (S (S (2 * List.length l))) by lia.
  cbn [match_queue]. rewrite find_longest_match_same. cbn [m_a m_b m_size].
  destruct (List.length l =? 0); [reflexivity|].
  rewrite Nat.ltb_irrefl. cbn [andb app]. reflexivity.
Qed.

Lemma get_opcodes_same (l : list string) :
  get_opcodes l l
  = if List.length l =? 0 then []
    else [mkOp Equal 0 (List.length l) 0 (List.length l)].
Proof.
  unfold get_opcodes, get_matching_blocks.
  rewrite matching_blocks_loop_same.
  destruct (List.length l) as [|m] eqn:E; [reflexivity|].
  cbn -[Nat.ltb]. rewrite !Nat.ltb_irrefl. reflexivity.
Qed.

(** [unified_diff] of a sequence with itself prints nothing. *)
Lemma unified_diff_same (l : list string) : unified_diff l l 0 = [].
Proof.
  unfold unified_diff, get_grouped_opcodes. rewrite get_opcodes_same.
  destruct (List.length l) as [|m]; [reflexivity|].
  cbn -[Nat.ltb Nat.sub Nat.min Nat.max Nat.add].
  rewrite !Nat.sub_0_r, !Nat.max_r, !Nat.add_0_r, !Nat.min_id by lia.
  cbn -[Nat.ltb Nat.sub]. rewrite Nat.sub_diag. reflexivity.
Qed.

End SameFacts.

(** ** The hunk headers name lines of the new sequence *)

Module BoundFacts.
Import Difflib Aux.

Lemma ops_ok_le (lb j j' : nat) (codes : list opcode) :
  ops_ok lb j codes j' -> j <= j'.
Proof. induction 1; lia. Qed.

Lemma ops_ok_in_b (lb j j' : nat) (codes : list opcode) :
  ops_ok lb j codes j' -> j' <= lb -> Forall (in_b lb) codes.
Proof.
  induction 1 as [j|o ops j' H1 H2 H3 H4 H5 IH]; intros Hle.
  - constructor.
  - pose proof (ops_ok_le _ _ _ _ H5) as Hle2.
    constructor; [unfold in_b; lia | apply IH, Hle].
Qed.

Lemma fix_first_in_b (lb n : nat) (codes : list opcode) :
  Forall (in_b lb) codes -> Forall (in_b lb) (fix_first n codes).
Proof.
  intros H. destruct H as [|o rest [H1 H2] Hrest]; cbn [fix_first].
  - constructor.
  - destruct (is_equal o); constructor; try assumption;
      unfold in_b in *; cbn [op_j1 op_j2]; lia.
Qed.

Lemma fix_last_in_b (lb n : nat) (codes : list opcode) :
  Forall (in_b lb) codes -> Forall (in_b lb) (fix_last n codes).
Proof.
  induction 1 as [|o rest [H1 H2] Hrest IH].
  - constructor.
  - destruct rest as [|o' rest'].
    + cbn [fix_last]. destruct (is_equal o); constructor;
        try constructor; unfold in_b in *; cbn [op_j1 op_j2]; lia.
    + change (fix_last n (o :: o' :: rest'))
        with (o :: fix_last n (o' :: rest')).
      constructor; [split; assumption | exact IH].
Qed.

Lemma group_codes_in_b (lb n : nat) :
  forall (codes group : list opcode),
    Forall (in_b lb) codes -> Forall (in_b lb) group ->
    Forall (Forall (in_b lb)) (group_codes n codes group).
Proof.
  induction codes as [|o codes IH]; intros group Hc Hg;
    cbn [group_codes].
  - destruct group as [|o [|o' g]].
    + constructor.
    + destruct (is_equal o); [constructor|].
      constructor; [exact Hg | constructor].
    + constructor; [exact Hg | constructor].
  - inversion Hc as [|? ? [H1 H2] Hrest]; subst.
    destruct (is_equal o && (n + n <? op_i2 o - op_i1 o)).
    + constructor.
      * apply Forall_app. split; [exact Hg|].
        constructor; [|constructor].
        unfold in_b. cbn [op_j1 op_j2]. lia.
      * apply IH; [exact Hrest|].
        constructor; [|constructor].
        unfold in_b. cbn [op_j1 op_j2]. lia.
    + apply IH; [exact Hrest|].
      apply Forall_app. split; [exact Hg|].
      constructor; [split; assumption | constructor].
Qed.

Lemma get_grouped_opcodes_in_b (a b : list string) (n : nat) :
  Forall (Forall (in_b (List.length b))) (get_grouped_opcodes a b n).
Proof.
  unfold get_grouped_opcodes.
  pose proof (OpFacts.get_opcodes_ok a b) as Hok.
  destruct (get_opcodes a b) as [|o codes] eqn:E.
  - destruct n; cbn; constructor.
  - apply group_codes_in_b; [|constructor].
    apply fix_last_in_b, fix_first_in_b.
    apply (ops_ok_in_b _ _ _ _ Hok). apply Nat.le_refl.
Qed.

Lemma hd_in_b (lb : nat) (g : list opcode) :
  Forall (in_b lb) g -> in_b lb (hd (mkOp Equal 0 0 0 0) g).
Proof.
  intros [|o rest Ho _]; [split; cbn; lia | exact Ho].
Qed.

Lemma last_in_b (lb : nat) (g : list opcode) :
  Forall (in_b lb) g -> in_b lb (List.last g (mkOp Equal 0 0 0 0)).
Proof.
  induction 1 as [|o rest Ho Hrest IH]; [split; cbn; lia|].
  destruct rest as [|o' rest']; [exact Ho | exact IH].
Qed.

Lemma group_start_le (lb : nat) (g : list opcode) :
  Forall (in_b lb) g -> group_start g <= lb.
Proof.
  intros H. unfold group_start, range_start.
  destruct (hd_in_b lb g H) as [H1 _].
  destruct (last_in_b lb g H) as [_ H2].
  destruct (op_j2 (List.last g (mkOp Equal 0 0 0 0))
            - op_j1 (hd (mkOp Equal 0 0 0 0) g) =? 0) eqn:E.
  - exact H1.
  - apply Nat.eqb_neq in E. lia.
Qed.

(** The header of every hunk of [unified_diff] names a line of [b], or
    0 when [b] has none. *)
Lemma get_grouped_opcodes_start (a b : list string) (n : nat) :
  Forall (fun g => group_start g <= List.length b)
         (get_grouped_opcodes a b n).
Proof.
  pose proof (get_grouped_opcodes_in_b a b n) as H.
  rewrite Forall_forall in *. intros g Hg.
  apply group_start_le, H, Hg.
Qed.

End BoundFacts.

(** ** The lines that [unified_diff] prints *)

Module DiffLines.
Import Difflib Aux.

Lemma slice_In (l : list string) (i1 i2 : nat) (x : string) :
  In x (slice l i1 i2) -> In x l.
Proof.
  unfold slice. intros H.
  rewrite <- (firstn_skipn i1 l). apply in_or_app. right.
  rewrite <- (firstn_skipn (i2 - i1) (skipn i1 l)).
  apply in_or_app. left. exact H.
Qed.

Lemma opcode_lines_kind (a b : list string) (o : opcode) (line : string) :
  In line (opcode_lines a b o) -> diff_line a b line.
Proof.
  unfold opcode_lines.
  destruct (op_tag o); intros H;
    try apply in_app_or in H; try destruct H as [H|H];
    apply in_map_iff in H; destruct H as (x & <- & Hx);
    apply slice_In in Hx; constructor; exact Hx.
Qed.

Lemma unified_diff_kind (a b : list string) (n : nat) (line : string) :
  In line (unified_diff a b n) -> diff_line a b line.
Proof.
  unfold unified_diff.
  pose proof (BoundFacts.get_grouped_opcodes_start a b n) as Hb.
  destruct (get_grouped_opcodes a b n) as [|g gs]; [intros []|].
  intros [<-|[<-|H]]; [apply dl_from | apply dl_to|].
  apply in_flat_map in H. destruct H as (group & Hg & H).
  destruct H as [<-|H].
  - apply dl_hunk. rewrite Forall_forall in Hb. apply Hb, Hg.
  - apply in_flat_map in H. destruct H as (o & _ & H).
    apply opcode_lines_kind with (o := o), H.
Qed.

Lemma hunk_header_prefix (group : list opcode) :
  Py.startswith (hunk_header group) "+" = false.
Proof. reflexivity. Qed.

(** A printed line that starts with a plus sign is the ["+++ "] of the
    file header or a line of [b] behind a plus sign. *)
Lemma unified_diff_plus (a b : list string) (n : nat) (line : string) :
  In line (unified_diff a b n) ->
  Py.startswith line "+" = true ->
  line = "+++ " \/ exists x, In x b /\ line = String "+" x.
Proof.
  intros H Hp. apply unified_diff_kind in H.
  destruct H as [| |g|x Hx|x Hx|x Hx]; try discriminate Hp; eauto.
Qed.

End DiffLines.

(** ** The scanner *)

Module ScanFacts.
Import Markers Aux.

Section Engine.

Variable re_search : string -> string -> result bool.
Variable filename : string.

Local Abbreviation found_in := (Aux.found_in re_search).
Local Abbreviation line_errors := (Aux.line_errors re_search filename).
Local Abbreviation error_from := (Aux.error_from re_search filename).

Lemma match_patterns_ok (patterns : list string) (line : string)
  (line_number : Z) (errors : list string) :
  (forall p, In p patterns -> exists found, re_search p line = Ok found) ->
  match_patterns re_search filename patterns line line_number errors
  = Ok (errors ++ line_errors patterns line line_number).
Proof.
  revert errors. induction patterns as [|p ps IH]; intros errors H; simpl.
  - unfold Aux.line_errors. simpl. rewrite app_nil_r. reflexivity.
  - destruct (H p (or_introl eq_refl)) as [found Hf].
    rewrite Hf. simpl. rewrite IH by (intros q Hq; apply H; right; exact Hq).
    unfold Aux.line_errors, Aux.found_in. simpl. rewrite Hf.
    destruct found; simpl; [rewrite <- app_assoc|]; reflexivity.
Qed.

(** Whatever the engine answers, the errors that come back carry the
    patterns found in the line, in the order of the list. *)
Lemma match_patterns_result (patterns : list string) (line : string)
  (line_number : Z) (errors r : list string) :
  match_patterns re_search filename patterns line line_number errors = Ok r ->
  r = errors ++ line_errors patterns line line_number.
Proof.
  revert errors. induction patterns as [|p ps IH]; intros errors; simpl.
  - intros [= <-]. unfold Aux.line_errors. simpl. rewrite app_nil_r.
    reflexivity.
  - unfold Aux.line_errors, Aux.found_in. simpl.
    destruct (re_search p line) as [found|e]; simpl; [|discriminate].
    intros H. apply IH in H. subst r.
    destruct found; simpl; [rewrite <- app_assoc|]; reflexivity.
Qed.

Lemma tested_plus (x : string) :
  Py.strip (String "+" x) <> "+++" -> tested (String "+" x) = true.
Proof.
  intros H. unfold tested.
  replace (Py.startswith (String "+" x) "+") with true
    by (destruct x; reflexivity).
  apply negb_true_iff, String.eqb_neq, H.
Qed.

Lemma tested_false (line : string) :
  tested line = false ->
  negb (Py.startswith line "+") || String.eqb (Py.strip line) "+++" = true.
Proof.
  unfold tested. destruct (Py.startswith line "+"); simpl; auto.
  intros H. apply negb_false_iff in H. exact H.
Qed.

Lemma tested_true (line : string) :
  tested line = true ->
  Py.startswith line "+" = true
  /\ negb (Py.startswith line "+") || String.eqb (Py.strip line) "+++"
     = false
  /\ Py.startswith line "@@" = false.
Proof.
  unfold tested. intros H. apply andb_true_iff in H as [H1 H2].
  rewrite H1. apply negb_true_iff in H2. rewrite H2.
  repeat split.
  destruct line as [|c line]; [discriminate|].
  unfold Py.startswith in *. cbn [String.prefix] in *.
  destruct (Ascii.ascii_dec "+" c) as [<-|]; [reflexivity|].
  discriminate H1.
Qed.

(** A line that is not let through leaves the errors alone; the counter
    changes only at a hunk header. *)
Lemma scan_line_skipped (error_patterns : option (list string))
  (errors : list string) (line_number : Z) (line : string)
  (st : list string * Z) :
  tested line = false ->
  scan_line re_search filename error_patterns (errors, line_number) line
  = Ok st ->
  fst st = errors
  /\ (Py.startswith line "@@" = false -> snd st = line_number).
Proof.
  intros Ht. unfold scan_line.
  destruct (Py.startswith line "@@").
  - destruct (parse_line_number line) as [n|e]; simpl; [|discriminate].
    rewrite (tested_false line Ht). intros [= <-]. split; auto.
    discriminate.
  - simpl. rewrite (tested_false line Ht). intros [= <-]. split; auto.
Qed.

(** A line that is let through is tried against every pattern, in the
    order of the list; each pattern found adds one error, and the line
    takes one line number. *)
Lemma scan_line_tested (patterns : list string) (errors : list string)
  (line_number : Z) (line : string) (st : list string * Z) :
  tested line = true ->
  scan_line re_search filename (Some patterns) (errors, line_number) line
  = Ok st ->
  st = (errors ++ line_errors patterns line line_number,
        (line_number + 1)%Z).
Proof.
  intros Ht. destruct (tested_true line Ht) as (H1 & H2 & H3).
  unfold scan_line. rewrite H3. simpl. rewrite H2, H1.
  unfold for_patterns.
  destruct (match_patterns re_search filename patterns line line_number
              errors) as [r|e] eqn:E; simpl; [|discriminate].
  apply match_patterns_result in E. intros [= <-]. rewrite E. reflexivity.
Qed.

Lemma scan_line_tested_ok (patterns : list string) (errors : list string)
  (line_number : Z) (line : string) :
  tested line = true ->
  (forall p, In p patterns -> exists found, re_search p line = Ok found) ->
  scan_line re_search filename (Some patterns) (errors, line_number) line
  = Ok (errors ++ line_errors patterns line line_number,
        (line_number + 1)%Z).
Proof.
  intros Ht Hok. destruct (tested_true line Ht) as (H1 & H2 & H3).
  unfold scan_line. rewrite H3. simpl. rewrite H2, H1.
  unfold for_patterns. rewrite match_patterns_ok by exact Hok.
  reflexivity.
Qed.

Lemma scan_app (error_patterns : option (list string))
  (l1 l2 : list string) (st : list string * Z) :
  scan re_search filename error_patterns (l1 ++ l2) st
  = (st' <- scan re_search filename error_patterns l1 st ;;
     scan re_search filename error_patterns l2 st').
Proof.
  revert st. induction l1 as [|x l1 IH]; intros st; simpl.
  - reflexivity.
  - destruct (scan_line re_search filename error_patterns st x); simpl;
      [apply IH | reflexivity].
Qed.

(** The errors grow at the end only. *)
Lemma scan_line_extends (error_patterns : option (list string))
  (st st' : list string * Z) (line : string) :
  scan_line re_search filename error_patterns st line = Ok st' ->
  exists more, fst st' = fst st ++ more.
Proof.
  destruct st as [errors ln]. intros H.
  destruct (tested line) eqn:Ht.
  - destruct error_patterns as [ps|].
    + apply scan_line_tested in H; [|exact Ht]. subst st'. simpl. eauto.
    + destruct (tested_true line Ht) as (H1 & H2 & H3).
      unfold scan_line in H. rewrite H3 in H. simpl in H.
      rewrite H2 in H. discriminate.
  - apply scan_line_skipped in H; [|exact Ht].
    exists []. rewrite app_nil_r. apply H.
Qed.

Lemma scan_extends (error_patterns : option (list string))
  (lines : list string) (st st' : list string * Z) :
  scan re_search filename error_patterns lines st = Ok st' ->
  exists more, fst st' = fst st ++ more.
Proof.
  revert st. induction lines as [|x lines IH]; intros st; simpl.
  - intros [= <-]. exists []. rewrite app_nil_r. reflexivity.
  - destruct (scan_line re_search filename error_patterns st x)
      as [st1|e] eqn:E; simpl; [|discriminate].
    intros H. apply IH in H. destruct H as [m2 H2].
    apply scan_line_extends in E. destruct E as [m1 H1].
    exists (m1 ++ m2). rewrite H2, H1, app_assoc. reflexivity.
Qed.

Lemma line_errors_from (patterns lines : list string) (line : string)
  (line_number : Z) (e : string) :
  In line lines -> tested line = true ->
  In e (line_errors patterns line line_number) ->
  error_from patterns lines e.
Proof.
  intros Hl Ht H. unfold Aux.line_errors in H.
  apply in_map_iff in H. destruct H as (p & <- & Hp).
  apply filter_In in Hp. destruct Hp as [Hp Hf].
  exists p, line, line_number. repeat split; auto.
  unfold Aux.found_in in Hf.
  destruct (re_search p line) as [[]|]; try discriminate. reflexivity.
Qed.

Lemma scan_errors_from (patterns : list string) (all : list string) :
  forall (lines : list string) (st st' : list string * Z),
    (forall x, In x lines -> In x all) ->
    (forall e, In e (fst st) -> error_from patterns all e) ->
    scan re_search filename (Some patterns) lines st = Ok st' ->
    forall e, In e (fst st') -> error_from patterns all e.
Proof.
  induction lines as [|x lines IH]; intros st st' Hsub Hst; simpl.
  - intros [= <-]. exact Hst.
  - destruct (scan_line re_search filename (Some patterns) st x)
      as [st1|e1] eqn:E; simpl; [|discriminate].
    apply IH; [intros y Hy; apply Hsub; right; exact Hy|].
    destruct st as [errors ln].
    destruct (tested x) eqn:Ht.
    + apply scan_line_tested in E; [|exact Ht]. subst st1. simpl.
      intros e He. apply in_app_or in He. destruct He as [He|He].
      * apply Hst, He.
      * apply line_errors_from with (line := x) (line_number := ln); auto.
        apply Hsub. left. reflexivity.
    + apply scan_line_skipped in E; [|exact Ht].
      destruct E as [E _]. rewrite E. exact Hst.
Qed.

(** On a hunk header the scanner sets its counter to what [int] reads
    of the first new line, and fails when [int] does. *)
Lemma scan_line_hunk (error_patterns : option (list string))
  (errors : list string) (line_number : Z) (g : list Difflib.opcode) :
  scan_line re_search filename error_patterns (errors, line_number)
            (Difflib.hunk_header g)
  = (n <- read_back (Z.of_nat (group_start g)) ;; Ok (errors, n)).
Proof.
  unfold scan_line.
  change (Py.startswith (Difflib.hunk_header g) "@@") with true.
  cbn iota. rewrite HeaderFacts.parse_hunk_header.
  destruct (read_back (Z.of_nat (group_start g))); reflexivity.
Qed.

(** *** The scanner does not fail on the lines of [unified_diff]

    The header parser reads the number of a line of [b], which [int]
    converts when [b] is not longer than the limit on digits allows. *)

Lemma scan_line_untested (a b : list string)
  (error_patterns : option (list string)) (errors : list string)
  (line_number : Z) (line : string) :
  within_int_limit (List.length b) ->
  diff_line a b line -> tested line = false ->
  exists n,
    scan_line re_search filename error_patterns (errors, line_number) line
    = Ok (errors, n).
Proof.
  intros Hlim Hk Ht. pose proof (tested_false line Ht) as Hg.
  unfold scan_line.
  destruct Hk as [| |g Hb|x Hx|x Hx|x Hx].
  - eexists; reflexivity.
  - eexists; reflexivity.
  - change (Py.startswith (Difflib.hunk_header g) "@@") with true.
    cbn iota. rewrite HeaderFacts.parse_hunk_header.
    rewrite (read_back_within (List.length b)) by (exact Hlim || lia).
    cbn [bind]. rewrite Hg. eauto.
  - eexists; reflexivity.
  - eexists; reflexivity.
  - change (Py.startswith (String "+" x) "@@") with false.
    cbn [bind]. rewrite Hg. eauto.
Qed.

Lemma scan_untested (a b : list string)
  (error_patterns : option (list string)) (errors : list string) :
  within_int_limit (List.length b) ->
  forall (lines : list string) (line_number : Z),
    (forall x, In x lines ->
               diff_line a b x /\ tested x = false) ->
    exists n,
      scan re_search filename error_patterns lines (errors, line_number)
      = Ok (errors, n).
Proof.
  intros Hlim.
  induction lines as [|x lines IH]; intros line_number H; cbn [scan].
  - eauto.
  - destruct (H x (or_introl eq_refl)) as [Hk Ht].
    destruct (scan_line_untested a b error_patterns errors line_number x
                Hlim Hk Ht) as [n ->].
    cbn [bind]. apply IH. intros y Hy. apply H. right. exact Hy.
Qed.

(** When the engine answers on every pattern, the scan of a diff comes
    to its end. *)
Lemma scan_total (a b : list string) (patterns : list string) :
  within_int_limit (List.length b) ->
  (forall p s, In p patterns -> exists found, re_search p s = Ok found) ->
  forall (lines : list string) (st : list string * Z),
    (forall x, In x lines -> diff_line a b x) ->
    exists st', scan re_search filename (Some patterns) lines st = Ok st'.
Proof.
  intros Hlim Hre.
  induction lines as [|x lines IH]; intros st H; cbn [scan].
  - eauto.
  - destruct st as [errors n].
    assert (E : exists st1,
               scan_line re_search filename (Some patterns) (errors, n) x
               = Ok st1).
    { destruct (tested x) eqn:Ht.
      - rewrite scan_line_tested_ok; eauto.
      - destruct (scan_line_untested a b (Some patterns) errors n x
                    Hlim (H x (or_introl eq_refl)) Ht) as [n' ->]. eauto. }
    destruct E as [st1 ->]. cbn [bind]. apply IH.
    intros y Hy. apply H. right. exact Hy.
Qed.

End Engine.

End ScanFacts.

(** ** The line numbers of the errors *)

Module LineFacts.
Import Difflib Markers Aux ScanFacts OpFacts.

Lemma slice_nth (b : list string) (j1 j2 k : nat) (x : string) :
  nth_error (slice b j1 j2) k = Some x -> nth_error b (j1 + k) = Some x.
Proof.
  unfold slice. rewrite nth_error_firstn.
  destruct (k <? j2 - j1); [|discriminate].
  rewrite nth_error_skipn. auto.
Qed.

Lemma slice_length (b : list string) (j1 j2 : nat) :
  j2 <= List.length b -> List.length (slice b j1 j2) = j2 - j1.
Proof.
  intros H. unfold slice. rewrite length_firstn, length_skipn. lia.
Qed.

Section Lines.

Variable re_search : string -> string -> result bool.
Variable filename : string.
Variable patterns : list string.
Variables a b : list string.

(** No line of the new file is taken for the header of the diff. *)
Hypothesis Hplus : forall x, In x b -> tested (String "+" x) = true.

Local Abbreviation located := (located re_search filename patterns b).
Local Abbreviation scan := (scan re_search filename (Some patterns)).

Lemma line_errors_located (t : nat) (x e : string) :
  nth_error b t = Some x ->
  In e (line_errors re_search filename patterns (String "+" x)
          (Z.of_nat (S t))) ->
  located e.
Proof.
  intros Hx H. unfold line_errors in H.
  apply in_map_iff in H. destruct H as (p & <- & Hp).
  apply filter_In in Hp. destruct Hp as [Hp Hf].
  exists p, t, x. repeat split; auto.
  unfold found_in in Hf.
  destruct (re_search p (String "+" x)) as [[]|]; try discriminate.
  reflexivity.
Qed.

(** Scanning lines of [b] that stand at the positions [t], [t + 1], ...:
    the errors are located and the counter follows the positions. *)
Lemma scan_added :
  forall (xs : list string) (t : nat) (errors : list string)
         (st : list string * Z),
    (forall k x, nth_error xs k = Some x -> nth_error b (t + k) = Some x) ->
    Forall located errors ->
    scan (map (String "+") xs) (errors, Z.of_nat (S t)) = Ok st ->
    Forall located (fst st)
    /\ snd st = Z.of_nat (S (t + List.length xs)).
Proof.
  induction xs as [|x xs IH]; intros t errors st Hxs Herr H;
    cbn [map Markers.scan] in H.
  - injection H as <-. cbn [fst snd List.length]. rewrite Nat.add_0_r.
    auto.
  - assert (Hx : nth_error b t = Some x).
    { rewrite <- (Nat.add_0_r t). apply Hxs. reflexivity. }
    assert (Ht : tested (String "+" x) = true)
      by (apply Hplus; apply nth_error_In with (n := t); exact Hx).
    destruct (scan_line re_search filename (Some patterns)
                (errors, Z.of_nat (S t)) (String "+" x)) as [st1|e1] eqn:E;
      cbn [bind] in H; [|discriminate].
    apply scan_line_tested in E; [|exact Ht]. subst st1.
    replace (Z.of_nat (S t) + 1)%Z with (Z.of_nat (S (S t))) in H by lia.
    apply IH in H.
    + cbn [List.length]. replace (t + S (List.length xs))
        with (S t + List.length xs) by lia. exact H.
    + intros k y Hk. replace (S t + k) with (t + S k) by lia.
      apply Hxs. exact Hk.
    + apply Forall_app. split; [exact Herr|].
      apply Forall_forall. intros e He.
      apply line_errors_located with (t := t) (x := x); assumption.
Qed.

(** Lines behind a blank or a minus sign change nothing. *)
Lemma scan_quiet (c : ascii) (xs : list string) (st : list string * Z) :
  c = " "%char \/ c = "-"%char ->
  scan (map (String c) xs) st = Ok st.
Proof.
  intros Hc. induction xs as [|x xs IH]; cbn [map Markers.scan];
    [reflexivity|].
  destruct st as [errors n].
  replace (scan_line re_search filename (Some patterns) (errors, n)
             (String c x)) with (Ok (errors, n)).
  - exact IH.
  - destruct Hc as [->| ->]; reflexivity.
Qed.

Lemma scan_app_ok (l1 l2 : list string) (st st' : list string * Z) :
  scan (l1 ++ l2) st = Ok st' ->
  exists st1, scan l1 st = Ok st1 /\ scan l2 st1 = Ok st'.
Proof.
  rewrite ScanFacts.scan_app.
  destruct (scan l1 st) as [st1|e]; cbn [bind]; [eauto | discriminate].
Qed.

(** Scanning the lines of a span whose first new line has the number of
    the counter. *)
Lemma scan_span (g : list opcode) (j j' : nat) :
  span (List.length b) j g j' ->
  forall (errors : list string) (c : Z) (st : list string * Z),
    Forall located errors ->
    (j < j' -> c = Z.of_nat (S j)) ->
    scan (flat_map (opcode_lines a b) g) (errors, c) = Ok st ->
    Forall located (fst st).
Proof.
  induction 1 as [j|o g j' H1 H2 H3 H4 IH]; intros errors c st Herr Hc H.
  - cbn in H. injection H as <-. exact Herr.
  - cbn [flat_map] in H. apply scan_app_ok in H.
    destruct H as (st1 & Ho & Hg).
    pose proof (span_le _ _ _ _ H4) as Hle.
    assert (Hquiet : op_j2 o = op_j1 o -> st1 = (errors, c) ->
                     Forall located (fst st)).
    { intros E ->. apply (IH errors c st Herr); [|exact Hg]. rewrite E.
      exact Hc. }
    assert (Hadded :
              forall st0,
                scan (map (String "+") (slice b (op_j1 o) (op_j2 o)))
                     (errors, c) = Ok st0 ->
                scan (flat_map (opcode_lines a b) g) st0 = Ok st ->
                Forall located (fst st)).
    { intros st0 E0 Eg.
      destruct (Nat.eq_dec (op_j2 o) (op_j1 o)) as [E|E].
      - rewrite E in E0. unfold slice in E0.
        rewrite Nat.sub_diag in E0. cbn in E0. injection E0 as <-.
        apply (IH errors c st Herr); [|exact Eg]. rewrite E. exact Hc.
      - assert (Hb : op_j2 o <= List.length b) by (destruct H3; tauto).
        rewrite Hc in E0 by lia.
        apply scan_added in E0; [|apply slice_nth | exact Herr].
        destruct E0 as [F1 F2]. destruct st0 as [errors0 c0].
        cbn [fst snd] in F1, F2.
        apply (IH errors0 c0 st F1); [|exact Eg].
        intros _. rewrite F2, slice_length by exact Hb.
        f_equal. lia. }
    unfold opcode_lines in Ho. destruct (op_tag o) eqn:Et.
    + apply scan_app_ok in Ho. destruct Ho as (st0 & Hm & Hp).
      rewrite scan_quiet in Hm by auto. injection Hm as <-.
      apply (Hadded st1 Hp Hg).
    + rewrite scan_quiet in Ho by auto. injection Ho as <-.
      apply Hquiet; auto.
    + apply (Hadded st1 Ho Hg).
    + rewrite scan_quiet in Ho by auto. injection Ho as <-.
      apply Hquiet; auto.
Qed.

Lemma scan_group (g : list opcode) (j j' : nat) (errors : list string)
  (c : Z) (st : list string * Z) :
  span (List.length b) j g j' ->
  Forall located errors ->
  scan (group_lines a b g) (errors, c) = Ok st ->
  Forall located (fst st).
Proof.
  intros Hs Herr H. unfold group_lines in H. cbn [Markers.scan] in H.
  rewrite ScanFacts.scan_line_hunk in H.
  destruct (read_back (Z.of_nat (group_start g))) as [n|e] eqn:Er;
    cbn [bind] in H; [|discriminate H].
  apply read_back_ok in Er. subst n.
  apply (scan_span g j j' Hs errors
           (Z.of_nat (group_start g)) st Herr); [|exact H].
  intros Hlt. rewrite (span_start _ _ _ _ Hs Hlt). reflexivity.
Qed.

Lemma scan_groups (groups : list (list opcode)) :
  Forall (fun g => exists j0 j1, span (List.length b) j0 g j1) groups ->
  forall (st st' : list string * Z),
    Forall located (fst st) ->
    scan (flat_map (group_lines a b) groups) st = Ok st' ->
    Forall located (fst st').
Proof.
  induction 1 as [|g groups (j0 & j1 & Hg) Hgs IH]; intros st st' Herr H.
  - cbn in H. injection H as <-. exact Herr.
  - cbn [flat_map] in H. apply scan_app_ok in H.
    destruct H as (st1 & H1 & H2). destruct st as [errors c].
    apply (IH st1 st'); [|exact H2].
    apply (scan_group g j0 j1 errors c st1 Hg Herr H1).
Qed.

End Lines.

(** When no line of the new text reads [+++] behind its plus sign, every
    error of [collect_errors] carries the number of a line of the new text
    in which the pattern was found. *)
Lemma collect_errors_located
  (re_search : string -> string -> result bool)
  (filename new_data old_data : string) (patterns errors : list string) :
  (forall x, In x (Py.splitlines new_data) ->
             tested (String "+" x) = true) ->
  collect_errors re_search filename new_data old_data (Some patterns)
  = Ok errors ->
  Forall (located re_search filename patterns (Py.splitlines new_data))
         errors.
Proof.
  intros Hplus H. unfold collect_errors in H.
  set (a := Py.splitlines old_data) in *.
  set (b := Py.splitlines new_data) in *.
  destruct (scan re_search filename (Some patterns) (unified_diff a b 0)
              ([], 1%Z)) as [st|e] eqn:E; cbn [bind] in H; [|discriminate].
  injection H as <-.
  unfold unified_diff in E.
  pose proof (get_grouped_opcodes_span a b) as Hg.
  destruct (get_grouped_opcodes a b 0) as [|g gs] eqn:Eg.
  - cbn in E. injection E as <-. constructor.
  - cbn [Markers.scan] in E.
    change (scan_line re_search filename (Some patterns) ([], 1%Z) "--- ")
      with (Ok (@nil string, 1%Z)) in E.
    cbn [bind] in E.
    change (scan_line re_search filename (Some patterns) ([], 1%Z) "+++ ")
      with (Ok (@nil string, 1%Z)) in E.
    cbn [bind] in E.
    apply (scan_groups re_search filename patterns a b Hplus (g :: gs) Hg
             ([], 1%Z) st); [constructor | exact E].
Qed.

End LineFacts.

(** ** Agreement of an engine with the fragment *)

Module EngineFacts.
Import Markers Aux.

Lemma models_engine (re_search : string -> string -> result bool)
  (pattern s : string) :
  Re.models re_search -> in_fragment pattern ->
  re_search pattern s = Re.engine pattern s.
Proof.
  intros Hm Hp. unfold Re.engine.
  destruct (Re.search pattern s) as [found|] eqn:E.
  - apply Hm, E.
  - unfold Re.search in E. unfold in_fragment in Hp.
    destruct (Re.parse pattern); [discriminate | contradiction].
Qed.

Lemma match_patterns_models (re_search : string -> string -> result bool)
  (filename : string) (patterns : list string) (line : string) (n : Z)
  (errors : list string) :
  Re.models re_search -> Forall in_fragment patterns ->
  match_patterns re_search filename patterns line n errors
  = match_patterns Re.engine filename patterns line n errors.
Proof.
  intros Hm Hf. revert errors.
  induction Hf as [|p ps Hp Hps IH]; intros errors; simpl.
  - reflexivity.
  - rewrite (models_engine re_search p line Hm Hp).
    destruct (Re.engine p line); simpl; [apply IH | reflexivity].
Qed.

Lemma scan_models (re_search : string -> string -> result bool)
  (filename : string) (patterns : list string) (lines : list string)
  (st : list string * Z) :
  Re.models re_search -> Forall in_fragment patterns ->
  scan re_search filename (Some patterns) lines st
  = scan Re.engine filename (Some patterns) lines st.
Proof.
  intros Hm Hf. revert st.
  induction lines as [|x lines IH]; intros st; simpl; [reflexivity|].
  assert (E : scan_line re_search filename (Some patterns) st x
              = scan_line Re.engine filename (Some patterns) st x).
  { unfold scan_line, for_patterns. destruct st as [errors ln].
    destruct (if Py.startswith x "@@" then parse_line_number x else Ok ln);
      simpl; [|reflexivity].
    destruct (negb (Py.startswith x "+") || String.eqb (Py.strip x) "+++");
      [reflexivity|].
    rewrite (match_patterns_models re_search filename patterns x a errors
               Hm Hf).
    reflexivity. }
  rewrite E. destruct (scan_line Re.engine filename (Some patterns) st x);
    simpl; [apply IH | reflexivity].
Qed.

(** On patterns of the fragment, every engine that agrees with the
    fragment scans as the fragment does. *)
Lemma collect_errors_models (re_search : string -> string -> result bool)
  (filename new_data old_data : string) (patterns : list string) :
  Re.models re_search -> Forall in_fragment patterns ->
  collect_errors re_search filename new_data old_data (Some patterns)
  = collect_errors Re.engine filename new_data old_data (Some patterns).
Proof.
  intros Hm Hf. unfold collect_errors.
  rewrite (scan_models re_search filename patterns _ _ Hm Hf).
  reflexivity.
Qed.

Lemma engine_models : Re.models Re.engine.
Proof.
  intros pattern s found H. unfold Re.engine. rewrite H. reflexivity.
Defined.

End EngineFacts.

(** ** The scanner on whole texts *)

Module CollectFacts.
Import Markers Aux ScanFacts.

(** Every error that [collect_errors] reports comes from a line of the
    new text: the engine found the pattern in that line behind its plus
    sign. *)
Lemma collect_errors_from_new_lines
  (re_search : string -> string -> result bool)
  (filename new_data old_data : string) (patterns errors : list string)
  (e : string) :
  collect_errors re_search filename new_data old_data (Some patterns)
  = Ok errors ->
  In e errors ->
  exists pattern x line_number,
    In pattern patterns /\ In x (Py.splitlines new_data)
    /\ re_search pattern (String "+" x) = Ok true
    /\ e = error_message pattern filename line_number.
Proof.
  unfold collect_errors. intros H He.
  destruct (scan re_search filename (Some patterns)
              (Difflib.unified_diff (Py.splitlines old_data)
                 (Py.splitlines new_data) 0) ([], 1%Z))
    as [st|ex] eqn:E; simpl in H; [|discriminate].
  injection H as <-.
  assert (H0 : forall e0, In e0 (fst (@nil string, 1%Z)) ->
                 error_from re_search filename patterns
                   (Difflib.unified_diff (Py.splitlines old_data)
                      (Py.splitlines new_data) 0) e0)
    by (intros e0 []).
  destruct (scan_errors_from re_search filename patterns _ _ _ _
              (fun x Hx => Hx) H0 E e He)
    as (p & line & n & Hp & Hl & Ht & Hs & ->).
  destruct (tested_true line Ht) as (H1 & _ & _).
  destruct (DiffLines.unified_diff_plus _ _ _ _ Hl H1)
    as [->|(x & Hx & ->)]; [discriminate Ht|].
  exists p, x, n. auto.
Qed.

(** With patterns that the engine accepts, [collect_errors] returns a
    list of errors: neither the diff nor the header parser fails, as long
    as the number of new lines is one that [int] converts. *)
Lemma collect_errors_total
  (re_search : string -> string -> result bool)
  (filename new_data old_data : string) (patterns : list string) :
  within_int_limit (List.length (Py.splitlines new_data)) ->
  (forall p s, In p patterns -> exists found, re_search p s = Ok found) ->
  exists errors,
    collect_errors re_search filename new_data old_data (Some patterns)
    = Ok errors.
Proof.
  intros Hlim Hre. unfold collect_errors.
  destruct (scan_total re_search filename (Py.splitlines old_data)
              (Py.splitlines new_data) patterns Hlim Hre
              (Difflib.unified_diff (Py.splitlines old_data)
                 (Py.splitlines new_data) 0) ([], 1%Z)) as [st ->].
  - intros x. apply DiffLines.unified_diff_kind.
  - simpl. eauto.
Qed.

Lemma within_int_limit_0 : within_int_limit 0.
Proof. apply Nat.leb_le. vm_compute. reflexivity. Qed.

(** A new version without lines (a deleted or emptied file) gives no
    error and no failure, with or without a pattern list. *)
Lemma collect_errors_no_new_lines
  (re_search : string -> string -> result bool)
  (filename new_data old_data : string)
  (error_patterns : option (list string)) :
  Py.splitlines new_data = [] ->
  collect_errors re_search filename new_data old_data error_patterns
  = Ok [].
Proof.
  intros Hnew. unfold collect_errors. rewrite Hnew.
  destruct (scan_untested re_search filename (Py.splitlines old_data) []
              error_patterns [] within_int_limit_0
              (Difflib.unified_diff (Py.splitlines old_data) [] 0) 1%Z)
    as [n ->]; [|reflexivity].
  intros x Hx. split; [apply DiffLines.unified_diff_kind with (n := 0), Hx|].
  destruct (tested x) eqn:Ht; [|reflexivity].
  destruct (tested_true x Ht) as (H1 & _ & _).
  destruct (DiffLines.unified_diff_plus _ _ _ _ Hx H1)
    as [->|(y & [] & _)].
  discriminate Ht.
Qed.

(** The new line of the example of the testable properties is reported
    at line 3. *)
Lemma collect_errors_inserted_line :
  collect_errors Re.engine "f" (text ["a"; "b"; "# xxx"; "c"])
                 (text ["a"; "b"; "c"]) (Some ["# xxx"])
  = Ok ["Error pattern '# xxx' detected at f:3"].
Proof. vm_compute. reflexivity. Qed.

(** A removed marker is not reported by the scanner. *)
Lemma collect_errors_removed_line :
  collect_errors Re.engine "f" EmptyString (text ["# xxx"]) (Some ["# xxx"])
  = Ok [].
Proof. vm_compute. reflexivity. Qed.

(** A hunk header sets the counter to the start it names, whatever the
    counter was. *)
Lemma scan_line_hunk_header
  (re_search : string -> string -> result bool) (filename : string)
  (error_patterns : option (list string)) (errors : list string)
  (line_number : Z) (a b d : string) (n : Z) :
  lacks " " a = true -> lacks " " b = true ->
  all_chars is_digit d = true -> (0 <= n)%Z ->
  String.length (Py.str_of_int n) <= Py.max_str_digits ->
  scan_line re_search filename error_patterns (errors, line_number)
            (header_of a b (Py.str_of_int n) d)
  = Ok (errors, n).
Proof.
  intros Ha Hb Hd Hn Hlen. unfold scan_line.
  rewrite header_startswith, parse_line_number_header by assumption.
  rewrite read_back_short by exact Hlen.
  reflexivity.
Qed.

(** *** The driver *)

(** Entries whose two blobs are the same object give no error. *)
Lemma check_diff_same_blob
  (re_search : string -> string -> result bool)
  (pattern : option (list string)) (diff : Diff) :
  blob_eq (a_blob diff) (b_blob diff) = true ->
  check_diff re_search pattern diff = Ok [].
Proof. intros H. unfold check_diff. rewrite H. reflexivity. Qed.

(** Entries without a staged blob (deleted files) give no error. *)
Lemma check_diff_deleted
  (re_search : string -> string -> result bool)
  (pattern : option (list string)) (diff : Diff) :
  a_blob diff = None ->
  check_diff re_search pattern diff = Ok [].
Proof.
  intros H. unfold check_diff. rewrite H.
  destruct (blob_eq None (b_blob diff) || is_none (b_blob diff));
    [reflexivity|].
  apply collect_errors_no_new_lines. reflexivity.
Qed.

End CollectFacts.

(** * The specification, claim by claim *)

Import Markers Aux.

(** ** The hunk header parser (C7) *)

(** C7, as the specification states it, fails: [parse_line_number] does
    not return the number of every well-formed header.  On the header
    [@@ -1,1 +c,1 @@], where [c] is the number written with 4301 nines
    ([10 ^ 4301 - 1]), it raises [ValueError], because [int] refuses a
    literal of more than 4300 digits. *)
Lemma parse_line_number_digit_limit :
  all_chars is_digit (nines 4301) = true
  /\ String.length (nines 4301) = 4301
  /\ parse_line_number (header_of "1" "1" (nines 4301) "1")
     = Raise ValueError.
Proof. split; [|split]; vm_compute; reflexivity. Qed.

(** C7, amended.  [parse_line_number] raises [ValueError] on every line
    that does not start with [@@] and on every line that does not split
    into exactly four fields at its blanks.  On a header
    [@@ -a,b +c,d @@] it returns [c], the first line of the hunk in the
    new file, when [c] is written with at most 4300 digits, and raises
    [ValueError] when the number of the new file is written with more. *)
Theorem parse_line_number_contract (line : string) :
  (Py.startswith line "@@" = false
   \/ List.length (Py.split " " line) <> 4 ->
   parse_line_number line = Raise ValueError)
  /\ (forall a b c d : nat,
        line = header_of (dec a) (dec b) (dec c) (dec d) ->
        String.length (dec c) <= Py.max_str_digits ->
        parse_line_number line = Ok (Z.of_nat c))
  /\ (forall (a b d : nat) (c : string),
        line = header_of (dec a) (dec b) c (dec d) ->
        all_chars is_digit c = true ->
        Py.max_str_digits < String.length c ->
        parse_line_number line = Raise ValueError).
Proof.
  assert (Hlack : forall n : nat, lacks " " (dec n) = true).
  { intros n. apply digits_lack; [reflexivity|].
    apply str_of_int_digits. lia. }
  assert (Hdig : forall n : nat, all_chars is_digit (dec n) = true).
  { intros n. apply str_of_int_digits. lia. }
  split; [|split].
  - intros H. unfold parse_line_number.
    destruct (Py.startswith line "@@"); [|reflexivity].
    destruct H as [H|H]; [discriminate|].
    apply Nat.eqb_neq in H. rewrite H. reflexivity.
  - intros a b c d -> Hlen. unfold dec at 3.
    rewrite parse_line_number_header; auto; [|lia].
    apply read_back_short, Hlen.
  - intros a b d c -> Hc Hlen.
    rewrite parse_line_number_fields; auto.
    apply int_plus_long; assumption.
Qed.

Lemma parse_line_number_contract_witness :
  parse_line_number "@@ -14,0" = Raise ValueError
  /\ parse_line_number "no header at all" = Raise ValueError
  /\ parse_line_number "@@ -14,0 +20,3 @@" = Ok 20%Z
  /\ parse_line_number (header_of (dec 1) (dec 1) (nines 4301) (dec 1))
     = Raise ValueError.
Proof.
  split; [|split; [|split]].
  - apply (proj1 (parse_line_number_contract "@@ -14,0")).
    right. vm_compute. discriminate.
  - apply (proj1 (parse_line_number_contract "no header at all")).
    left. reflexivity.
  - apply (proj1 (proj2 (parse_line_number_contract "@@ -14,0 +20,3 @@"))
             14 0 20 3 eq_refl).
    apply Nat.leb_le. vm_compute. reflexivity.
  - apply (proj2 (proj2 (parse_line_number_contract
                           (header_of (dec 1) (dec 1) (nines 4301)
                                      (dec 1))))
             1 1 1 (nines 4301) eq_refl).
    + vm_compute. reflexivity.
    + apply Nat.ltb_lt. vm_compute. reflexivity.
Defined.

(** ** Equal texts (C4) *)

(** C4.  For every text, every file name and every pattern list (also when
    no list is given), [collect_errors] on an old and a new version that
    are the same text returns the empty list of errors, whatever the
    regular-expression engine answers. *)
Theorem collect_errors_identical
  (re_search : string -> string -> result bool)
  (filename t : string) (error_patterns : option (list string)) :
  collect_errors re_search filename t t error_patterns = Ok [].
Proof.
  unfold collect_errors. rewrite SameFacts.unified_diff_same. reflexivity.
Qed.

(** ** The form of a message (C5) *)

(** C5, as the specification states it, fails: the message does not hold
    the bare pattern text.  For the new line [# xxx] the one error is
    [Error pattern '# xxx' detected at f:1], with the quotes of [repr],
    which is no message of the plain form for any line number. *)
Lemma error_message_not_plain :
  collect_errors Re.engine "f" (text ["# xxx"]) EmptyString (Some ["# xxx"])
  = Ok ["Error pattern '# xxx' detected at f:1"]
  /\ forall line_number,
       "Error pattern '# xxx' detected at f:1"
       <> plain_message "# xxx" "f" line_number.
Proof.
  split.
  - vm_compute. reflexivity.
  - intros n. unfold plain_message. cbn [append]. discriminate.
Qed.

(** C5, amended.  Every error string that [collect_errors] returns is
    [Error pattern <r> detected at <file>:<line>], where [<r>] is the
    [repr] of one of the given patterns (the pattern between quotes, with
    the escapes of a Python literal), [<file>] is the given file name and
    [<line>] is a decimal integer.  When no line of the new version reads
    [+++] behind the plus sign of the diff (that is, no line is [++]
    followed by white space only), [<line>] is the 1-based number of a
    line of the new version in which the engine found the pattern. *)
Theorem error_message_format
  (re_search : string -> string -> result bool)
  (filename new_data old_data : string) (patterns errors : list string)
  (e : string) :
  collect_errors re_search filename new_data old_data (Some patterns)
  = Ok errors ->
  In e errors ->
  (exists pattern line_number,
      In pattern patterns
      /\ e = ("Error pattern " ++ Py.repr pattern ++ " detected at "
              ++ filename ++ ":" ++ Py.str_of_int line_number)%string)
  /\ ((forall x, In x (Py.splitlines new_data) ->
                 Py.strip (String "+" x) <> "+++") ->
      exists pattern t x,
        In pattern patterns
        /\ nth_error (Py.splitlines new_data) t = Some x
        /\ re_search pattern (String "+" x) = Ok true
        /\ e = ("Error pattern " ++ Py.repr pattern ++ " detected at "
                ++ filename ++ ":" ++ Py.str_of_int (Z.of_nat (t + 1)))%string).
Proof.
  intros H He. split.
  - destruct (CollectFacts.collect_errors_from_new_lines
                re_search filename new_data old_data patterns errors e H He)
      as (p & x & n & Hp & _ & _ & ->).
    exists p, n. split; [exact Hp | reflexivity].
  - intros Hplus.
    assert (Ht : forall x, In x (Py.splitlines new_data) ->
                   tested (String "+" x) = true).
    { intros x Hx. apply ScanFacts.tested_plus, Hplus, Hx. }
    pose proof (LineFacts.collect_errors_located re_search filename
                  new_data old_data patterns errors Ht H) as Hloc.
    rewrite Forall_forall in Hloc.
    destruct (Hloc e He) as (p & t & x & Hp & Hx & Hs & ->).
    exists p, t, x. rewrite Nat.add_1_r. auto.
Qed.

Lemma error_message_format_witness :
  (exists pattern line_number,
      In pattern ["# xxx"; "print"]
      /\ "Error pattern 'print' detected at hook.py:2"
         = ("Error pattern " ++ Py.repr pattern ++ " detected at "
            ++ "hook.py" ++ ":" ++ Py.str_of_int line_number)%string)
  /\ (exists pattern t x,
        In pattern ["# xxx"; "print"]
        /\ nth_error (Py.splitlines (text ["a"; "print(1)  # xxx"])) t
           = Some x
        /\ Re.engine pattern (String "+" x) = Ok true
        /\ "Error pattern 'print' detected at hook.py:2"
           = ("Error pattern " ++ Py.repr pattern ++ " detected at "
              ++ "hook.py" ++ ":"
              ++ Py.str_of_int (Z.of_nat (t + 1)))%string).
Proof.
  assert (H : collect_errors Re.engine "hook.py"
                (text ["a"; "print(1)  # xxx"]) (text ["a"])
                (Some ["# xxx"; "print"])
              = Ok ["Error pattern '# xxx' detected at hook.py:2";
                    "Error pattern 'print' detected at hook.py:2"])
    by (vm_compute; reflexivity).
  destruct (error_message_format Re.engine "hook.py"
              (text ["a"; "print(1)  # xxx"]) (text ["a"])
              ["# xxx"; "print"] _
              "Error pattern 'print' detected at hook.py:2" H
              (or_intror (or_introl eq_refl))) as [H1 H2].
  split; [exact H1 | apply H2].
  intros x [<-|[<-|[]]]; vm_compute; discriminate.
Defined.

(** ** The search runs on the raw diff line (C10) *)

(** C10.  Every reported error comes from a search in a line of the new
    text with the plus sign of the diff in front of it.  So the pattern
    [^#] does not flag the added line [#a], although it is found in [#a]
    itself, and the pattern [\+] flags the added line [a], although it is
    not found in [a] itself.  This holds for every engine that agrees with
    the fragment of [re] above. *)
Theorem search_sees_plus_prefix
  (re_search : string -> string -> result bool) :
  Re.models re_search ->
  (forall filename new_data old_data patterns errors e,
      collect_errors re_search filename new_data old_data (Some patterns)
      = Ok errors ->
      In e errors ->
      exists pattern x line_number,
        In pattern patterns /\ In x (Py.splitlines new_data)
        /\ re_search pattern (String "+" x) = Ok true
        /\ e = error_message pattern filename line_number)
  /\ (re_search "^#" "#a" = Ok true
      /\ collect_errors re_search "f" (text ["#a"]) EmptyString
                        (Some ["^#"])
         = Ok [])
  /\ (re_search "\+" "a" = Ok false
      /\ collect_errors re_search "f" (text ["a"]) EmptyString
                        (Some ["\+"])
         = Ok ["Error pattern '\\+' detected at f:1"]).
Proof.
  intros Hm. split; [|split; split].
  - intros filename new_data old_data patterns errors e.
    apply CollectFacts.collect_errors_from_new_lines.
  - apply Hm. reflexivity.
  - rewrite EngineFacts.collect_errors_models; [reflexivity | exact Hm|].
    repeat constructor. discriminate.
  - apply Hm. reflexivity.
  - rewrite EngineFacts.collect_errors_models; [reflexivity | exact Hm|].
    repeat constructor. discriminate.
Qed.

Lemma search_sees_plus_prefix_witness :
  (Re.engine "^#" "#a" = Ok true
   /\ collect_errors Re.engine "f" (text ["#a"]) EmptyString (Some ["^#"])
      = Ok [])
  /\ (Re.engine "\+" "a" = Ok false
      /\ collect_errors Re.engine "f" (text ["a"]) EmptyString (Some ["\+"])
         = Ok ["Error pattern '\\+' detected at f:1"]).
Proof.
  exact (proj2 (search_sees_plus_prefix Re.engine
                  EngineFacts.engine_models)).
Defined.

(** ** Where the code departs from the claims *)

(** C1.  The scanner of [check_for_markers.py] does not report a removed
    marker, but [check_for_xxx.py] does: for the staged diff that removes
    the only line [# xxx] of a file, its [main] returns the failure status
    1 and prints the removed line. *)
Theorem xxx_flags_removed_marker :
  collect_errors Re.engine "f" EmptyString (text ["# xxx"])
                 (Some ["# xxx"])
  = Ok []
  /\ Xxx.main (text ["diff --git a/f b/f";
                     "index f519eac..e69de29 100644";
                     "--- a/f";
                     "+++ b/f";
                     "@@ -1 +0,0 @@";
                     "-# xxx"])
     = (1%Z, Some "-# xxx").
Proof. split; vm_compute; reflexivity. Qed.

(** C2.  In a new file with the two lines [++] and [# xxx], the marker is
    the second line, and [collect_errors] reports it at line 1: the added
    line [++] reads [+++] in the diff, the guard for the file header skips
    it, and the counter is not advanced. *)
Theorem line_number_after_plus_plus_line :
  nth_error (Py.splitlines (text ["++"; "# xxx"])) 1 = Some "# xxx"
  /\ collect_errors Re.engine "f" (text ["++"; "# xxx"]) EmptyString
                    (Some ["# xxx"])
     = Ok ["Error pattern '# xxx' detected at f:1"].
Proof. split; vm_compute; reflexivity. Qed.

(** C3.  The diff of the empty text against the one line [++] holds the
    added line [+++], and the scanner steps over that line without
    advancing its counter, for every engine, pattern list and state. *)
Theorem plus_plus_line_keeps_counter
  (re_search : string -> string -> result bool) (filename : string)
  (error_patterns : option (list string)) (errors : list string)
  (line_number : Z) :
  Difflib.unified_diff (Py.splitlines EmptyString)
                       (Py.splitlines (text ["++"])) 0
  = ["--- "; "+++ "; "@@ -0,0 +1 @@"; "+++"]
  /\ scan_line re_search filename error_patterns (errors, line_number)
               "+++"
     = Ok (errors, line_number).
Proof. split; reflexivity. Qed.

(** C6.  Without a pattern option [args.pattern] is [None]; as soon as a
    changed file has an added line, the loop over the patterns raises
    [TypeError] and [main] returns no status. *)
Theorem missing_pattern_option_raises
  (re_search : string -> string -> result bool) :
  main re_search None
       [mkDiff (Some (mkBlob "new" (Some (text ["a"; "b"]))))
               (Some (mkBlob "old" (Some (text ["a"]))))
               (Some "f")]
  = Raise TypeError.
Proof. vm_compute. reflexivity. Qed.

(** C8.  The added line [++] is found by the pattern [\+], with or without
    the plus sign of the diff, and yet contributes no error: the guard for
    the file header keeps it from the patterns. *)
Theorem plus_plus_line_not_tested :
  Re.search "\+" "++" = Some true
  /\ Re.search "\+" "+++" = Some true
  /\ collect_errors Re.engine "f" (text ["++"]) EmptyString (Some ["\+"])
     = Ok [].
Proof. repeat split; vm_compute; reflexivity. Qed.

(** C9.  A file that is new in the index has no old blob; the driver skips
    it, although its new blob is there and differs: [main] returns status 0
    and prints nothing, where the scanner on the same texts reports the
    marker. *)
Theorem new_file_is_skipped
  (re_search : string -> string -> result bool) :
  main re_search (Some ["# xxx"])
       [mkDiff (Some (mkBlob "new" (Some (text ["# xxx"])))) None
               (Some "f")]
  = Ok (0%Z, [])
  /\ collect_errors Re.engine "f" (text ["# xxx"]) (read_blob None)
                    (Some ["# xxx"])
     = Ok ["Error pattern '# xxx' detected at f:1"].
Proof. split; vm_compute; reflexivity. Qed.

(** * Further properties of the hooks *)

(** ** The driver of [check_for_markers.py] *)

Module DriverFacts.
Import Markers Aux ScanFacts CollectFacts.

Section Driver.

Variable re_search : string -> string -> result bool.

Local Abbreviation check_diff := (check_diff re_search).
Local Abbreviation check_diffs := (check_diffs re_search).
Local Abbreviation main := (main re_search).

Lemma check_diffs_acc (pattern : option (list string)) :
  forall (l : list Diff) (acc : list string),
    check_diffs pattern l acc
    = (found <- check_diffs pattern l [] ;; Ok (acc ++ found)).
Proof.
  induction l as [|d l IH]; intros acc; cbn [Markers.check_diffs].
  - cbn [bind]. rewrite app_nil_r. reflexivity.
  - destruct (check_diff pattern d) as [fd|e]; cbn [bind List.app];
      [|reflexivity].
    rewrite (IH (acc ++ fd)), (IH fd).
    destruct (check_diffs pattern l []) as [f|e]; cbn [bind];
      [|reflexivity].
    rewrite app_assoc. reflexivity.
Qed.

Lemma check_diffs_app (pattern : option (list string)) :
  forall (l1 l2 : list Diff) (acc : list string),
    check_diffs pattern (l1 ++ l2) acc
    = (errors <- check_diffs pattern l1 acc ;;
       check_diffs pattern l2 errors).
Proof.
  induction l1 as [|d l1 IH]; intros l2 acc;
    cbn [List.app Markers.check_diffs bind].
  - reflexivity.
  - destruct (check_diff pattern d) as [fd|e]; cbn [bind];
      [apply IH | reflexivity].
Qed.

Lemma check_diffs_skip (pattern : option (list string)) (d : Diff)
  (l1 l2 : list Diff) (acc : list string) :
  check_diff pattern d = Ok [] ->
  check_diffs pattern (l1 ++ d :: l2) acc
  = check_diffs pattern (l1 ++ l2) acc.
Proof.
  intros H. rewrite !check_diffs_app.
  destruct (check_diffs pattern l1 acc) as [e1|e]; cbn [bind];
    [|reflexivity].
  cbn [Markers.check_diffs]. rewrite H. cbn [bind].
  rewrite app_nil_r. reflexivity.
Qed.

Lemma check_diff_without_new_text (pattern : option (list string))
  (d : Diff) :
  without_new_text d -> check_diff pattern d = Ok [].
Proof.
  intros [H|H].
  - apply check_diff_same_blob, H.
  - unfold Markers.check_diff.
    destruct (blob_eq (a_blob d) (b_blob d) || is_none (b_blob d));
      [reflexivity|].
    apply collect_errors_no_new_lines. rewrite H. reflexivity.
Qed.

(** With patterns that the engine accepts, no entry makes the scanner
    fail. *)
Lemma check_diffs_total (patterns : list string) :
  accepts re_search patterns ->
  forall (l : list Diff) (acc : list string),
    Forall entry_within_limit l ->
    exists errors, check_diffs (Some patterns) l acc = Ok errors.
Proof.
  intros Hre. induction l as [|d l IH]; intros acc Hl;
    cbn [Markers.check_diffs].
  - eauto.
  - inversion Hl as [|? ? Hd Hl']; subst.
    assert (E : exists fd, check_diff (Some patterns) d = Ok fd).
    { unfold Markers.check_diff.
      destruct (blob_eq (a_blob d) (b_blob d) || is_none (b_blob d));
        [eauto|].
      apply collect_errors_total; [exact Hd | exact Hre]. }
    destruct E as [fd ->]. cbn [bind]. apply IH, Hl'.
Qed.

(** The errors of every entry are among the errors of the whole list. *)
Lemma check_diffs_In (pattern : option (list string)) :
  forall (l : list Diff) (acc r : list string) (d : Diff)
         (found : list string) (e : string),
    check_diffs pattern l acc = Ok r ->
    In d l -> check_diff pattern d = Ok found -> In e found ->
    In e r.
Proof.
  induction l as [|d0 l IH]; intros acc r d found e Hr Hd Hf He;
    [destruct Hd|].
  cbn [Markers.check_diffs] in Hr.
  destruct Hd as [->|Hd].
  - rewrite Hf in Hr. cbn [bind] in Hr.
    rewrite check_diffs_acc in Hr.
    destruct (check_diffs pattern l []) as [more|]; cbn [bind] in Hr;
      [|discriminate Hr].
    injection Hr as <-. apply in_or_app. left. apply in_or_app. right.
    exact He.
  - destruct (check_diff pattern d0) as [f0|]; cbn [bind] in Hr;
      [|discriminate Hr].
    apply (IH _ _ d found e Hr Hd Hf He).
Qed.

Lemma check_diffs_quiet (pattern : option (list string)) :
  forall (l : list Diff) (acc : list string),
    (forall d, In d l -> check_diff pattern d = Ok []) ->
    check_diffs pattern l acc = Ok acc.
Proof.
  induction l as [|d l IH]; intros acc H; cbn [Markers.check_diffs].
  - reflexivity.
  - rewrite (H d (or_introl eq_refl)). cbn [bind]. rewrite app_nil_r.
    apply IH. intros d' Hd'. apply H. right. exact Hd'.
Qed.

(** Without patterns there is nothing to find. *)
Lemma collect_errors_no_patterns (filename new_data old_data : string) :
  within_int_limit (List.length (Py.splitlines new_data)) ->
  collect_errors re_search filename new_data old_data (Some []) = Ok [].
Proof.
  intros Hlim.
  assert (Hre : accepts re_search []) by (intros p s []).
  destruct (collect_errors_total re_search filename new_data old_data []
              Hlim Hre) as [found Hf].
  rewrite Hf. destruct found as [|e found]; [reflexivity|]. exfalso.
  destruct (collect_errors_from_new_lines _ _ _ _ _ _ e Hf
              (or_introl eq_refl)) as (p & _ & _ & [] & _).
Qed.

End Driver.

End DriverFacts.

(** ** Engines that accept their patterns *)

Module AcceptFacts.
Import Markers Aux.

(** The fragment answers on each of its patterns, whatever the line. *)
Lemma engine_accepts (patterns : list string) :
  Forall in_fragment patterns -> accepts Re.engine patterns.
Proof.
  intros H pattern s Hp. rewrite Forall_forall in H.
  specialize (H pattern Hp). unfold in_fragment in H.
  unfold Re.engine, Re.search.
  destruct (Re.parse pattern) as [items|]; [|contradiction].
  eexists. reflexivity.
Defined.

End AcceptFacts.

(** ** Scanning without a pattern list *)

Module NoPatternFacts.
Import Markers Aux ScanFacts.

Section Engine.

Variable re_search : string -> string -> result bool.
Variable filename : string.

Lemma scan_line_none (errors : list string) (line_number : Z)
  (line : string) :
  tested line = true ->
  scan_line re_search filename None (errors, line_number) line
  = Raise TypeError.
Proof.
  intros Ht. destruct (tested_true line Ht) as (H1 & H2 & H3).
  unfold scan_line. rewrite H3. cbn [bind]. rewrite H2. reflexivity.
Qed.

Lemma scan_none (a b : list string) (errors : list string) :
  within_int_limit (List.length b) ->
  forall (lines : list string) (line_number : Z),
    (forall x, In x lines -> diff_line a b x) ->
    (exists n,
        scan re_search filename None lines (errors, line_number)
        = Ok (errors, n))
    \/ scan re_search filename None lines (errors, line_number)
       = Raise TypeError.
Proof.
  intros Hlim.
  induction lines as [|x lines IH]; intros line_number H; cbn [scan].
  - left. eauto.
  - destruct (tested x) eqn:Ht.
    + right. rewrite scan_line_none by exact Ht. reflexivity.
    + destruct (scan_line_untested re_search filename a b None errors
                  line_number x Hlim (H x (or_introl eq_refl)) Ht)
        as [n ->].
      cbn [bind]. apply IH. intros y Hy. apply H. right. exact Hy.
Qed.

Lemma collect_errors_none (new_data old_data : string) :
  within_int_limit (List.length (Py.splitlines new_data)) ->
  collect_errors re_search filename new_data old_data None = Ok []
  \/ collect_errors re_search filename new_data old_data None
     = Raise TypeError.
Proof.
  intros Hlim. unfold collect_errors.
  destruct (scan_none (Py.splitlines old_data) (Py.splitlines new_data) []
              Hlim
              (Difflib.unified_diff (Py.splitlines old_data)
                 (Py.splitlines new_data) 0) 1%Z) as [[n ->]| ->].
  - intros x. apply DiffLines.unified_diff_kind.
  - left. reflexivity.
  - right. reflexivity.
Qed.

End Engine.

Lemma check_diffs_none (re_search : string -> string -> result bool) :
  forall (l : list Diff) (acc : list string),
    Forall entry_within_limit l ->
    check_diffs re_search None l acc = Ok acc
    \/ check_diffs re_search None l acc = Raise TypeError.
Proof.
  induction l as [|d l IH]; intros acc Hl; cbn [check_diffs].
  - left. reflexivity.
  - inversion Hl as [|? ? Hd Hl']; subst.
    assert (E : check_diff re_search None d = Ok []
                \/ check_diff re_search None d = Raise TypeError).
    { unfold check_diff.
      destruct (blob_eq (a_blob d) (b_blob d) || is_none (b_blob d));
        [left; reflexivity|].
      apply collect_errors_none. exact Hd. }
    destruct E as [-> | ->]; cbn [bind].
    + rewrite app_nil_r. apply IH, Hl'.
    + right. reflexivity.
Qed.

End NoPatternFacts.

(** ** Occurrences of a marker and line breaks *)

Module XxxFacts.
Import Aux.

Lemma prefix_lacks (c : ascii) (m : string) :
  lacks c m = true ->
  forall u v : string,
    String.prefix m (u ++ String c v) = String.prefix m u.
Proof.
  induction m as [|x m IH]; intros Hm u v.
  - destruct u; reflexivity.
  - cbn in Hm. apply andb_true_iff in Hm as [Hx Hm].
    destruct u as [|y u]; cbn [append String.prefix].
    + destruct (Ascii.ascii_dec x c) as [->|]; [|reflexivity].
      rewrite Ascii.eqb_refl in Hx. discriminate Hx.
    + destruct (Ascii.ascii_dec x y); [apply IH, Hm | reflexivity].
Qed.

(** A marker without the character [c] lies on one side of [c]. *)
Lemma contains_lacks (c : ascii) (m : string) :
  lacks c m = true -> Py.contains m EmptyString = false ->
  forall u v : string,
    Py.contains m (u ++ String c v)
    = Py.contains m u || Py.contains m v.
Proof.
  intros Hm Hne. induction u as [|y u IH]; intros v.
  - cbn [append]. rewrite Hne. cbn [orb].
    change (Py.contains m (String c v))
      with (String.prefix m (String c v) || Py.contains m v).
    pose proof (prefix_lacks c m Hm EmptyString v) as Hp.
    cbn [append] in Hp. rewrite Hp.
    cbn [Py.contains] in Hne. apply orb_false_iff in Hne as [-> _].
    reflexivity.
  - change (Py.contains m (String y u ++ String c v))
      with (String.prefix m (String y u ++ String c v)
            || Py.contains m (u ++ String c v)).
    change (Py.contains m (String y u))
      with (String.prefix m (String y u) || Py.contains m u).
    rewrite (prefix_lacks c m Hm (String y u) v), IH, orb_assoc.
    reflexivity.
Qed.

Lemma lower_app (u v : string) :
  Py.lower (u ++ v) = (Py.lower u ++ Py.lower v)%string.
Proof.
  induction u as [|c u IH]; cbn [append Py.lower]; [reflexivity|].
  rewrite IH. reflexivity.
Qed.

Section Marker.

Variable m : string.
Hypothesis m_LF : lacks Py.LF m = true.
Hypothesis m_CR : lacks Py.CR m = true.
Hypothesis m_ne : Py.contains m EmptyString = false.

Local Abbreviation brk := (fun c : ascii => Ascii.eqb c Py.LF || Ascii.eqb c Py.CR).
Local Abbreviation hit := (fun line : string => Py.contains m (Py.lower line)).

Lemma contains_at_break (c : ascii) (u v : string) :
  brk c = true ->
  Py.contains m (Py.lower (u ++ String c v))
  = hit u || hit v.
Proof.
  intros Hc. rewrite lower_app. cbn [Py.lower].
  apply orb_true_iff in Hc as [Hc|Hc]; apply Ascii.eqb_eq in Hc; subst c.
  - apply contains_lacks; assumption.
  - apply contains_lacks; assumption.
Qed.

(** Some line holds the marker exactly when the text does. *)
Lemma existsb_splitlines_from (n : nat) :
  forall (s cur : string),
    String.length s <= n ->
    existsb hit (Py.splitlines_from brk cur s)
    = Py.contains m (Py.lower (cur ++ s)).
Proof.
  induction n as [|n IH]; intros s cur Hn.
  - destruct s; [|cbn in Hn; lia].
    rewrite append_empty_r. cbn [Py.splitlines_from].
    destruct cur; cbn [existsb].
    + symmetry. exact m_ne.
    + apply orb_false_r.
  - destruct s as [|c s].
    + rewrite append_empty_r. cbn [Py.splitlines_from].
      destruct cur; cbn [existsb].
      * symmetry. exact m_ne.
      * apply orb_false_r.
    + cbn [String.length] in Hn. cbn [Py.splitlines_from].
      destruct (brk c) eqn:Hc.
      * rewrite (contains_at_break c cur s Hc). cbn [existsb]. f_equal.
        destruct s as [|c' s'].
        -- symmetry. exact m_ne.
        -- destruct (Ascii.eqb c Py.CR && Ascii.eqb c' Py.LF) eqn:E.
           ++ apply andb_true_iff in E as [_ E].
              apply Ascii.eqb_eq in E. subst c'.
              rewrite IH by (cbn [String.length] in Hn; lia).
              pose proof (contains_at_break Py.LF EmptyString s' eq_refl)
                as Hb.
              cbn [append Py.lower] in Hb. rewrite m_ne in Hb.
              cbn [append]. symmetry. exact Hb.
           ++ rewrite IH by lia. reflexivity.
      * rewrite IH by lia. rewrite append_assoc. reflexivity.
Qed.

End Marker.

Lemma filter_nil_existsb {A : Type} (f : A -> bool) (l : list A) :
  existsb f l = negb (match filter f l with [] => true | _ => false end).
Proof.
  induction l as [|x l IH]; cbn [existsb filter]; [reflexivity|].
  destruct (f x); [reflexivity | exact IH].
Qed.

End XxxFacts.

(** ** The opcodes inside the groups *)

Module GroupFacts.
Import Difflib Aux.

Lemma changes_app (l1 l2 : list opcode) :
  changes (l1 ++ l2) = changes l1 ++ changes l2.
Proof. apply filter_app. Qed.

Lemma changes_equal (o : opcode) (l : list opcode) :
  is_equal o = true -> changes (o :: l) = changes l.
Proof. intros H. unfold changes. cbn [filter]. rewrite H. reflexivity. Qed.

Lemma fix_first_changes (n : nat) (codes : list opcode) :
  changes (fix_first n codes) = changes codes.
Proof.
  destruct codes as [|o rest]; cbn [fix_first]; [reflexivity|].
  destruct (is_equal o) eqn:E; [|reflexivity].
  rewrite (changes_equal o rest E). apply changes_equal.
  unfold is_equal in *. exact E.
Qed.

Lemma fix_last_changes (n : nat) (codes : list opcode) :
  changes (fix_last n codes) = changes codes.
Proof.
  induction codes as [|o [|o' rest] IH].
  - reflexivity.
  - cbn [fix_last]. destruct (is_equal o) eqn:E; [|reflexivity].
    rewrite (changes_equal o [] E). apply changes_equal.
    unfold is_equal in *. exact E.
  - change (fix_last n (o :: o' :: rest))
      with (o :: fix_last n (o' :: rest)).
    unfold changes in *. cbn [filter]. cbn [filter] in IH. rewrite IH.
    reflexivity.
Qed.

Lemma group_codes_changes (n : nat) :
  forall (codes group : list opcode),
    changes (List.concat (group_codes n codes group))
    = changes (group ++ codes).
Proof.
  induction codes as [|o codes IH]; intros group; cbn [group_codes].
  - rewrite app_nil_r. destruct group as [|o [|o' g]].
    + reflexivity.
    + destruct (is_equal o) eqn:E.
      * rewrite (changes_equal o [] E). reflexivity.
      * cbn [List.concat]. rewrite app_nil_r. reflexivity.
    + cbn [List.concat]. rewrite app_nil_r. reflexivity.
  - destruct (is_equal o && (n + n <? op_i2 o - op_i1 o)) eqn:E.
    + apply andb_true_iff in E as [E _].
      cbn [List.concat]. rewrite changes_app, IH, !changes_app.
      cbn [List.app].
      rewrite (changes_equal o codes E).
      rewrite !changes_equal by (unfold is_equal in *; exact E).
      change (changes []) with (@nil opcode). rewrite app_nil_r.
      reflexivity.
    + rewrite IH, <- app_assoc. reflexivity.
Qed.

(** The groups hold the opcodes that change something, all of them and
    in their order, for every size of the context. *)
Lemma get_grouped_opcodes_changes (a b : list string) (n : nat) :
  changes (List.concat (get_grouped_opcodes a b n)) = changes (get_opcodes a b).
Proof.
  unfold get_grouped_opcodes.
  rewrite group_codes_changes. cbn [List.app].
  rewrite fix_last_changes, fix_first_changes.
  destruct (get_opcodes a b); reflexivity.
Qed.

End GroupFacts.

(** ** The errors, opcode by opcode *)

Module ExactFacts.
Import Difflib Markers Aux ScanFacts OpFacts LineFacts.

Lemma added_errors_equal (re_search : string -> string -> result bool)
  (filename : string) (patterns b : list string) (o : opcode) :
  is_equal o = true -> added_errors re_search filename patterns b o = [].
Proof.
  unfold is_equal, added_errors. destruct (op_tag o); auto; discriminate.
Qed.

Lemma flat_map_changes (re_search : string -> string -> result bool)
  (filename : string) (patterns b : list string) (codes : list opcode) :
  flat_map (added_errors re_search filename patterns b) (changes codes)
  = flat_map (added_errors re_search filename patterns b) codes.
Proof.
  induction codes as [|o codes IH]; [reflexivity|].
  unfold changes in *. cbn [filter flat_map].
  destruct (is_equal o) eqn:E; cbn [negb flat_map].
  - rewrite (added_errors_equal _ _ _ _ o E). exact IH.
  - rewrite IH. reflexivity.
Qed.

Section Exact.

Variable re_search : string -> string -> result bool.
Variable filename : string.
Variable patterns : list string.
Variables a b : list string.

Hypothesis Hplus : forall x, In x b -> tested (String "+" x) = true.
Hypothesis Hre : accepts re_search patterns.
Hypothesis Hlim : within_int_limit (List.length b).

Local Abbreviation scan := (scan re_search filename (Some patterns)).
Local Abbreviation numbered := (numbered re_search filename patterns).
Local Abbreviation added := (added_errors re_search filename patterns b).

(** Added lines are tested one after the other, and each takes one line
    number. *)
Lemma scan_added_exact :
  forall (xs : list string) (t : nat) (errors : list string),
    (forall x, In x xs -> In x b) ->
    scan (map (String "+") xs) (errors, Z.of_nat (S t))
    = Ok (errors ++ numbered t xs, Z.of_nat (S (t + List.length xs))).
Proof.
  induction xs as [|x xs IH]; intros t errors Hxs;
    cbn [map Markers.scan Aux.numbered List.length].
  - rewrite app_nil_r, Nat.add_0_r. reflexivity.
  - rewrite scan_line_tested_ok.
    + cbn [bind].
      replace (Z.of_nat (S t) + 1)%Z with (Z.of_nat (S (S t))) by lia.
      rewrite IH by (intros y Hy; apply Hxs; right; exact Hy).
      rewrite <- app_assoc.
      replace (S t + List.length xs) with (t + S (List.length xs)) by lia.
      reflexivity.
    + apply Hplus, Hxs. left. reflexivity.
    + intros p Hp. apply Hre, Hp.
Qed.

Lemma scan_added_slice (j1 j2 : nat) (errors : list string) (c : Z) :
  j1 <= j2 -> (j2 <= List.length b \/ j2 = j1) ->
  (j1 < j2 -> c = Z.of_nat (S j1)) ->
  exists c',
    scan (map (String "+") (slice b j1 j2)) (errors, c)
    = Ok (errors ++ numbered j1 (slice b j1 j2), c')
    /\ (j1 < j2 -> c' = Z.of_nat (S j2))
    /\ (j2 = j1 -> c' = c).
Proof.
  intros Hle Hb Hc. destruct (Nat.eq_dec j2 j1) as [E|E].
  - subst j2. unfold slice. rewrite Nat.sub_diag. cbn.
    exists c. rewrite app_nil_r.
    split; [reflexivity | split; [lia | reflexivity]].
  - rewrite Hc by lia. rewrite scan_added_exact
      by (intros x Hx; apply (DiffLines.slice_In b j1 j2 x Hx)).
    eexists. split; [reflexivity|].
    rewrite slice_length by lia. split; [|lia].
    intros _. f_equal. lia.
Qed.

(** The lines of a span, scanned with the counter on its first new
    line. *)
Lemma scan_span_exact (g : list opcode) (j j' : nat) :
  span (List.length b) j g j' ->
  forall (errors : list string) (c : Z),
    (j < j' -> c = Z.of_nat (S j)) ->
    exists c',
      scan (flat_map (opcode_lines a b) g) (errors, c)
      = Ok (errors ++ flat_map added g, c').
Proof.
  induction 1 as [j|o g j' H1 H2 H3 H4 IH]; intros errors c Hc.
  - cbn. rewrite app_nil_r. eauto.
  - pose proof (span_le _ _ _ _ H4) as Hle.
    cbn [flat_map]. rewrite ScanFacts.scan_app.
    assert (Ho : exists c1,
               scan (opcode_lines a b o) (errors, c)
               = Ok (errors ++ added o, c1)
               /\ (op_j2 o < j' -> c1 = Z.of_nat (S (op_j2 o)))).
    { destruct (scan_added_slice (op_j1 o) (op_j2 o) errors c H1 H3)
        as (c1 & E1 & E2 & E3); [intros Hlt; apply Hc; lia|].
      assert (Hnext : op_j2 o < j' -> c1 = Z.of_nat (S (op_j2 o))).
      { intros Hlt. destruct (Nat.eq_dec (op_j2 o) (op_j1 o)) as [E|E].
        - rewrite (E3 E), E. apply Hc. lia.
        - apply E2. lia. }
      assert (Hquiet : op_j2 o = op_j1 o ->
                       op_j2 o < j' -> c = Z.of_nat (S (op_j2 o))).
      { intros E Hlt. rewrite E. apply Hc. lia. }
      unfold opcode_lines, Aux.added_errors. destruct (op_tag o) eqn:Et.
      - rewrite ScanFacts.scan_app, scan_quiet by auto. cbn [bind].
        exists c1. split; [exact E1 | exact Hnext].
      - rewrite scan_quiet by auto. exists c. rewrite app_nil_r.
        split; [reflexivity | apply Hquiet; auto].
      - exists c1. split; [exact E1 | exact Hnext].
      - rewrite scan_quiet by auto. exists c. rewrite app_nil_r.
        split; [reflexivity | apply Hquiet; auto]. }
    destruct Ho as (c1 & -> & Hc1). cbn [bind].
    destruct (IH (errors ++ added o) c1 Hc1) as [c' ->].
    exists c'. rewrite <- app_assoc. reflexivity.
Qed.

Lemma scan_group_exact (g : list opcode) (j j' : nat)
  (errors : list string) (c : Z) :
  span (List.length b) j g j' ->
  group_start g <= List.length b ->
  exists c',
    scan (group_lines a b g) (errors, c)
    = Ok (errors ++ flat_map added g, c').
Proof.
  intros Hs Hb. unfold group_lines. cbn [Markers.scan].
  rewrite ScanFacts.scan_line_hunk.
  rewrite (read_back_within (List.length b)) by (exact Hlim || lia).
  cbn [bind].
  apply (scan_span_exact g j j' Hs).
  intros Hlt. rewrite (span_start _ _ _ _ Hs Hlt). reflexivity.
Qed.

Lemma scan_groups_exact (groups : list (list opcode)) :
  Forall (fun g => exists j0 j1, span (List.length b) j0 g j1) groups ->
  Forall (fun g => group_start g <= List.length b) groups ->
  forall (errors : list string) (c : Z),
    exists c',
      scan (flat_map (group_lines a b) groups) (errors, c)
      = Ok (errors ++ flat_map added (List.concat groups), c').
Proof.
  induction 1 as [|g groups (j0 & j1 & Hg) Hgs IH]; intros Hb errors c.
  - cbn. rewrite app_nil_r. eauto.
  - inversion Hb as [|? ? Hb1 Hb2]; subst.
    cbn [flat_map List.concat]. rewrite ScanFacts.scan_app.
    destruct (scan_group_exact g j0 j1 errors c Hg Hb1) as [c1 ->].
    cbn [bind].
    destruct (IH Hb2 (errors ++ flat_map added g) c1) as [c' ->].
    exists c'. rewrite flat_map_app, app_assoc. reflexivity.
Qed.

(** The scan of the whole diff. *)
Lemma scan_diff_exact :
  exists c',
    scan (unified_diff a b 0) ([], 1%Z)
    = Ok (flat_map added (get_opcodes a b), c').
Proof.
  assert (E : flat_map added (List.concat (get_grouped_opcodes a b 0))
              = flat_map added (get_opcodes a b)).
  { rewrite <- flat_map_changes, GroupFacts.get_grouped_opcodes_changes.
    apply flat_map_changes. }
  unfold unified_diff.
  pose proof (get_grouped_opcodes_span a b) as Hg.
  pose proof (BoundFacts.get_grouped_opcodes_start a b 0) as Hb.
  destruct (get_grouped_opcodes a b 0) as [|g gs] eqn:Eg.
  - rewrite <- E. cbn. eauto.
  - cbn [Markers.scan].
    change (scan_line re_search filename (Some patterns) ([], 1%Z) "--- ")
      with (Ok (@nil string, 1%Z)).
    cbn [bind].
    change (scan_line re_search filename (Some patterns) ([], 1%Z) "+++ ")
      with (Ok (@nil string, 1%Z)).
    cbn [bind].
    destruct (scan_groups_exact (g :: gs) Hg Hb [] 1%Z) as [c' ->].
    exists c'. rewrite <- E. reflexivity.
Qed.

End Exact.

Lemma collect_errors_exact
  (re_search : string -> string -> result bool)
  (filename new_data old_data : string) (patterns : list string) :
  within_int_limit (List.length (Py.splitlines new_data)) ->
  accepts re_search patterns ->
  (forall x, In x (Py.splitlines new_data) ->
             tested (String "+" x) = true) ->
  collect_errors re_search filename new_data old_data (Some patterns)
  = Ok (flat_map
          (added_errors re_search filename patterns
             (Py.splitlines new_data))
          (get_opcodes (Py.splitlines old_data)
                       (Py.splitlines new_data))).
Proof.
  intros Hlim Hre Hplus. unfold collect_errors.
  destruct (scan_diff_exact re_search filename patterns
              (Py.splitlines old_data) (Py.splitlines new_data) Hplus Hre
              Hlim)
    as [c' ->].
  reflexivity.
Qed.

End ExactFacts.

(** ** The matching blocks pair equal lines *)

Module AgreeFacts.
Import Difflib Aux DifflibFacts.

Section Agree.

Variables a b : list string.

Lemma j2len_agrees_nil (i : nat) : j2len_agrees a b [] i.
Proof.
  intros j. rewrite j2len_get_nil.
  split; [lia | split; [lia | intros e He; lia]].
Qed.

Lemma scan_row_agrees (blo bhi i : nat) (j2len : list (nat * nat)) :
  j2len_agrees a b j2len i ->
  forall (js : list nat) (newj2len : list (nat * nat)) (best : Match),
    (forall j, In j js -> seq_item b j = seq_item a i) ->
    j2len_agrees a b newj2len (S i) ->
    agrees a b best ->
    j2len_agrees a b
      (fst (scan_row blo bhi i js j2len newj2len best)) (S i)
    /\ agrees a b (snd (scan_row blo bhi i js j2len newj2len best)).
Proof.
  intros Hold.
  induction js as [|j js IH]; intros newj2len best Hjs Hnew Hbest;
    cbn [scan_row].
  - split; assumption.
  - assert (Hjs' : forall j0, In j0 js -> seq_item b j0 = seq_item a i)
      by (intros j0 Hj0; apply Hjs; right; exact Hj0).
    destruct (j <? blo); [apply IH; assumption|].
    destruct (bhi <=? j); [split; assumption|].
    destruct (Hold j) as (K1 & K2 & K3).
    assert (Hij : seq_item a i = seq_item b j)
      by (symmetry; apply Hjs; left; reflexivity).
    set (kk := j2len_get j2len j) in *.
    assert (Hrun : forall e, e < kk + 1 ->
                     seq_item a (S i - S e) = seq_item b (S j - S e)).
    { intros [|e] He; cbn [Nat.sub].
      - rewrite !Nat.sub_0_r. exact Hij.
      - apply K3. lia. }
    apply IH; [exact Hjs' | |].
    + intros [|j0].
      * cbn. split; [lia | split; [lia | intros e He; lia]].
      * rewrite j2len_get_cons. destruct (j =? j0) eqn:E.
        -- apply Nat.eqb_eq in E. subst j0.
           split; [lia | split; [lia | exact Hrun]].
        -- apply (Hnew (S j0)).
    + destruct (m_size best <? kk + 1); [|exact Hbest].
      intros d Hd. cbn [m_a m_b m_size] in *.
      replace (i + 1 - (kk + 1) + d) with (S i - S (kk - d)) by lia.
      replace (j + 1 - (kk + 1) + d) with (S j - S (kk - d)) by lia.
      apply Hrun. lia.
Qed.

Lemma scan_rows_agrees (blo bhi : nat) :
  forall (n i : nat) (j2len : list (nat * nat)) (best : Match),
    j2len_agrees a b j2len i ->
    agrees a b best ->
    agrees a b (scan_rows a b blo bhi (seq i n) j2len best).
Proof.
  induction n as [|n IH]; intros i j2len best Hj Hb; cbn [seq scan_rows].
  - exact Hb.
  - assert (Hjs : forall j,
               In j (match dict_get (chain_b b) (seq_item a i) with
                     | Some js => js | None => [] end) ->
               seq_item b j = seq_item a i).
    { destruct (dict_get (chain_b b) (seq_item a i)) as [js|] eqn:E;
        [|intros j []].
      apply ChainFacts.chain_b_get in E. subst js. intros j Hj0.
      apply ChainFacts.positions_In in Hj0. apply Hj0. }
    destruct (scan_row_agrees blo bhi i j2len Hj _ [] best Hjs
                (j2len_agrees_nil (S i)) Hb) as [Hj' Hb'].
    destruct (scan_row blo bhi i _ j2len [] best) as [new best'].
    cbn [fst snd] in Hj', Hb'. apply IH; assumption.
Qed.

Lemma extend_back_agrees (junk : bool) (alo blo : nat) :
  forall besti bestj bestsize,
    agrees a b (mkMatch besti bestj bestsize) ->
    agrees a b (extend_back a b junk alo blo besti bestj bestsize).
Proof.
  induction besti as [|i IH]; intros bestj bestsize H; cbn [extend_back].
  - exact H.
  - destruct bestj as [|j]; [exact H|].
    destruct ((alo <? S i) && (blo <? S j)
              && Bool.eqb (isbjunk (seq_item b j)) junk
              && String.eqb (seq_item a i) (seq_item b j)) eqn:E;
      [|exact H].
    apply andb_true_iff in E as [_ E]. apply String.eqb_eq in E.
    apply IH. intros [|d] Hd; cbn [m_a m_b m_size] in *.
    + rewrite !Nat.add_0_r. exact E.
    + replace (i + S d) with (S i + d) by lia.
      replace (j + S d) with (S j + d) by lia.
      apply H. cbn [m_size]. lia.
Qed.

Lemma extend_fwd_agrees (junk : bool) (ahi bhi : nat) :
  forall fuel besti bestj bestsize,
    agrees a b (mkMatch besti bestj bestsize) ->
    agrees a b (extend_fwd a b junk fuel ahi bhi besti bestj bestsize).
Proof.
  induction fuel as [|fuel IH]; intros besti bestj bestsize H;
    cbn [extend_fwd].
  - exact H.
  - destruct ((besti + bestsize <? ahi) && (bestj + bestsize <? bhi)
              && Bool.eqb (isbjunk (seq_item b (bestj + bestsize))) junk
              && String.eqb (seq_item a (besti + bestsize))
                            (seq_item b (bestj + bestsize))) eqn:E;
      [|exact H].
    apply andb_true_iff in E as [_ E]. apply String.eqb_eq in E.
    apply IH. intros d Hd. cbn [m_a m_b m_size] in *.
    destruct (Nat.eq_dec d bestsize) as [->|Hne]; [exact E|].
    apply H. cbn [m_size]. lia.
Qed.

Lemma extend_agrees (junk : bool) (alo ahi blo bhi : nat) (m : Match) :
  agrees a b m -> agrees a b (extend a b junk alo ahi blo bhi m).
Proof.
  intros H. unfold extend.
  apply extend_fwd_agrees.
  assert (H1 : agrees a b
                 (extend_back a b junk alo blo (m_a m) (m_b m) (m_size m))).
  { apply extend_back_agrees. destruct m. exact H. }
  destruct (extend_back a b junk alo blo (m_a m) (m_b m) (m_size m)).
  exact H1.
Qed.

(** The block that [find_longest_match] returns pairs equal elements. *)
Lemma find_longest_match_agrees (alo ahi blo bhi : nat) :
  agrees a b (find_longest_match a b alo ahi blo bhi).
Proof.
  unfold find_longest_match. do 2 apply extend_agrees.
  apply scan_rows_agrees.
  - apply j2len_agrees_nil.
  - intros d Hd. cbn [m_size] in Hd. lia.
Qed.

Lemma match_queue_agrees :
  forall fuel queue blocks r,
    Forall (agrees a b) blocks ->
    match_queue a b fuel queue blocks = Some r ->
    Forall (agrees a b) r.
Proof.
  induction fuel as [|fuel IH]; intros queue blocks r Hb H;
    [discriminate|].
  destruct queue as [|[[[alo ahi] blo] bhi] queue]; cbn [match_queue] in H.
  - injection H as <-. exact Hb.
  - pose proof (find_longest_match_agrees alo ahi blo bhi) as Hx.
    set (x := find_longest_match a b alo ahi blo bhi) in *.
    destruct (m_size x =? 0).
    + apply (IH _ _ _ Hb H).
    + cbv zeta in H. apply IH in H; [exact H|].
      apply Forall_app. split; [exact Hb|]. constructor; [exact Hx|].
      constructor.
Qed.

(** A block that pairs equal elements inside [a]. *)
Local Abbreviation sound :=
  (fun x : Match =>
     agrees a b x /\ m_a x + m_size x <= List.length a).

Lemma collapse_sound :
  forall (rest : list Match) (i1 j1 k1 : nat),
    sound (mkMatch i1 j1 k1) ->
    Forall sound rest ->
    Forall sound (collapse i1 j1 k1 rest).
Proof.
  induction rest as [|x rest IH]; intros i1 j1 k1 H1 Hrest;
    cbn [collapse].
  - destruct (k1 =? 0); repeat constructor; apply H1.
  - inversion Hrest as [|? ? Hx Hrest']; subst.
    destruct ((i1 + k1 =? m_a x) && (j1 + k1 =? m_b x)) eqn:E.
    + apply andb_true_iff in E as [E1 E2].
      apply Nat.eqb_eq in E1, E2.
      apply IH; [|exact Hrest'].
      destruct H1 as [H1 H1']. destruct Hx as [Hx Hx'].
      cbn [m_a m_b m_size] in *. split; [|lia].
      intros d Hd. cbn [m_a m_b m_size] in *.
      destruct (Nat.lt_ge_cases d k1) as [Hlt|Hge].
      * apply H1. exact Hlt.
      * replace (i1 + d) with (m_a x + (d - k1)) by lia.
        replace (j1 + d) with (m_b x + (d - k1)) by lia.
        apply Hx. lia.
    + apply Forall_app. split.
      * destruct (k1 =? 0); repeat constructor; apply H1.
      * apply IH; [|exact Hrest']. destruct x. exact Hx.
Qed.

Lemma get_matching_blocks_sound :
  Forall sound (get_matching_blocks a b).
Proof.
  unfold get_matching_blocks.
  destruct (matching_blocks_loop a b) as [r|] eqn:Hr; [|constructor].
  apply Forall_app. split.
  - apply collapse_sound.
    + split; [intros d Hd; cbn [m_size] in Hd; lia | cbn; lia].
    + unfold matching_blocks_loop in Hr.
      pose proof (match_queue_agrees _ _ _ _ (Forall_nil _) Hr) as Hag.
      apply BlockFacts.match_queue_gen in Hr;
        [|repeat constructor; simpl; lia].
      destruct Hr as (B & -> & Hgen). cbn [List.app] in *.
      inversion Hgen as [|? ? Bw Bq [HF HP] Hq]; subst.
      inversion Hq; subst. rewrite app_nil_r in *.
      apply Forall_forall. intros y Hy.
      apply (proj1 (BlockFacts.sort_blocks_In _ _)) in Hy.
      rewrite Forall_forall in HF, Hag.
      split; [apply Hag, Hy|].
      specialize (HF y Hy). unfold block_in in HF. lia.
  - repeat constructor.
    + intros d Hd. cbn [m_size] in Hd. lia.
    + cbn. lia.
Qed.

Lemma opcodes_from_equal_ok :
  forall (blocks : list Match) (i j : nat),
    Forall sound blocks ->
    Forall (equal_ok a b) (opcodes_from i j blocks).
Proof.
  induction blocks as [|x blocks IH]; intros i j H; cbn [opcodes_from].
  - constructor.
  - inversion H as [|? ? [Hx Hx'] Hrest]; subst.
    apply Forall_app. split; [|apply Forall_app; split].
    + destruct ((i <? m_a x) && (j <? m_b x));
        [|destruct (i <? m_a x); [|destruct (j <? m_b x)]];
        repeat constructor; intros Ht; discriminate Ht.
    + destruct (m_size x =? 0); repeat constructor.
      intros _ t Ht. cbn [op_j1 op_j2] in Ht.
      replace t with (m_b x + (t - m_b x)) by lia.
      rewrite <- Hx by lia.
      apply nth_In. lia.
    + apply IH, Hrest.
Qed.

(** Every line of [b] under an equal opcode is a line of [a]. *)
Lemma get_opcodes_equal_ok : Forall (equal_ok a b) (get_opcodes a b).
Proof.
  unfold get_opcodes. apply opcodes_from_equal_ok.
  apply get_matching_blocks_sound.
Qed.

End Agree.

End AgreeFacts.

(** ** Which lines of the new text are tested *)

Module CoverFacts.
Import Difflib Markers Aux OpFacts BoundFacts.

(** The opcodes cover every position of [b] they lead over, and not by
    a deletion. *)
Lemma ops_ok_cover (lb j j' t : nat) (codes : list opcode) :
  ops_ok lb j codes j' -> j <= t < j' ->
  exists o, In o codes /\ op_j1 o <= t < op_j2 o /\ op_tag o <> Delete.
Proof.
  induction 1 as [j|o ops j' H1 H2 H3 H4 H5 IH]; intros Ht; [lia|].
  destruct (Nat.lt_ge_cases t (op_j2 o)) as [Hlt|Hge].
  - exists o. split; [left; reflexivity|]. split; [lia|].
    intros Hd. specialize (H2 Hd). lia.
  - destruct IH as (o' & Ho' & Hr); [lia|].
    exists o'. split; [right; exact Ho' | exact Hr].
Qed.

Lemma slice_nth_error (b : list string) (j1 j2 t : nat) (x : string) :
  nth_error b t = Some x -> j1 <= t < j2 ->
  nth_error (slice b j1 j2) (t - j1) = Some x.
Proof.
  intros Hx Ht. unfold slice. rewrite nth_error_firstn.
  replace (t - j1 <? j2 - j1) with true
    by (symmetry; apply Nat.ltb_lt; lia).
  rewrite nth_error_skipn. replace (j1 + (t - j1)) with t by lia.
  exact Hx.
Qed.

Lemma firstn_add {A : Type} (n m : nat) (l : list A) :
  firstn (n + m) l = firstn n l ++ firstn m (skipn n l).
Proof.
  revert l. induction n as [|n IH]; intros l; [reflexivity|].
  destruct l as [|x l]; cbn [Nat.add firstn skipn List.app].
  - rewrite firstn_nil. reflexivity.
  - rewrite IH. reflexivity.
Qed.

Lemma slice_split (b : list string) (j1 j2 j3 : nat) :
  j1 <= j2 -> j2 <= j3 ->
  slice b j1 j3 = slice b j1 j2 ++ slice b j2 j3.
Proof.
  intros H1 H2. unfold slice.
  replace (j3 - j1) with ((j2 - j1) + (j3 - j2)) by lia.
  rewrite firstn_add, skipn_skipn.
  replace (j2 - j1 + j1) with j2 by lia. reflexivity.
Qed.

Lemma slice_all (b : list string) : slice b 0 (List.length b) = b.
Proof.
  unfold slice. rewrite Nat.sub_0_r. cbn [skipn]. apply firstn_all.
Qed.

Section Cover.

Variable re_search : string -> string -> result bool.
Variable filename : string.
Variable patterns : list string.

Local Abbreviation numbered := (numbered re_search filename patterns).

Lemma line_errors_In (pattern line : string) (line_number : Z) :
  In pattern patterns -> re_search pattern line = Ok true ->
  In (error_message pattern filename line_number)
     (line_errors re_search filename patterns line line_number).
Proof.
  intros Hp Hs. unfold line_errors.
  apply in_map with (f := fun p => error_message p filename line_number).
  apply filter_In. split; [exact Hp|]. unfold found_in. rewrite Hs.
  reflexivity.
Qed.

Lemma numbered_In (pattern x : string) :
  In pattern patterns -> re_search pattern (String "+" x) = Ok true ->
  forall (xs : list string) (t k : nat),
    nth_error xs k = Some x ->
    In (error_message pattern filename (Z.of_nat (S (t + k))))
       (numbered t xs).
Proof.
  intros Hp Hs. induction xs as [|y xs IH]; intros t k Hk.
  - destruct k; discriminate Hk.
  - cbn [Aux.numbered]. apply in_or_app. destruct k as [|k].
    + injection Hk as ->. left. rewrite Nat.add_0_r.
      apply line_errors_In; assumption.
    + right. replace (t + S k) with (S t + k) by lia.
      apply IH. exact Hk.
Qed.

Lemma numbered_app (xs ys : list string) :
  forall t : nat,
    numbered t (xs ++ ys)
    = numbered t xs ++ numbered (t + List.length xs) ys.
Proof.
  induction xs as [|x xs IH]; intros t; cbn [List.app Aux.numbered].
  - rewrite Nat.add_0_r. reflexivity.
  - rewrite IH, <- app_assoc. cbn [List.length].
    replace (S t + List.length xs) with (t + S (List.length xs)) by lia.
    reflexivity.
Qed.

Variables a b : list string.

Local Abbreviation added := (added_errors re_search filename patterns b).

(** A line of [b] that is no line of [a] is under a replacement or an
    insertion, so its errors are among those of the opcodes. *)
Lemma added_new_line (codes : list opcode) (j j' t : nat)
  (pattern x : string) :
  ops_ok (List.length b) j codes j' ->
  Forall (equal_ok a b) codes ->
  j <= t < j' ->
  nth_error b t = Some x -> ~ In x a ->
  In pattern patterns -> re_search pattern (String "+" x) = Ok true ->
  In (error_message pattern filename (Z.of_nat (S t)))
     (flat_map added codes).
Proof.
  intros Hok Heq Ht Hx Hna Hp Hs.
  destruct (ops_ok_cover _ _ _ t _ Hok Ht) as (o & Ho & Hr & Hnd).
  apply in_flat_map. exists o. split; [exact Ho|].
  rewrite Forall_forall in Heq. specialize (Heq o Ho).
  assert (Hb : seq_item b t = x).
  { unfold seq_item. apply nth_error_nth. exact Hx. }
  assert (Hk : nth_error (slice b (op_j1 o) (op_j2 o)) (t - op_j1 o)
               = Some x)
    by (apply slice_nth_error; assumption).
  assert (Hin : In (error_message pattern filename
                      (Z.of_nat (S (op_j1 o + (t - op_j1 o)))))
                   (numbered (op_j1 o) (slice b (op_j1 o) (op_j2 o))))
    by (apply (numbered_In pattern x Hp Hs _ _ _ Hk)).
  assert (Et : op_j1 o + (t - op_j1 o) = t)
    by lia.
  rewrite Et in Hin.
  unfold Aux.added_errors.
  destruct (op_tag o) eqn:Etag.
  - exact Hin.
  - exfalso. apply Hnd. reflexivity.
  - exact Hin.
  - exfalso. apply Hna. rewrite <- Hb. apply (Heq Etag t Hr).
Qed.

End Cover.

End CoverFacts.

(** ** A text without a line in common with the old one *)

Module RewriteFacts.
Import Difflib Markers Aux OpFacts BoundFacts CoverFacts.

Lemma slice_empty (b : list string) (j : nat) : slice b j j = [].
Proof. unfold slice. rewrite Nat.sub_diag. reflexivity. Qed.

Lemma flat_map_added_all (re_search : string -> string -> result bool)
  (filename : string) (patterns a b : list string) :
  (forall x, In x b -> ~ In x a) ->
  forall (codes : list opcode) (j j' : nat),
    ops_ok (List.length b) j codes j' -> j' <= List.length b ->
    Forall (equal_ok a b) codes ->
    flat_map (added_errors re_search filename patterns b) codes
    = numbered re_search filename patterns j (slice b j j').
Proof.
  intros Hdis codes j j' Hok.
  induction Hok as [j|o ops j' H1 H2 H3 H4 H5 IH]; intros Hle Heq.
  - rewrite slice_empty. reflexivity.
  - inversion Heq as [|? ? Ho Hrest]; subst.
    pose proof (ops_ok_le _ _ _ _ H5) as Hle2.
    cbn [flat_map]. rewrite (IH Hle Hrest).
    rewrite (slice_split b (op_j1 o) (op_j2 o) j' H1 Hle2).
    rewrite numbered_app, LineFacts.slice_length by lia.
    replace (op_j1 o + (op_j2 o - op_j1 o)) with (op_j2 o) by lia.
    f_equal.
    assert (Hempty : op_j2 o = op_j1 o ->
                     @nil string
                     = numbered re_search filename patterns (op_j1 o)
                         (slice b (op_j1 o) (op_j2 o))).
    { intros ->. rewrite slice_empty. reflexivity. }
    unfold added_errors. destruct (op_tag o) eqn:Et.
    + reflexivity.
    + apply Hempty, H2. reflexivity.
    + reflexivity.
    + apply Hempty.
      destruct (Nat.eq_dec (op_j2 o) (op_j1 o)) as [E|E]; [exact E|].
      exfalso. apply (Hdis (seq_item b (op_j1 o))).
      * apply nth_In. lia.
      * apply (Ho Et). lia.
Qed.

End RewriteFacts.

(** ** The order of the errors *)

Module OrderFacts.
Import Difflib Markers Aux OpFacts BoundFacts CoverFacts.

Lemma increasing_app (l1 l2 : list nat) :
  increasing l1 -> increasing l2 ->
  (forall x y, In x l1 -> In y l2 -> x < y) ->
  increasing (l1 ++ l2).
Proof.
  intros H1 H2. induction H1 as [|j js Hj Hjs IH]; intros H;
    cbn [List.app].
  - exact H2.
  - constructor.
    + intros j' Hj'. apply in_app_or in Hj'. destruct Hj' as [Hj'|Hj'].
      * apply Hj, Hj'.
      * apply H; [left; reflexivity | exact Hj'].
    + apply IH. intros x y Hx Hy. apply H; [right; exact Hx | exact Hy].
Qed.

Lemma increasing_seq (n j : nat) : increasing (seq j n).
Proof.
  revert j. induction n as [|n IH]; intros j; cbn [seq]; constructor.
  - intros j' Hj'. apply in_seq in Hj'. lia.
  - apply IH.
Qed.

Lemma added_positions_In (o : opcode) (t : nat) :
  In t (added_positions o) -> op_j1 o <= t < op_j2 o.
Proof.
  unfold added_positions.
  destruct (op_tag o); intros H; try destruct H; apply in_seq in H; lia.
Qed.

Lemma added_positions_increasing (o : opcode) :
  increasing (added_positions o).
Proof.
  unfold added_positions.
  destruct (op_tag o); try constructor; apply increasing_seq.
Qed.

(** The positions that the opcodes bring in go up, inside the stretch
    of [b] that the opcodes lead over. *)
Lemma positions_increasing (lb j j' : nat) (codes : list opcode) :
  ops_ok lb j codes j' ->
  increasing (flat_map added_positions codes)
  /\ forall t, In t (flat_map added_positions codes) -> j <= t < j'.
Proof.
  induction 1 as [j|o ops j' H1 H2 H3 H4 H5 [IH1 IH2]]; cbn [flat_map].
  - split; [constructor | intros t []].
  - pose proof (ops_ok_le _ _ _ _ H5) as Hle. split.
    + apply increasing_app;
        [apply added_positions_increasing | exact IH1|].
      intros x y Hx Hy. apply added_positions_In in Hx.
      apply IH2 in Hy. lia.
    + intros t Ht. apply in_app_or in Ht. destruct Ht as [Ht|Ht].
      * apply added_positions_In in Ht. lia.
      * apply IH2 in Ht. lia.
Qed.

Section Order.

Variable re_search : string -> string -> result bool.
Variable filename : string.
Variable patterns : list string.
Variable b : list string.

Local Abbreviation numbered := (numbered re_search filename patterns).
Local Abbreviation errors_at := (errors_at re_search filename patterns b).

Lemma numbered_positions :
  forall (xs : list string) (t : nat),
    (forall k, k < List.length xs ->
               nth_error xs k = Some (seq_item b (t + k))) ->
    numbered t xs = flat_map errors_at (seq t (List.length xs)).
Proof.
  induction xs as [|x xs IH]; intros t H;
    cbn [Aux.numbered List.length seq flat_map].
  - reflexivity.
  - rewrite IH.
    + f_equal. unfold Aux.errors_at.
      specialize (H 0 (Nat.lt_0_succ _)). cbn [nth_error] in H.
      injection H as ->. rewrite Nat.add_0_r. reflexivity.
    + intros k Hk. specialize (H (S k)). cbn [nth_error List.length] in H.
      replace (S t + k) with (t + S k) by lia. apply H. lia.
Qed.

Lemma numbered_slice (j1 j2 : nat) :
  j1 <= j2 -> j2 <= List.length b ->
  numbered j1 (slice b j1 j2) = flat_map errors_at (seq j1 (j2 - j1)).
Proof.
  intros H1 H2.
  rewrite <- (LineFacts.slice_length b j1 j2 H2).
  apply numbered_positions. intros k Hk.
  rewrite LineFacts.slice_length in Hk by exact H2.
  replace k with (j1 + k - j1) at 1 by lia.
  apply slice_nth_error; [|lia].
  unfold seq_item. apply nth_error_nth'. lia.
Qed.

Lemma added_errors_positions (lb j j' : nat) (codes : list opcode) :
  ops_ok lb j codes j' -> lb = List.length b ->
  flat_map (added_errors re_search filename patterns b) codes
  = flat_map errors_at (flat_map added_positions codes).
Proof.
  intros Hok ->.
  induction Hok as [j|o ops j' H1 H2 H3 H4 H5 IH]; cbn [flat_map].
  - reflexivity.
  - rewrite flat_map_app, IH. f_equal.
    unfold added_errors, added_positions.
    destruct (op_tag o) eqn:Et; try reflexivity;
      apply numbered_slice; try exact H1; apply H4; discriminate.
Qed.

End Order.

End OrderFacts.

(** * Further properties, one by one

    The header parser hands the number of a line of the new text to
    [int], which refuses numerals of more than 4300 digits.  The
    properties of the scanner and the driver that need the parser to
    succeed are stated for texts whose number of lines is
    [within_int_limit], that is below [10 ^ 4300]: every text that fits
    into memory is. *)

(** ** The driver [main] of [check_for_markers.py] *)

(** X1.  When the engine accepts every pattern of the list (no pattern
    makes [re.search] raise), [main] returns for every index diff whose
    staged texts have fewer than [10 ^ 4300] lines: with status 0 and
    nothing printed, or with status 1 and the errors printed. *)
Theorem main_returns_status
  (re_search : string -> string -> result bool)
  (patterns : list string) (diff_result : list Diff) :
  accepts re_search patterns ->
  Forall entry_within_limit diff_result ->
  exists printed,
    main re_search (Some patterns) diff_result
    = Ok (match printed with [] => 0%Z | _ :: _ => 1%Z end, printed).
Proof.
  intros Hre Hlim.
  destruct (DriverFacts.check_diffs_total re_search patterns Hre
              diff_result [] Hlim) as [errors E].
  exists errors. unfold main. rewrite E. cbn [bind].
  destruct errors; reflexivity.
Qed.

Lemma main_returns_status_witness :
  exists printed,
    main Re.engine (Some ["# xxx"; "print\("])
      [mkDiff (Some (mkBlob "n1" (Some (text ["a"; "print(1)"]))))
              (Some (mkBlob "o1" (Some (text ["a"]))))
              (Some "f.py");
       mkDiff (Some (mkBlob "n2" None))
              (Some (mkBlob "o2" (Some (text ["# xxx"]))))
              (Some "g.bin")]
    = Ok (match printed with [] => 0%Z | _ :: _ => 1%Z end, printed).
Proof.
  apply (main_returns_status Re.engine ["# xxx"; "print\("]).
  - apply AcceptFacts.engine_accepts.
    repeat constructor; vm_compute; discriminate.
  - constructor; [apply Nat.leb_le; vm_compute; reflexivity|].
    constructor;
      [apply Nat.leb_le; vm_compute; reflexivity | constructor].
Defined.

(** X2.  [main] on an index diff in two parts: the errors printed are
    those of the first part followed by those of the second, the status
    is the larger of the two, and a failure of the first part comes
    before one of the second. *)
Theorem main_over_concatenation
  (re_search : string -> string -> result bool)
  (pattern : option (list string)) (d1 d2 : list Diff) :
  main re_search pattern (d1 ++ d2)
  = (r1 <- main re_search pattern d1 ;;
     r2 <- main re_search pattern d2 ;;
     Ok (Z.max (fst r1) (fst r2), snd r1 ++ snd r2)).
Proof.
  unfold main. rewrite DriverFacts.check_diffs_app.
  destruct (check_diffs re_search pattern d1 []) as [e1|x1]; cbn [bind];
    [|reflexivity].
  rewrite DriverFacts.check_diffs_acc.
  destruct (check_diffs re_search pattern d2 []) as [e2|x2]; cbn [bind].
  - destruct e1 as [|y1 e1]; destruct e2 as [|y2 e2]; reflexivity.
  - destruct e1; reflexivity.
Qed.

(** X3.  An entry whose two blobs are the same object, or whose staged
    blob is missing, empty or no valid UTF-8, can be taken out of the
    index diff at any place: status, output and failure of [main] stay
    the same, with or without a pattern list. *)
Theorem main_ignores_entries_without_new_text
  (re_search : string -> string -> result bool)
  (pattern : option (list string)) (diff : Diff) (d1 d2 : list Diff) :
  without_new_text diff ->
  main re_search pattern (d1 ++ diff :: d2)
  = main re_search pattern (d1 ++ d2).
Proof.
  intros H. unfold main.
  rewrite (DriverFacts.check_diffs_skip re_search pattern diff d1 d2 []
             (DriverFacts.check_diff_without_new_text re_search pattern
                diff H)).
  reflexivity.
Qed.

Lemma main_ignores_entries_without_new_text_witness :
  main Re.engine (Some ["# xxx"])
    ([mkDiff (Some (mkBlob "n1" (Some (text ["# xxx"]))))
             (Some (mkBlob "o1" (Some (text ["a"])))) (Some "f")]
     ++ mkDiff (Some (mkBlob "n2" None))
               (Some (mkBlob "o2" (Some (text ["# xxx"])))) (Some "g")
     :: [])
  = main Re.engine (Some ["# xxx"])
      ([mkDiff (Some (mkBlob "n1" (Some (text ["# xxx"]))))
               (Some (mkBlob "o1" (Some (text ["a"])))) (Some "f")]
       ++ []).
Proof.
  apply (main_ignores_entries_without_new_text Re.engine (Some ["# xxx"])).
  right. reflexivity.
Defined.

(** X4.  With the empty pattern list [main] returns status 0 and prints
    nothing, for every engine and every index diff whose staged texts
    have fewer than [10 ^ 4300] lines. *)
Theorem main_empty_pattern_list
  (re_search : string -> string -> result bool) (diff_result : list Diff) :
  Forall entry_within_limit diff_result ->
  main re_search (Some []) diff_result = Ok (0%Z, []).
Proof.
  intros Hlim.
  unfold main. rewrite DriverFacts.check_diffs_quiet; [reflexivity|].
  intros d Hd. unfold check_diff.
  destruct (blob_eq (a_blob d) (b_blob d) || is_none (b_blob d));
    [reflexivity|].
  apply DriverFacts.collect_errors_no_patterns.
  rewrite Forall_forall in Hlim. apply Hlim, Hd.
Qed.

Lemma main_empty_pattern_list_witness :
  main Re.engine (Some [])
    [mkDiff (Some (mkBlob "n1" (Some (text ["a"; "# xxx"]))))
            (Some (mkBlob "o1" (Some (text ["a"])))) (Some "f")]
  = Ok (0%Z, []).
Proof.
  apply (main_empty_pattern_list Re.engine).
  constructor;
      [apply Nat.leb_le; vm_compute; reflexivity | constructor].
Defined.

(** X5.  When [args.pattern] is [None], [main] never prints an error and
    never fails in the header parser: it returns status 0 with nothing
    printed, or the loop over the patterns raises [TypeError].  This
    holds for every index diff whose staged texts have fewer than
    [10 ^ 4300] lines. *)
Theorem main_unset_patterns
  (re_search : string -> string -> result bool) (diff_result : list Diff) :
  Forall entry_within_limit diff_result ->
  main re_search None diff_result = Ok (0%Z, [])
  \/ main re_search None diff_result = Raise TypeError.
Proof.
  intros Hlim. unfold main.
  destruct (NoPatternFacts.check_diffs_none re_search diff_result [] Hlim)
    as [-> | ->]; [left | right]; reflexivity.
Qed.

Lemma main_unset_patterns_witness :
  main Re.engine None
    [mkDiff (Some (mkBlob "n1" (Some EmptyString)))
            (Some (mkBlob "o1" (Some (text ["a"])))) (Some "f");
     mkDiff (Some (mkBlob "n2" (Some (text ["a"; "b"]))))
            (Some (mkBlob "o2" (Some (text ["a"])))) (Some "g")]
  = Ok (0%Z, [])
  \/ main Re.engine None
       [mkDiff (Some (mkBlob "n1" (Some EmptyString)))
               (Some (mkBlob "o1" (Some (text ["a"])))) (Some "f");
        mkDiff (Some (mkBlob "n2" (Some (text ["a"; "b"]))))
               (Some (mkBlob "o2" (Some (text ["a"])))) (Some "g")]
     = Raise TypeError.
Proof.
  apply (main_unset_patterns Re.engine).
  constructor; [apply Nat.leb_le; vm_compute; reflexivity|].
  constructor;
      [apply Nat.leb_le; vm_compute; reflexivity | constructor].
Defined.

(** X6.  When an entry of the index diff has two different blobs, the
    old one present, and its staged text has a line that is no line of
    the old text, in which the engine finds a pattern of the list, then
    [main] returns status 1 and prints the error for that pattern with
    the path of the entry and the number of the line.  This holds when
    the engine accepts the patterns, no line of that staged text reads
    [+++] behind the plus sign of the diff, and every staged text has
    fewer than [10 ^ 4300] lines, so that [int] reads every header. *)
Theorem main_fails_on_new_matching_line
  (re_search : string -> string -> result bool)
  (patterns : list string) (diff_result : list Diff) (diff : Diff)
  (pattern x : string) (t : nat) :
  accepts re_search patterns ->
  Forall entry_within_limit diff_result ->
  In diff diff_result ->
  blob_eq (a_blob diff) (b_blob diff) = false ->
  is_none (b_blob diff) = false ->
  (forall y, In y (Py.splitlines (read_blob (a_blob diff))) ->
             Py.strip (String "+" y) <> "+++") ->
  nth_error (Py.splitlines (read_blob (a_blob diff))) t = Some x ->
  ~ In x (Py.splitlines (read_blob (b_blob diff))) ->
  In pattern patterns ->
  re_search pattern (String "+" x) = Ok true ->
  exists printed,
    main re_search (Some patterns) diff_result = Ok (1%Z, printed)
    /\ In (error_message pattern
             (match b_path diff with
              | Some path => path
              | None => EmptyString
              end)
             (Z.of_nat (t + 1)))
          printed.
Proof.
  intros Hre Hlim Hd Hne Hold Hplus Hx Hna Hp Hs.
  destruct (DriverFacts.check_diffs_total re_search patterns Hre
              diff_result [] Hlim) as [errors E].
  assert (Hlimd : entry_within_limit diff)
    by (rewrite Forall_forall in Hlim; apply Hlim, Hd).
  assert (Ht : forall y, In y (Py.splitlines (read_blob (a_blob diff))) ->
                 tested (String "+" y) = true).
  { intros y Hy. apply ScanFacts.tested_plus, Hplus, Hy. }
  assert (Hf : check_diff re_search (Some patterns) diff
               = Ok (flat_map
                       (added_errors re_search
                          (match b_path diff with
                           | Some path => path
                           | None => EmptyString
                           end)
                          patterns
                          (Py.splitlines (read_blob (a_blob diff))))
                       (Difflib.get_opcodes
                          (Py.splitlines (read_blob (b_blob diff)))
                          (Py.splitlines (read_blob (a_blob diff)))))).
  { unfold check_diff. rewrite Hne, Hold. cbn [orb].
    apply ExactFacts.collect_errors_exact; assumption. }
  clear Hlimd.
  assert (He : In (error_message pattern
                     (match b_path diff with
                      | Some path => path
                      | None => EmptyString
                      end)
                     (Z.of_nat (t + 1)))
                  errors).
  { apply (DriverFacts.check_diffs_In re_search (Some patterns)
             diff_result [] errors diff _ _ E Hd Hf).
    rewrite Nat.add_1_r.
    apply (CoverFacts.added_new_line re_search _ patterns
             (Py.splitlines (read_blob (b_blob diff)))
             (Py.splitlines (read_blob (a_blob diff)))
             _ 0 (List.length (Py.splitlines (read_blob (a_blob diff))))
             t pattern x).
    - apply OpFacts.get_opcodes_ok.
    - apply AgreeFacts.get_opcodes_equal_ok.
    - split; [lia|]. apply nth_error_Some. rewrite Hx. discriminate.
    - exact Hx.
    - exact Hna.
    - exact Hp.
    - exact Hs. }
  exists errors. unfold main. rewrite E. cbn [bind].
  destruct errors as [|e errors]; [destruct He|].
  split; [reflexivity | exact He].
Qed.

Lemma main_fails_on_new_matching_line_witness :
  exists printed,
    main Re.engine (Some ["# xxx"; "print\("])
      [mkDiff (Some (mkBlob "n0" (Some (text ["x"]))))
              (Some (mkBlob "n0" (Some (text ["x"])))) (Some "same.py");
       mkDiff (Some (mkBlob "n1" (Some (text ["a"; "print(1)"; "b"]))))
              (Some (mkBlob "o1" (Some (text ["a"; "b"]))))
              (Some "f.py")]
    = Ok (1%Z, printed)
    /\ In (error_message "print\("
             (match Some "f.py" with
              | Some path => path
              | None => EmptyString
              end)
             (Z.of_nat (1 + 1)))
          printed.
Proof.
  apply (main_fails_on_new_matching_line Re.engine ["# xxx"; "print\("]
           _ (mkDiff (Some (mkBlob "n1"
                               (Some (text ["a"; "print(1)"; "b"]))))
                     (Some (mkBlob "o1" (Some (text ["a"; "b"]))))
                     (Some "f.py"))
           "print\(" "print(1)" 1).
  - apply AcceptFacts.engine_accepts.
    repeat constructor; vm_compute; discriminate.
  - constructor; [apply Nat.leb_le; vm_compute; reflexivity|].
    constructor;
      [apply Nat.leb_le; vm_compute; reflexivity | constructor].
  - right. left. reflexivity.
  - reflexivity.
  - reflexivity.
  - intros y Hy. vm_compute in Hy.
    destruct Hy as [<-|[<-|[<-|[]]]]; vm_compute; discriminate.
  - reflexivity.
  - vm_compute. intros [H|[H|[]]]; discriminate H.
  - right. left. reflexivity.
  - reflexivity.
Defined.

(** ** The scanner [collect_errors] *)

(** X7.  When the engine accepts the patterns, [collect_errors] returns a
    list of errors for every old text and every new text of fewer than
    [10 ^ 4300] lines: no line of the diff makes the header parser
    raise. *)
Theorem collect_errors_returns
  (re_search : string -> string -> result bool)
  (filename new_data old_data : string) (patterns : list string) :
  accepts re_search patterns ->
  within_int_limit (List.length (Py.splitlines new_data)) ->
  exists errors,
    collect_errors re_search filename new_data old_data (Some patterns)
    = Ok errors.
Proof.
  intros Hre Hlim.
  apply CollectFacts.collect_errors_total; [exact Hlim | exact Hre].
Qed.

Lemma collect_errors_returns_witness :
  exists errors,
    collect_errors Re.engine "f" (text ["++"; "@@ x"; "# xxx"])
                   (text ["@@"; "b"]) (Some ["# xxx"; "^\+@"])
    = Ok errors.
Proof.
  apply (collect_errors_returns Re.engine "f"
           (text ["++"; "@@ x"; "# xxx"]) (text ["@@"; "b"])
           ["# xxx"; "^\+@"]).
  - apply AcceptFacts.engine_accepts.
    repeat constructor; vm_compute; discriminate.
  - apply Nat.leb_le. vm_compute. reflexivity.
Defined.

(** X8.  The errors of [collect_errors] are those of the lines that the
    opcodes of [SequenceMatcher(None, old_lines, new_lines)] replace or
    insert: opcode by opcode, line by line, pattern by pattern, each line
    with its number in the new text.  This holds when the engine accepts
    the patterns, the new text has fewer than [10 ^ 4300] lines and none
    of them reads [+++] behind the plus sign of the diff. *)
Theorem collect_errors_by_opcodes
  (re_search : string -> string -> result bool)
  (filename new_data old_data : string) (patterns : list string) :
  accepts re_search patterns ->
  within_int_limit (List.length (Py.splitlines new_data)) ->
  (forall x, In x (Py.splitlines new_data) ->
             Py.strip (String "+" x) <> "+++") ->
  collect_errors re_search filename new_data old_data (Some patterns)
  = Ok (flat_map
          (added_errors re_search filename patterns
             (Py.splitlines new_data))
          (Difflib.get_opcodes (Py.splitlines old_data)
                               (Py.splitlines new_data))).
Proof.
  intros Hre Hlim Hplus.
  apply ExactFacts.collect_errors_exact; [exact Hlim | exact Hre|].
  intros x Hx. apply ScanFacts.tested_plus, Hplus, Hx.
Qed.

Lemma collect_errors_by_opcodes_witness :
  collect_errors Re.engine "f" (text ["a"; "# xxx"; "b"; "c # xxx"])
                 (text ["a"; "b"; "old"]) (Some ["# xxx"; "^\+c"])
  = Ok (flat_map
          (added_errors Re.engine "f" ["# xxx"; "^\+c"]
             (Py.splitlines (text ["a"; "# xxx"; "b"; "c # xxx"])))
          (Difflib.get_opcodes
             (Py.splitlines (text ["a"; "b"; "old"]))
             (Py.splitlines (text ["a"; "# xxx"; "b"; "c # xxx"])))).
Proof.
  apply (collect_errors_by_opcodes Re.engine "f"
           (text ["a"; "# xxx"; "b"; "c # xxx"]) (text ["a"; "b"; "old"])
           ["# xxx"; "^\+c"]).
  - apply AcceptFacts.engine_accepts.
    repeat constructor; vm_compute; discriminate.
  - apply Nat.leb_le. vm_compute. reflexivity.
  - intros x Hx. vm_compute in Hx.
    destruct Hx as [<-|[<-|[<-|[<-|[]]]]]; vm_compute; discriminate.
Defined.

(** X9.  A line of the new text that is no line of the old text and in
    which the engine finds a pattern of the list is reported, with its
    1-based number in the new text.  This holds when the engine accepts
    the patterns, the new text has fewer than [10 ^ 4300] lines and none
    of them reads [+++] behind the plus sign of the diff. *)
Theorem new_line_is_reported
  (re_search : string -> string -> result bool)
  (filename new_data old_data : string) (patterns : list string)
  (pattern x : string) (t : nat) :
  accepts re_search patterns ->
  within_int_limit (List.length (Py.splitlines new_data)) ->
  (forall y, In y (Py.splitlines new_data) ->
             Py.strip (String "+" y) <> "+++") ->
  nth_error (Py.splitlines new_data) t = Some x ->
  ~ In x (Py.splitlines old_data) ->
  In pattern patterns ->
  re_search pattern (String "+" x) = Ok true ->
  exists errors,
    collect_errors re_search filename new_data old_data (Some patterns)
    = Ok errors
    /\ In (error_message pattern filename (Z.of_nat (t + 1))) errors.
Proof.
  intros Hre Hlim Hplus Hx Hna Hp Hs.
  eexists. split.
  - apply ExactFacts.collect_errors_exact; [exact Hlim | exact Hre|].
    intros y Hy. apply ScanFacts.tested_plus, Hplus, Hy.
  - rewrite Nat.add_1_r.
    apply (CoverFacts.added_new_line re_search filename patterns
             (Py.splitlines old_data) (Py.splitlines new_data)
             _ 0 (List.length (Py.splitlines new_data)) t pattern x).
    + apply OpFacts.get_opcodes_ok.
    + apply AgreeFacts.get_opcodes_equal_ok.
    + split; [lia|]. apply nth_error_Some. rewrite Hx. discriminate.
    + exact Hx.
    + exact Hna.
    + exact Hp.
    + exact Hs.
Qed.

Lemma new_line_is_reported_witness :
  exists errors,
    collect_errors Re.engine "f" (text ["a"; "b"; "x = 1  # XXX"; "c"])
                   (text ["a"; "b"; "c"]) (Some ["# xxx"; "# XXX"])
    = Ok errors
    /\ In (error_message "# XXX" "f" (Z.of_nat (2 + 1))) errors.
Proof.
  apply (new_line_is_reported Re.engine "f"
           (text ["a"; "b"; "x = 1  # XXX"; "c"]) (text ["a"; "b"; "c"])
           ["# xxx"; "# XXX"] "# XXX" "x = 1  # XXX" 2).
  - apply AcceptFacts.engine_accepts.
    repeat constructor; vm_compute; discriminate.
  - apply Nat.leb_le. vm_compute. reflexivity.
  - intros y Hy. vm_compute in Hy.
    destruct Hy as [<-|[<-|[<-|[<-|[]]]]]; vm_compute; discriminate.
  - reflexivity.
  - vm_compute. intros [H|[H|[H|[]]]]; discriminate H.
  - right. left. reflexivity.
  - reflexivity.
Defined.

(** X10.  When no line of the new text is a line of the old text (a new
    file, or a file rewritten throughout), every line of the new text is
    tested: the errors are those of line 1, then those of line 2, and so
    on to the last line.  This holds when the engine accepts the
    patterns, the new text has fewer than [10 ^ 4300] lines and none of
    them reads [+++] behind the plus sign of the diff. *)
Theorem rewritten_text_is_tested
  (re_search : string -> string -> result bool)
  (filename new_data old_data : string) (patterns : list string) :
  accepts re_search patterns ->
  within_int_limit (List.length (Py.splitlines new_data)) ->
  (forall x, In x (Py.splitlines new_data) ->
             Py.strip (String "+" x) <> "+++") ->
  (forall x, In x (Py.splitlines new_data) ->
             ~ In x (Py.splitlines old_data)) ->
  collect_errors re_search filename new_data old_data (Some patterns)
  = Ok (numbered re_search filename patterns 0 (Py.splitlines new_data)).
Proof.
  intros Hre Hlim Hplus Hdis.
  rewrite ExactFacts.collect_errors_exact;
    [|exact Hlim | exact Hre
     | intros x Hx; apply ScanFacts.tested_plus, Hplus, Hx].
  rewrite (RewriteFacts.flat_map_added_all re_search filename patterns
             (Py.splitlines old_data) (Py.splitlines new_data) Hdis
             _ 0 (List.length (Py.splitlines new_data))).
  - rewrite CoverFacts.slice_all. reflexivity.
  - apply OpFacts.get_opcodes_ok.
  - apply Nat.le_refl.
  - apply AgreeFacts.get_opcodes_equal_ok.
Qed.

Lemma rewritten_text_is_tested_witness :
  collect_errors Re.engine "f" (text ["import pdb"; "x = 1"; "# xxx"])
                 EmptyString (Some ["# xxx"; "pdb"])
  = Ok (numbered Re.engine "f" ["# xxx"; "pdb"] 0
          (Py.splitlines (text ["import pdb"; "x = 1"; "# xxx"]))).
Proof.
  apply (rewritten_text_is_tested Re.engine "f"
           (text ["import pdb"; "x = 1"; "# xxx"]) EmptyString
           ["# xxx"; "pdb"]).
  - apply AcceptFacts.engine_accepts.
    repeat constructor; vm_compute; discriminate.
  - apply Nat.leb_le. vm_compute. reflexivity.
  - intros x Hx. vm_compute in Hx.
    destruct Hx as [<-|[<-|[<-|[]]]]; vm_compute; discriminate.
  - intros x _ [].
Defined.

(** X11.  The errors come in the order of the lines of the new text:
    there are positions [t1 < t2 < ...] of the new text such that the
    list returned is the errors of line [t1 + 1], then those of line
    [t2 + 1], and so on, each line with its errors in the order of the
    pattern list.  This holds when the engine accepts the patterns, the
    new text has fewer than [10 ^ 4300] lines and none of them reads
    [+++] behind the plus sign of the diff. *)
Theorem errors_follow_the_new_lines
  (re_search : string -> string -> result bool)
  (filename new_data old_data : string) (patterns : list string) :
  accepts re_search patterns ->
  within_int_limit (List.length (Py.splitlines new_data)) ->
  (forall x, In x (Py.splitlines new_data) ->
             Py.strip (String "+" x) <> "+++") ->
  exists ts : list nat,
    increasing ts
    /\ (forall t, In t ts -> t < List.length (Py.splitlines new_data))
    /\ collect_errors re_search filename new_data old_data
                      (Some patterns)
       = Ok (flat_map
               (errors_at re_search filename patterns
                  (Py.splitlines new_data))
               ts).
Proof.
  intros Hre Hlim Hplus.
  pose proof (OpFacts.get_opcodes_ok (Py.splitlines old_data)
                (Py.splitlines new_data)) as Hok.
  destruct (OrderFacts.positions_increasing _ _ _ _ Hok) as [H1 H2].
  exists (flat_map added_positions
            (Difflib.get_opcodes (Py.splitlines old_data)
                                 (Py.splitlines new_data))).
  split; [exact H1 | split].
  - intros t Ht. apply H2, Ht.
  - rewrite ExactFacts.collect_errors_exact;
      [|exact Hlim | exact Hre
       | intros x Hx; apply ScanFacts.tested_plus, Hplus, Hx].
    rewrite (OrderFacts.added_errors_positions re_search filename patterns
               _ _ _ _ _ Hok eq_refl).
    reflexivity.
Qed.

Lemma errors_follow_the_new_lines_witness :
  exists ts : list nat,
    increasing ts
    /\ (forall t, In t ts ->
                  t < List.length
                        (Py.splitlines (text ["# xxx"; "a"; "b # xxx"])))
    /\ collect_errors Re.engine "f" (text ["# xxx"; "a"; "b # xxx"])
                      (text ["a"]) (Some ["xxx"; "# "])
       = Ok (flat_map
               (errors_at Re.engine "f" ["xxx"; "# "]
                  (Py.splitlines (text ["# xxx"; "a"; "b # xxx"])))
               ts).
Proof.
  apply (errors_follow_the_new_lines Re.engine "f"
           (text ["# xxx"; "a"; "b # xxx"]) (text ["a"]) ["xxx"; "# "]).
  - apply AcceptFacts.engine_accepts.
    repeat constructor; vm_compute; discriminate.
  - apply Nat.leb_le. vm_compute. reflexivity.
  - intros x Hx. vm_compute in Hx.
    destruct Hx as [<-|[<-|[<-|[]]]]; vm_compute; discriminate.
Defined.

(** X12.  A new text of fewer than [10 ^ 4300] lines, in none of which
    the engine finds a pattern, gives no error, whatever the old text
    is. *)
Theorem clean_text_passes
  (re_search : string -> string -> result bool)
  (filename new_data old_data : string) (patterns : list string) :
  accepts re_search patterns ->
  within_int_limit (List.length (Py.splitlines new_data)) ->
  (forall pattern x,
      In pattern patterns -> In x (Py.splitlines new_data) ->
      re_search pattern (String "+" x) <> Ok true) ->
  collect_errors re_search filename new_data old_data (Some patterns)
  = Ok [].
Proof.
  intros Hre Hlim Hclean.
  destruct (CollectFacts.collect_errors_total re_search filename new_data
              old_data patterns Hlim Hre) as [errors E].
  rewrite E. destruct errors as [|e errors]; [reflexivity|]. exfalso.
  destruct (CollectFacts.collect_errors_from_new_lines _ _ _ _ _ _ e E
              (or_introl eq_refl)) as (p & x & n & Hp & Hx & Hs & _).
  apply (Hclean p x Hp Hx Hs).
Qed.

Lemma clean_text_passes_witness :
  collect_errors Re.engine "f" (text ["a"; "++"; "b = 2"])
                 (text ["a"; "# xxx"]) (Some ["# xxx"; "^\+print"])
  = Ok [].
Proof.
  apply (clean_text_passes Re.engine "f" (text ["a"; "++"; "b = 2"])
           (text ["a"; "# xxx"]) ["# xxx"; "^\+print"]).
  - apply AcceptFacts.engine_accepts.
    repeat constructor; vm_compute; discriminate.
  - apply Nat.leb_le. vm_compute. reflexivity.
  - intros pattern x Hp Hx. vm_compute in Hx.
    destruct Hp as [<-|[<-|[]]];
      destruct Hx as [<-|[<-|[<-|[]]]]; vm_compute; discriminate.
Defined.

(** X13.  An empty new text (the staged file is empty, or its blob could
    not be read) gives no error and no failure, for every old text and
    also when the pattern list is [None]. *)
Theorem collect_errors_empty_new_text
  (re_search : string -> string -> result bool)
  (filename old_data : string) (error_patterns : option (list string)) :
  collect_errors re_search filename EmptyString old_data error_patterns
  = Ok [].
Proof. apply CollectFacts.collect_errors_no_new_lines. reflexivity. Qed.

(** ** The header parser [parse_line_number] *)

(** X14.  [parse_line_number] reads every line of [unified_diff] that
    starts with [@@], for every size of the context and every pair of
    sequences of which the new one has fewer than [10 ^ 4300] elements:
    on the diffs it is called on, it does not raise. *)
Theorem hunk_headers_are_read (a b : list string) (n : nat) (line : string) :
  within_int_limit (List.length b) ->
  In line (Difflib.unified_diff a b n) ->
  Py.startswith line "@@" = true ->
  exists k : nat, parse_line_number line = Ok (Z.of_nat k).
Proof.
  intros Hlim Hin Hs.
  destruct (DiffLines.unified_diff_kind a b n line Hin)
    as [| |g Hg|x Hx|x Hx|x Hx];
    try (vm_compute in Hs; discriminate Hs).
  exists (group_start g). rewrite HeaderFacts.parse_hunk_header.
  apply (read_back_within (List.length b)); [exact Hlim | lia].
Qed.

Lemma hunk_headers_are_read_witness :
  exists k : nat, parse_line_number "@@ -1,0 +2 @@" = Ok (Z.of_nat k).
Proof.
  apply (hunk_headers_are_read ["a"; "c"] ["a"; "b"; "c"] 0
           "@@ -1,0 +2 @@").
  - apply Nat.leb_le. vm_compute. reflexivity.
  - vm_compute. right. right. left. reflexivity.
  - reflexivity.
Defined.

(** X15.  On a header in the short form of the docstring,
    [@@ -14,0 +15 @@], where the new range is a single number,
    [parse_line_number] returns that number when it is written with at
    most 4300 digits, and raises [ValueError] when the new range is
    written with more. *)
Theorem parse_line_number_short_header (old_range : string) :
  lacks " " old_range = true ->
  (forall n : nat,
      String.length (dec n) <= Py.max_str_digits ->
      parse_line_number ("@@ -" ++ old_range ++ " +" ++ dec n ++ " @@")
      = Ok (Z.of_nat n))
  /\ (forall c : string,
        all_chars is_digit c = true ->
        Py.max_str_digits < String.length c ->
        parse_line_number ("@@ -" ++ old_range ++ " +" ++ c ++ " @@")
        = Raise ValueError).
Proof.
  intros H. split.
  - intros n Hlen.
    pose proof (HeaderFacts.parse_header_text old_range EmptyString
                  (Z.of_nat n) H eq_refl (or_introl eq_refl)
                  (Nat2Z.is_nonneg n)) as E.
    cbn [append] in E. unfold dec. cbn [append]. rewrite E.
    apply read_back_short, Hlen.
  - intros c Hc Hlen.
    pose proof (HeaderFacts.parse_header_fields_text old_range c
                  EmptyString H Hc eq_refl (or_introl eq_refl)) as E.
    cbn [append] in E. cbn [append]. rewrite E.
    apply int_plus_long; assumption.
Qed.

Lemma parse_line_number_short_header_witness :
  parse_line_number ("@@ -" ++ "14,0" ++ " +" ++ dec 15 ++ " @@")
  = Ok (Z.of_nat 15)
  /\ parse_line_number ("@@ -" ++ "14,0" ++ " +" ++ nines 4301 ++ " @@")
     = Raise ValueError.
Proof.
  split.
  - apply (proj1 (parse_line_number_short_header "14,0" eq_refl) 15).
    apply Nat.leb_le. vm_compute. reflexivity.
  - apply (proj2 (parse_line_number_short_header "14,0" eq_refl)
             (nines 4301)).
    + vm_compute. reflexivity.
    + apply Nat.ltb_lt. vm_compute. reflexivity.
Defined.

(** ** [check_for_xxx.py] *)

(** X16.  [main] of [check_for_xxx.py] returns 1 exactly when [# xxx]
    occurs in the output of [git diff --cached], in any mix of capitals
    and small letters and in whatever line: how the output is cut into
    lines does not matter for the status. *)
Theorem xxx_status_by_occurrence (diff_output : string) :
  fst (Xxx.main diff_output)
  = if Py.contains "# xxx" (Py.lower diff_output) then 1%Z else 0%Z.
Proof.
  pose proof (XxxFacts.existsb_splitlines_from "# xxx" eq_refl eq_refl
                eq_refl (String.length diff_output) diff_output
                EmptyString (Nat.le_refl _)) as H.
  cbn [append] in H. rewrite XxxFacts.filter_nil_existsb in H.
  unfold Xxx.main, Xxx.matching, Py.bytes_splitlines.
  rewrite <- H.
  destruct (filter (fun line => Py.contains "# xxx" (Py.lower line))
              (Py.splitlines_from
                 (fun c => Ascii.eqb c Py.LF || Ascii.eqb c Py.CR)
                 EmptyString diff_output)); reflexivity.
Qed.
